(** * Telegram backup: storage, normalisation, synchronisation and digest

    A shallow embedding of [telegram_backup.py].  Python strings are Rocq
    strings (sequences of bytes); the regular expressions and [str.isdigit]
    are modelled on ASCII digits, which is what the reference strings
    produced by the transport client contain.  SQLite tables are lists of
    rows, a row maps column names to SQL values.  The transport client, the
    HTML parser, the JSON serialiser and the clock are collaborators of the
    program and appear as section variables. *)

From stdpp Require Import gmap strings list sorting pretty.
From Stdlib Require Import ZArith Ascii OrdersEx.

Open Scope string_scope.
Open Scope Z_scope.
Open Scope list_scope.

(** ** Strings *)

Module Str.

Definition is_digit (c : ascii) : bool :=
  ((48 <=? nat_of_ascii c) && (nat_of_ascii c <=? 57))%nat.

(** The longest run of digits at the head of [s] (a greedy [\d*]). *)
Fixpoint take_digits (s : string) : string :=
  match s with
  | String c s' => if is_digit c then String c (take_digits s') else ""
  | "" => ""
  end.

Fixpoint drop_digits (s : string) : string :=
  match s with
  | String c s' => if is_digit c then drop_digits s' else s
  | "" => ""
  end.

(** [strip_prefix p s] is the rest of [s] after the literal [p]. *)
Fixpoint strip_prefix (p s : string) : option string :=
  match p, s with
  | "", _ => Some s
  | String a p', String b s' => if decide (a = b) then strip_prefix p' s' else None
  | String _ _, "" => None
  end.

(** [str.isdigit()]: every character is a digit and there is at least one. *)
Fixpoint all_digits (s : string) : bool :=
  match s with
  | "" => true
  | String c s' => is_digit c && all_digits s'
  end.

Definition isdigit (s : string) : bool :=
  match s with "" => false | _ => all_digits s end.

Definition starts_with_digit (s : string) : bool :=
  match s with String c _ => is_digit c | "" => false end.

(** [needle in s] on Python strings. *)
Fixpoint contains (needle s : string) : bool :=
  match strip_prefix needle s with
  | Some _ => true
  | None => match s with
            | "" => false
            | String _ s' => contains needle s'
            end
  end.

(** [s.split(sep)[0]] for a one-character separator. *)
Fixpoint before_char (sep : ascii) (s : string) : string :=
  match s with
  | "" => ""
  | String c s' => if decide (c = sep) then "" else String c (before_char sep s')
  end.

Fixpoint has_char (sep : ascii) (s : string) : bool :=
  match s with
  | "" => false
  | String c s' => bool_decide (c = sep) || has_char sep s'
  end.

(** Truth value of an optional Python string: [None] and [""] are false. *)
Definition truthy (o : option string) : bool :=
  match o with
  | Some (String _ _) => true
  | _ => false
  end.

(** An f-string field holding an optional string prints [None] as such. *)
Definition fmt (o : option string) : string :=
  match o with Some s => s | None => "None" end.

End Str.

(** ** Regular-expression probes of [extract_user_id] *)

(** One match attempt of [key(\d+)] anchored at the head of [s]. *)
Definition match_here (key s : string) : option string :=
  match Str.strip_prefix key s with
  | Some rest =>
      match Str.take_digits rest with
      | "" => None
      | d => Some d
      end
  | None => None
  end.

(** [re.search(key + "(\d+)", s)] followed by [.group(1)]: the leftmost
    position where the attempt succeeds. *)
Fixpoint re_search_digits (key s : string) : option string :=
  match match_here key s with
  | Some d => Some d
  | None =>
      match s with
      | "" => None
      | String _ s' => re_search_digits key s'
      end
  end.

Definition extract_user_id (from_id_str : option string) : option string :=
  match from_id_str with
  | None => None
  | Some "" => None
  | Some s =>
      match re_search_digits "user_id=" s with
      | Some d => Some d
      | None =>
          match re_search_digits "channel_id=" s with
          | Some d => Some d
          | None =>
              match re_search_digits "chat_id=" s with
              | Some d => Some d
              | None => if Str.isdigit s then Some s else None
              end
          end
      end
  end.

(** ** Exceptions and fallible results *)

Inductive exn :=
  | FloodWaitError (seconds : Z)
  | ChannelPrivateError
  | OperationalError (msg : string)
  | KeyError (key : string)
  | TypeError
  | AttributeError
  | ClientError (msg : string).

Inductive result (A : Type) :=
  | Ok (a : A)
  | Raise (e : exn).

Arguments Ok {A} a.
Arguments Raise {A} e.

Definition rbind {A B} (r : result A) (k : A → result B) : result B :=
  match r with
  | Ok a => k a
  | Raise e => Raise e
  end.

Notation "'try!' x := r 'in' k" := (rbind r (λ x, k))
  (at level 10, x name, r at level 100, k at level 200).

(** ** The embedded relational store *)

Inductive sqlval :=
  | SqlNull
  | SqlInt (z : Z)
  | SqlText (s : string).

#[global] Instance sqlval_eq_dec : EqDecision sqlval.
Proof. solve_decision. Defined.

(** A row maps column names to values; a column without an entry reads as
    NULL. *)
Abbreviation Row := (gmap string sqlval).

Definition cell (r : Row) (c : string) : sqlval := default SqlNull (r !! c).

(** A table: column declarations (name, declared type and default) in order,
    the text of its table constraint, the columns of its uniqueness
    constraint, and its rows in insertion order. *)
Record Table := {
  tbl_cols : list (string * string);
  tbl_constraint : string;
  tbl_key : list string;
  tbl_rows : list Row
}.

Abbreviation Db := (gmap string Table).

Definition col_names (t : Table) : list string := (tbl_cols t).*1.

Definition has_column (t : Table) (c : string) : bool :=
  bool_decide (c ∈ col_names t).

(** The statement text kept in [sqlite_master.sql]: the declarations of the
    table, with the columns added by [ALTER TABLE] at their place in the
    column list. *)
Definition cols_sql (cols : list (string * string)) : string :=
  foldr (λ cd acc, cd.1 +:+ " " +:+ cd.2 +:+ ", " +:+ acc) "" cols.

Definition table_sql (name : string) (t : Table) : string :=
  "CREATE TABLE " +:+ name +:+ " (" +:+ cols_sql (tbl_cols t)
    +:+ tbl_constraint t +:+ ")".

(** [a = b] in a WHERE clause: never true on NULL. *)
Definition sql_eq (a b : sqlval) : bool :=
  match a with
  | SqlNull => false
  | _ => bool_decide (a = b)
  end.

(** Two rows collide on a uniqueness constraint when all its columns are
    equal and not NULL. *)
Definition conflicts (key : list string) (new old : Row) : bool :=
  forallb (λ k, sql_eq (cell new k) (cell old k)) key.

Inductive on_conflict := OrIgnore | OrReplace.

Definition insert_row (mode : on_conflict) (new : Row) (t : Table) : Table :=
  match mode with
  | OrIgnore =>
      if existsb (conflicts (tbl_key t) new) (tbl_rows t) then t
      else {| tbl_cols := tbl_cols t; tbl_constraint := tbl_constraint t;
              tbl_key := tbl_key t; tbl_rows := tbl_rows t ++ [new] |}
  | OrReplace =>
      {| tbl_cols := tbl_cols t; tbl_constraint := tbl_constraint t;
         tbl_key := tbl_key t;
         tbl_rows := filter (λ r, conflicts (tbl_key t) new r = false) (tbl_rows t)
                       ++ [new] |}
  end.

(** [INSERT ... INTO t (c1, ..., cn) VALUES (...)]: every named column must
    exist. *)
Definition insert_named (mode : on_conflict) (vals : list (string * sqlval))
    (t : Table) : result Table :=
  if forallb (has_column t) vals.*1
  then Ok (insert_row mode (list_to_map vals) t)
  else Raise (OperationalError "no such column").

(** [INSERT ... INTO t VALUES (...)]: one value per column of the table. *)
Definition insert_values (mode : on_conflict) (vals : list sqlval)
    (t : Table) : result Table :=
  if decide (length vals = length (tbl_cols t))
  then Ok (insert_row mode (list_to_map (zip (col_names t) vals)) t)
  else Raise (OperationalError "wrong number of values").

Definition on_table (name : string) (f : Table → result Table) (db : Db)
    : result Db :=
  match db !! name with
  | None => Raise (OperationalError "no such table")
  | Some t => try! t' := f t in Ok (<[name := t']> db)
  end.

(** [CREATE TABLE IF NOT EXISTS]. *)
Definition create_if_absent (name : string) (t : Table) (db : Db) : Db :=
  match db !! name with
  | Some _ => db
  | None => <[name := t]> db
  end.

(** [ALTER TABLE t ADD COLUMN c decl]: existing rows read the default. *)
Definition add_column (c decl : string) (dflt : sqlval) (t : Table) : Table :=
  {| tbl_cols := tbl_cols t ++ [(c, decl)];
     tbl_constraint := tbl_constraint t;
     tbl_key := tbl_key t;
     tbl_rows := (λ r : Row, <[c := dflt]> r) <$> tbl_rows t |}.

(** [UPDATE t SET c = v WHERE id = ? AND entity_id = ?]. *)
Definition update_where_key (c : string) (v : sqlval) (id eid : sqlval)
    (t : Table) : Table :=
  {| tbl_cols := tbl_cols t;
     tbl_constraint := tbl_constraint t;
     tbl_key := tbl_key t;
     tbl_rows := (λ r : Row,
                    if sql_eq (cell r "id") id && sql_eq (cell r "entity_id") eid
                    then <[c := v]> r else r) <$> tbl_rows t |}.

Definition messages_cols : list (string * string) :=
  [("id", "INTEGER"); ("entity_id", "INTEGER"); ("date", "TEXT");
   ("text", "TEXT"); ("media_type", "TEXT"); ("media_file", "TEXT");
   ("media_hash", "TEXT"); ("forwarded", "TEXT"); ("from_id", "TEXT");
   ("views", "INTEGER"); ("sender_name", "TEXT");
   ("reply_to_msg_id", "INTEGER"); ("reactions", "TEXT");
   ("web_preview", "TEXT"); ("extraction_time", "TEXT");
   ("is_service_message", "BOOLEAN"); ("is_voice_message", "BOOLEAN");
   ("is_pinned", "BOOLEAN"); ("user_id", "TEXT")].

Definition messages_table : Table :=
  {| tbl_cols := messages_cols;
     tbl_constraint := "PRIMARY KEY (id, entity_id)";
     tbl_key := ["id"; "entity_id"];
     tbl_rows := [] |}.

Definition buttons_table : Table :=
  {| tbl_cols := [("message_id", "INTEGER"); ("entity_id", "INTEGER");
                  ("row", "INTEGER"); ("column", "INTEGER"); ("text", "TEXT");
                  ("data", "TEXT"); ("url", "TEXT")];
     tbl_constraint := "UNIQUE(message_id, entity_id, row, column)";
     tbl_key := ["message_id"; "entity_id"; "row"; "column"];
     tbl_rows := [] |}.

Definition replies_table : Table :=
  {| tbl_cols := [("message_id", "INTEGER"); ("entity_id", "INTEGER");
                  ("reply_to_msg_id", "INTEGER"); ("quote_text", "TEXT")];
     tbl_constraint := "UNIQUE(message_id, entity_id)";
     tbl_key := ["message_id"; "entity_id"];
     tbl_rows := [] |}.

Definition reactions_table : Table :=
  {| tbl_cols := [("message_id", "INTEGER"); ("entity_id", "INTEGER");
                  ("emoji", "TEXT"); ("count", "INTEGER")];
     tbl_constraint := "UNIQUE(message_id, entity_id, emoji)";
     tbl_key := ["message_id"; "entity_id"; "emoji"];
     tbl_rows := [] |}.

Definition create_tables (db : Db) : Db :=
  create_if_absent "reactions" reactions_table
    (create_if_absent "replies" replies_table
       (create_if_absent "buttons" buttons_table
          (create_if_absent "messages" messages_table db))).

Definition opt_text (o : option string) : sqlval :=
  match o with Some s => SqlText s | None => SqlNull end.

Definition opt_int (o : option Z) : sqlval :=
  match o with Some z => SqlInt z | None => SqlNull end.

(** [str(x) if x else None]. *)
Definition truthy_text (o : option string) : sqlval :=
  if Str.truthy o then opt_text o else SqlNull.

Definition sql_bool (b : bool) : sqlval := SqlInt (if b then 1 else 0).

Definition text_of (v : sqlval) : option string :=
  match v with SqlText s => Some s | _ => None end.

(** [SELECT MAX(id) FROM messages WHERE entity_id = ?], NULL on no row. *)
Definition max_id (t : Table) (entity_id : sqlval) : option Z :=
  foldr (λ (r : Row) acc,
           if sql_eq (cell r "entity_id") entity_id
           then match cell r "id", acc with
                | SqlInt i, Some a => Some (Z.max i a)
                | SqlInt i, None => Some i
                | _, _ => acc
                end
           else acc) None (tbl_rows t).

(** ** Objects delivered by the transport client *)

(** What [client.get_entity] or [message.sender] hands back: a user carries
    [first_name] and [last_name], a channel or group carries [title]. *)
Inductive EntityRef :=
  | RefId (id : Z)
  | RefPeer (peer : Z).

Inductive Entity :=
  | EntUser (first_name last_name : option string)
  | EntTitled (title : option string)
  | EntOther.

Inductive Action :=
  | MessageActionChatAddUser (users : list Z)
  | MessageActionChatDeleteUser (user_id : Z)
  | MessageActionChatJoinedByLink
  | MessageActionChannelCreate (title : option string)
  | MessageActionChatCreate (title : option string)
  | MessageActionGroupCall (duration : option Z)
  | MessageActionChatEditTitle (title : option string)
  | MessageActionOther (kind : string).

Inductive Reaction :=
  | ReactionEmoji (emoticon : string)
  | ReactionCustomEmoji (document_id : Z)
  | ReactionLegacy (emoji : string)
  | ReactionNestedStr (reaction : string)
  | ReactionNested (reaction : Reaction)
  | ReactionStr (s : string)
  | ReactionOpaque (repr : option string).

Record ReactionCount := {
  rc_reaction : Reaction;
  rc_count : Z
}.

(** [btn_data] and [btn_url] hold the printed form [str(...)] of the
    attribute, [None] when the attribute is [None]. *)
Record Button := {
  btn_text : string;
  btn_data : option string;
  btn_url : option string
}.

Record Anchor := {
  a_text : string;
  a_href : option string
}.

Record WebPage := {
  wp_title : option string;
  wp_description : option string;
  wp_url : option string;
  wp_site_name : option string;
  wp_image : option string;
  wp_has_photo : bool
}.

Record DocAttr := {
  attr_tag : option string;
  attr_voice : bool
}.

(** [media_download] is what [message.download_media] does when called:
    it raises, returns nothing, or writes a file and returns its path (given
    here with the MD5 digest of the bytes written). *)
Record Media := {
  media_tag : string;
  media_attributes : option (list DocAttr);
  media_webpage : option WebPage;
  media_download : result (option (string * string))
}.

(** [fwd_channel_id] is [None] when the forward header has no such
    attribute, [Some None] when the attribute holds [None]. *)
Record FwdFrom := {
  fwd_repr : string;
  fwd_from_name : option string;
  fwd_channel_id : option (option Z)
}.

Record Message := {
  m_id : Z;
  m_date : string;
  m_message : option string;
  m_pinned : option bool;
  m_action : option Action;
  m_web_preview : option WebPage;
  m_media : option Media;
  m_fwd_from : option FwdFrom;
  m_from_id : string;
  m_views : option Z;
  m_sender : option Entity;
  m_peer_id : option Z;
  m_reply_to_msg_id : option Z;
  m_quote_text : option string;
  m_reactions : option (list ReactionCount);
  m_buttons : option (list (list Button))
}.

(** The message stream of [client.iter_messages]: messages newest first; a
    [Fault] is an exception raised by the iterator in place of the next
    message.  What is listed after a fault is what the service still holds. *)
Inductive Event :=
  | Item (m : Message)
  | Fault (e : exn).

(** Lines printed by the error handlers. *)
Inductive LogEvent :=
  | LogUserLookup (user_id : Z) (e : exn)
  | LogReaction (e : exn)
  | LogChannelName (e : exn)
  | LogSender (id : Z) (e : exn)
  | LogDownload (id : Z) (e : exn)
  | LogFloodWait (seconds : Z)
  | LogCannotAccess
  | LogNotAccessible
  | LogNoDatabase
  | LogBadStructure
  | LogSchemaUpdate (column : string)
  | LogUpdateError (e : exn)
  | LogHtmlGenerated.

(** ** Media dedup *)

Definition get_file_hash (files : gmap string string) (file_path : string)
    : option string :=
  files !! file_path.

Definition path_exists (files : gmap string string) (p : string) : bool :=
  bool_decide (is_Some (files !! p)).

Definition select_media (t : Table) (entity_id : sqlval) (message_id : Z)
    (media_type : string) : list Row :=
  filter (λ r : Row,
            sql_eq (cell r "id") (SqlInt message_id)
            && sql_eq (cell r "entity_id") entity_id
            && sql_eq (cell r "media_type") (SqlText media_type) = true)
         (tbl_rows t).

Definition media_exists (files : gmap string string) (t : Table)
    (entity_id : sqlval) (message_id : Z) (media_type : string) : bool :=
  match head (select_media t entity_id message_id media_type) with
  | None => false
  | Some r =>
      match cell r "media_file" with
      | SqlText p => path_exists files p
      | _ => false
      end
  end.

(** [SELECT media_file, media_hash FROM messages WHERE id = ? AND
    entity_id = ?] followed by [fetchone]. *)
Definition select_media_file_hash (t : Table) (entity_id : sqlval)
    (message_id : Z) : option (sqlval * sqlval) :=
  (λ r : Row, (cell r "media_file", cell r "media_hash")) <$>
  head (filter (λ r : Row,
                  sql_eq (cell r "id") (SqlInt message_id)
                  && sql_eq (cell r "entity_id") entity_id = true)
               (tbl_rows t)).

(** ** Web preview *)

Record PreviewData := {
  pd_title : option string;
  pd_description : option string;
  pd_url : option string;
  pd_site_name : option string;
  pd_image_url : option string
}.

Definition preview_any (p : PreviewData) : bool :=
  Str.truthy (pd_title p) || Str.truthy (pd_description p)
  || Str.truthy (pd_url p) || Str.truthy (pd_site_name p)
  || Str.truthy (pd_image_url p).

(** ** Reactions *)

Fixpoint get_emoji_string (reaction : Reaction) : string * list LogEvent :=
  match reaction with
  | ReactionEmoji e => (e, [])
  | ReactionCustomEmoji d => ("CustomEmoji:" +:+ pretty d, [])
  | ReactionLegacy e => (e, [])
  | ReactionNestedStr s => (s, [])
  | ReactionNested r => get_emoji_string r
  | ReactionStr s => (s, [])
  | ReactionOpaque (Some s) => (s, [])
  | ReactionOpaque None => ("Unknown", [LogReaction TypeError])
  end.

(** ** The digest renderer *)

Inductive Month :=
  | January | February | March | April | May | June
  | July | August | September | October | November | December.

Record Date := {
  year : Z;
  month : Month;
  day : Z
}.

Definition month_name (m : Month) : string :=
  match m with
  | January => "January" | February => "February" | March => "March"
  | April => "April" | May => "May" | June => "June" | July => "July"
  | August => "August" | September => "September" | October => "October"
  | November => "November" | December => "December"
  end.

Definition digit_char (n : Z) : ascii := ascii_of_nat (48 + Z.to_nat n).

(** [%d]: the day of the month on two digits. *)
Definition two_digits (n : Z) : string :=
  String (digit_char (n / 10)) (String (digit_char (n mod 10)) "").

(** [strftime("%B %d, %Y")]. *)
Definition strftime (d : Date) : string :=
  month_name (month d) +:+ " " +:+ two_digits (day d) +:+ ", " +:+ pretty (year d).

Definition valid_date (d : Date) : Prop := 1 ≤ day d ≤ 31.

(** Order of SQLite values: NULL, then numbers, then text by bytes. *)
Definition sql_le (a b : sqlval) : bool :=
  match a, b with
  | SqlNull, _ => true
  | SqlInt _, SqlNull => false
  | SqlInt x, SqlInt y => x <=? y
  | SqlInt _, SqlText _ => true
  | SqlText _, (SqlNull | SqlInt _) => false
  | SqlText x, SqlText y => String.leb x y
  end.

(** [a || b] in SQL. *)
Definition sql_concat (a b : sqlval) : sqlval :=
  match a, b with
  | SqlNull, _ | _, SqlNull => SqlNull
  | SqlText x, SqlText y => SqlText (x +:+ y)
  | SqlText x, SqlInt y => SqlText (x +:+ pretty y)
  | SqlInt x, SqlText y => SqlText (pretty x +:+ y)
  | SqlInt x, SqlInt y => SqlText (pretty x +:+ pretty y)
  end.

Definition group_concat (sep : string) (vals : list sqlval) : sqlval :=
  match omap text_of vals with
  | [] => SqlNull
  | x :: xs => SqlText (foldl (λ acc y, acc +:+ sep +:+ y) x xs)
  end.

(** One tuple of the digest query: the message columns and the two
    aggregated columns. *)
Record DigestRow := {
  dg_msg : Row;
  dg_buttons : sqlval;
  dg_reactions : sqlval
}.

Definition date_desc (a b : DigestRow) : Prop :=
  sql_le (cell (dg_msg b) "date") (cell (dg_msg a) "date") = true.

#[global] Instance date_desc_dec a b : Decision (date_desc a b).
Proof. unfold date_desc. apply _. Defined.

(** The rows of a LEFT JOIN for one message: every matching row, or one
    all-NULL row when none matches. *)
Definition left_join (m : Row) (t : Table) : list Row :=
  match filter (λ r : Row,
                  sql_eq (cell m "id") (cell r "message_id")
                  && sql_eq (cell m "entity_id") (cell r "entity_id") = true)
               (tbl_rows t) with
  | [] => [∅]
  | rs => rs
  end.

Definition digest_row (buttons reactions : Table) (m : Row) : DigestRow :=
  let joined := b ← left_join m buttons; r ← left_join m reactions; [(b, r)] in
  {| dg_msg := m;
     dg_buttons :=
       group_concat "|"
         ((λ br : Row * Row,
             sql_concat (sql_concat (cell br.1 "text") (SqlText ","))
                        (cell br.1 "url")) <$> joined);
     dg_reactions :=
       group_concat ","
         ((λ br : Row * Row,
             sql_concat (sql_concat (cell br.2 "emoji") (SqlText ":"))
                        (cell br.2 "count")) <$> joined) |}.

Definition entity_filter (entity_id : option sqlval) (r : Row) : bool :=
  match entity_id with
  | Some e => sql_eq (cell r "entity_id") e
  | None => true
  end.

(** The digest query.  The primary key makes every message row a group of
    its own; rows of equal date keep their table order. *)
Definition select_digest (db : Db) (entity_id : option sqlval)
    : result (list DigestRow) :=
  match db !! "messages", db !! "buttons", db !! "reactions" with
  | Some ms, Some bs, Some rs =>
      Ok (merge_sort date_desc
            (digest_row bs rs <$>
               filter (λ r : Row, entity_filter entity_id r = true)
                      (tbl_rows ms)))
  | _, _, _ => Raise (OperationalError "no such table")
  end.

(** [date_groups[day_str].append(message)] on an insertion-ordered dict. *)
Fixpoint add_to_group (k : string) (x : DigestRow)
    (groups : list (string * list DigestRow)) : list (string * list DigestRow) :=
  match groups with
  | [] => [(k, [x])]
  | (k', xs) :: g =>
      if decide (k = k') then (k', xs ++ [x]) :: g
      else (k', xs) :: add_to_group k x g
  end.

Section Digest.

(** [datetime.fromisoformat]: the calendar date of the parsed timestamp,
    nothing when it raises [ValueError]; and [os.path.relpath] against the
    archive root. *)
Variable fromisoformat : string → option Date.
Variable relpath : string → string.

(** The [media_file] and [date] cells are read as the passes write them:
    text or NULL. *)
Definition relative_media (x : DigestRow) : DigestRow :=
  match cell (dg_msg x) "media_file" with
  | SqlText (String c p) =>
      {| dg_msg := <["media_file" := SqlText (relpath (String c p))]> (dg_msg x);
         dg_buttons := dg_buttons x;
         dg_reactions := dg_reactions x |}
  | _ => x
  end.

(** The label of the day-group of a message in the digest of one entity. *)
Definition day_str (x : DigestRow) : string :=
  match cell (dg_msg x) "date" with
  | SqlText date_str =>
      if Str.has_char "T" date_str then
        match fromisoformat date_str with
        | Some d => strftime d
        | None => Str.before_char "T" date_str
        end
      else "Unknown Date"
  | _ => "Unknown Date"
  end.

Definition raw_day_str (x : DigestRow) : string :=
  match cell (dg_msg x) "date" with
  | SqlText date_str =>
      if Str.has_char "T" date_str then Str.before_char "T" date_str
      else "Unknown Date"
  | _ => "Unknown Date"
  end.

Definition group_by_day (messages : list DigestRow)
    : list (string * list DigestRow) :=
  foldl (λ groups x, add_to_group (day_str x) x groups) [] messages.

(** [grouped_messages] as handed to the template. *)
Definition generate_html (db : Db) (entity_id : option sqlval)
    : result (list (string * list DigestRow)) :=
  try! messages := select_digest db entity_id in
  Ok (match entity_id with
      | Some _ => group_by_day (relative_media <$> messages)
      | None => (λ x, (raw_day_str x, [x])) <$> (relative_media <$> messages)
      end).

End Digest.

(** ** The connection monad

    A computation runs against an open connection: the database with the
    pending transaction, the media files on disk and the lines printed so
    far.  An exception leaves the state where it was raised. *)

Record Conn := {
  c_db : Db;
  c_files : gmap string string;
  c_log : list LogEvent
}.

Definition M (A : Type) : Type := Conn → Conn * result A.

Definition ret {A} (a : A) : M A := λ c, (c, Ok a).

Definition bind {A B} (m : M A) (k : A → M B) : M B :=
  λ c, match m c with
       | (c', Ok a) => k a c'
       | (c', Raise e) => (c', Raise e)
       end.

Definition raise {A} (e : exn) : M A := λ c, (c, Raise e).

Notation "x <- m ;; k" := (bind m (λ x, k))
  (at level 100, m at next level, right associativity).
Notation "'run' m ;; k" := (bind m (λ _, k))
  (at level 100, m at next level, k at level 100, right associativity).

Definition lift {A} (r : result A) : M A := λ c, (c, r).

Definition print (l : LogEvent) : M unit :=
  λ c, ({| c_db := c_db c; c_files := c_files c; c_log := c_log c ++ [l] |}, Ok ()).

Definition prints (ls : list LogEvent) : M unit :=
  λ c, ({| c_db := c_db c; c_files := c_files c; c_log := c_log c ++ ls |}, Ok ()).

(** [cursor.execute] of a statement that changes the database. *)
Definition execute (stmt : Db → result Db) : M unit :=
  λ c, match stmt (c_db c) with
       | Ok db' => ({| c_db := db'; c_files := c_files c; c_log := c_log c |}, Ok ())
       | Raise e => (c, Raise e)
       end.

(** [cursor.execute] of a SELECT on one table. *)
Definition select {A} (name : string) (q : Conn → Table → A) : M A :=
  λ c, match c_db c !! name with
       | Some t => (c, Ok (q c t))
       | None => (c, Raise (OperationalError "no such table"))
       end.

(** Reading the state of the world without changing it. *)
Definition query {A} (f : Conn → A) : M A := λ c, (c, Ok (f c)).

Definition write_file (path digest : string) : M unit :=
  λ c, ({| c_db := c_db c; c_files := <[path := digest]> (c_files c);
           c_log := c_log c |}, Ok ()).

(** [int(v)] of a value read back from the store. *)
Definition int_of (v : sqlval) : result Z :=
  match v with
  | SqlInt z => Ok z
  | SqlNull => Raise TypeError
  | SqlText _ => Raise (ClientError "ValueError")
  end.

Definition join (sep : string) (l : list string) : string :=
  match l with
  | [] => ""
  | x :: xs => foldl (λ acc y, acc +:+ sep +:+ y) x xs
  end.

Definition nonempty (s : string) : bool :=
  match s with "" => false | _ => true end.

Inductive pass := Backfill | Update.

(** ** The message normaliser *)

Section Normalizer.

(** The collaborators: [client.get_entity], BeautifulSoup's
    [find_all('a')] on a text, and [json.dumps] on the two shapes the
    program serialises. *)
Variable get_entity : EntityRef → result Entity.
Variable find_all_a : string → list Anchor.
Variable json_dumps_preview : PreviewData → string.
Variable json_dumps_reactions : list (string * Z) → string.

(** [first_name], followed by a space and [last_name] when that is set. *)
Definition full_name (first_name : string) (last_name : option string) : string :=
  if Str.truthy last_name then first_name +:+ " " +:+ default "" last_name
  else first_name.

Definition user_fallback (user_id : Z) : string := "User " +:+ pretty user_id.

(** The name of a member added to or removed from a group. *)
Definition member_name (user_id : Z) : M string :=
  match get_entity (RefId user_id) with
  | Ok (EntUser (Some (String c f)) last_name) =>
      ret (full_name (String c f) last_name)
  | Ok _ => ret (user_fallback user_id)
  | Raise e =>
      run print (LogUserLookup user_id e) ;;
      ret (user_fallback user_id)
  end.

Fixpoint member_names (user_ids : list Z) : M (list string) :=
  match user_ids with
  | [] => ret []
  | u :: us =>
      name <- member_name u ;;
      names <- member_names us ;;
      ret (name :: names)
  end.

(** The sender named by a joined-via-link service message. *)
Definition joined_name (sender : option Entity) : string :=
  match sender with
  | Some (EntUser first_name last_name) =>
      if Str.truthy last_name then
        match first_name with
        | Some f => f +:+ " " +:+ default "" last_name
        | None => "Someone"
        end
      else Str.fmt first_name
  | Some _ => "Someone"
  | None => "Someone"
  end.

Definition service_body (m : Message) (a : Action) : M string :=
  match a with
  | MessageActionChatAddUser users =>
      names <- member_names users ;;
      ret (join ", " (filter (λ n, nonempty n = true) names) +:+ " joined the group")
  | MessageActionChatDeleteUser user_id =>
      name <- member_name user_id ;;
      ret (name +:+ " left the group")
  | MessageActionChatJoinedByLink =>
      ret (joined_name (m_sender m) +:+ " joined the group via invite link")
  | MessageActionChannelCreate title =>
      ret ("Channel " +:+ default "this channel" title +:+ " created")
  | MessageActionChatCreate title =>
      ret ("Group " +:+ default "this group" title +:+ " created")
  | MessageActionGroupCall duration =>
      ret (match duration with
           | Some d => if decide (d = 0) then "Group call started" else "Group call ended"
           | None => "Group call started"
           end)
  | MessageActionChatEditTitle title =>
      ret ("Group name changed to: " +:+ default "" title)
  | MessageActionOther kind =>
      ret ("Service message: " +:+ kind)
  end.

(** [text] and [is_service_message]. *)
Definition classify (m : Message) : M (option string * bool) :=
  match m_action m with
  | Some a =>
      body <- service_body m a ;;
      ret (Some ("<service>" +:+ body +:+ "</service>"), true)
  | None => ret (m_message m, false)
  end.

Definition get_web_preview_data (m : Message) : option string :=
  let preview_data :=
    match m_web_preview m with
    | Some wp =>
        {| pd_title := wp_title wp; pd_description := wp_description wp;
           pd_url := wp_url wp; pd_site_name := wp_site_name wp;
           pd_image_url := wp_image wp |}
    | None =>
        match m_media m ≫= media_webpage with
        | Some wp =>
            {| pd_title := wp_title wp; pd_description := wp_description wp;
               pd_url := wp_url wp; pd_site_name := wp_site_name wp;
               pd_image_url := if wp_has_photo wp then Some "web_preview_photo"
                               else None |}
        | None =>
            {| pd_title := None; pd_description := None; pd_url := None;
               pd_site_name := None; pd_image_url := None |}
        end
    end in
  if preview_any preview_data then Some (json_dumps_preview preview_data)
  else None.

Definition is_voice (md : Media) : bool :=
  bool_decide (media_tag md = "MessageMediaDocument")
  && match media_attributes md with
     | Some attrs =>
         existsb (λ a, bool_decide (attr_tag a = Some "DocumentAttributeAudio")
                       && attr_voice a) attrs
     | None => false
     end.

(** The media step: [(media_type, media_file, media_hash, is_voice_message)].
    Only the backfill pass reads a recorded path and hash back. *)
Definition fetch_media (p : pass) (download_media : bool) (entity_id : sqlval)
    (m : Message) : M (sqlval * sqlval * sqlval * bool) :=
  match m_media m with
  | None => ret (SqlNull, SqlNull, SqlNull, false)
  | Some md =>
      let media_type := media_tag md in
      if download_media then
        present <- select "messages"
                     (λ c t, media_exists (c_files c) t entity_id (m_id m) media_type) ;;
        if negb present then
          match media_download md with
          | Ok (Some (path, digest)) =>
              run write_file path digest ;;
              media_hash <- query (λ c, if nonempty path
                                        then opt_text (get_file_hash (c_files c) path)
                                        else SqlNull) ;;
              ret (SqlText media_type, SqlText path, media_hash, is_voice md)
          | Ok None => ret (SqlText media_type, SqlNull, SqlNull, is_voice md)
          | Raise e =>
              run print (LogDownload (m_id m) e) ;;
              ret (SqlText media_type, SqlNull, SqlNull, is_voice md)
          end
        else
          match p with
          | Backfill =>
              recorded <- select "messages"
                            (λ _ t, select_media_file_hash t entity_id (m_id m)) ;;
              match recorded with
              | Some (media_file, media_hash) =>
                  ret (SqlText media_type, media_file, media_hash, is_voice md)
              | None => ret (SqlText media_type, SqlNull, SqlNull, is_voice md)
              end
          | Update => ret (SqlText media_type, SqlNull, SqlNull, is_voice md)
          end
      else ret (SqlText media_type, SqlNull, SqlNull, is_voice md)
  end.

Definition get_channel_name_from_message (m : Message) : M (option string) :=
  match m_peer_id m with
  | Some peer =>
      match get_entity (RefPeer peer) with
      | Ok (EntTitled title) => ret title
      | Ok _ => ret None
      | Raise e => run print (LogChannelName e) ;; ret None
      end
  | None => ret None
  end.

Definition own_sender_name (m : Message) : option string :=
  match m_sender m with
  | Some (EntUser (Some (String c f)) last_name) =>
      Some (full_name (String c f) last_name)
  | Some (EntTitled title) => title
  | _ => None
  end.

Definition resolve_sender_name (m : Message) : M (option string) :=
  let sender_name := own_sender_name m in
  if Str.truthy sender_name then ret sender_name
  else
    channel_name <- get_channel_name_from_message m ;;
    if Str.truthy channel_name then ret channel_name
    else
      match m_fwd_from m with
      | None => ret sender_name
      | Some fwd =>
          if Str.truthy (fwd_from_name fwd) then ret (fwd_from_name fwd)
          else
            match fwd_channel_id fwd with
            | None => run print (LogSender (m_id m) AttributeError) ;; ret sender_name
            | Some None => ret sender_name
            | Some (Some channel_id) =>
                if decide (channel_id = 0) then ret sender_name
                else
                  match get_entity (RefId channel_id) with
                  | Ok (EntTitled title) =>
                      ret (Some (Str.fmt title +:+ " (forwarded)"))
                  | Ok _ => ret sender_name
                  | Raise _ => ret sender_name
                  end
            end
      end.

Definition insert_into (name : string) (mode : on_conflict)
    (vals : list sqlval) : M unit :=
  execute (on_table name (insert_values mode vals)).

(** The reaction loop: resolve, record, store, one entry at a time. *)
Fixpoint store_reactions (entity_id : sqlval) (id : Z)
    (results : list ReactionCount) : M (list (string * Z)) :=
  match results with
  | [] => ret []
  | r :: rest =>
      let '(emoji, lines) := get_emoji_string (rc_reaction r) in
      run prints lines ;;
      eid <- lift (int_of entity_id) ;;
      run insert_into "reactions" OrIgnore
            [SqlInt id; SqlInt eid; SqlText emoji; SqlInt (rc_count r)] ;;
      reactions_list <- store_reactions entity_id id rest ;;
      ret ((emoji, rc_count r) :: reactions_list)
  end.

Definition reaction_summary (entity_id : sqlval) (m : Message) : M sqlval :=
  match m_reactions m with
  | Some results =>
      reactions_list <- store_reactions entity_id (m_id m) results ;;
      ret (SqlText (json_dumps_reactions reactions_list))
  | None => ret SqlNull
  end.

Definition reply_target (m : Message) : option Z :=
  match m_reply_to_msg_id m with
  | Some z => if decide (z = 0) then None else Some z
  | None => None
  end.

(** The values bound to the nineteen named columns of the message INSERT. *)
Definition message_values (eid : Z) (extraction_time : string) (m : Message)
    (text : option string) (is_service : bool)
    (media : sqlval * sqlval * sqlval * bool) (sender_name : option string)
    (reactions_json : sqlval) : list (string * sqlval) :=
  [("id", SqlInt (m_id m)); ("entity_id", SqlInt eid);
   ("date", SqlText (m_date m)); ("text", opt_text text);
   ("media_type", media.1.1.1); ("media_file", media.1.1.2);
   ("media_hash", media.1.2);
   ("forwarded", opt_text (fwd_repr <$> m_fwd_from m));
   ("from_id", SqlText (m_from_id m));
   ("views", SqlInt (default 0 (m_views m)));
   ("sender_name", opt_text sender_name);
   ("reply_to_msg_id", opt_int (reply_target m));
   ("reactions", reactions_json);
   ("web_preview", opt_text (get_web_preview_data m));
   ("extraction_time", SqlText extraction_time);
   ("is_service_message", sql_bool is_service);
   ("is_voice_message", sql_bool media.2);
   ("is_pinned", match m_pinned m with
                 | Some b => sql_bool b
                 | None => SqlNull
                 end);
   ("user_id", opt_text (extract_user_id (Some (m_from_id m))))].

Fixpoint store_button_row (eid id : Z) (i : Z) (j : Z) (buttons : list Button)
    : M unit :=
  match buttons with
  | [] => ret ()
  | b :: rest =>
      run insert_into "buttons" OrIgnore
            [SqlInt id; SqlInt eid; SqlInt i; SqlInt j; SqlText (btn_text b);
             truthy_text (btn_data b); truthy_text (btn_url b)] ;;
      store_button_row eid id i (j + 1) rest
  end.

Fixpoint store_buttons (eid id : Z) (i : Z) (rows : list (list Button)) : M unit :=
  match rows with
  | [] => ret ()
  | row :: rest =>
      run store_button_row eid id i 0 row ;;
      store_buttons eid id (i + 1) rest
  end.

(** Hyperlink harvesting: every anchor goes to row 0, column 0. *)
Fixpoint store_links (eid id : Z) (links : list Anchor) : M unit :=
  match links with
  | [] => ret ()
  | link :: rest =>
      match a_href link with
      | Some href =>
          run insert_into "buttons" OrIgnore
                [SqlInt id; SqlInt eid; SqlInt 0; SqlInt 0;
                 SqlText (a_text link); SqlNull; SqlText href] ;;
          store_links eid id rest
      | None => raise (KeyError "href")
      end
  end.

(** The body of the message loop, up to [conn.commit()]. *)
Definition process_message (p : pass) (download_media : bool)
    (entity_id : sqlval) (extraction_time : string) (m : Message) : M unit :=
  classified <- classify m ;;
  let '(text, is_service_message) := classified in
  media <- fetch_media p download_media entity_id m ;;
  sender_name <- resolve_sender_name m ;;
  reactions_json <- reaction_summary entity_id m ;;
  eid <- lift (int_of entity_id) ;;
  run execute (on_table "messages"
                 (insert_named OrIgnore
                    (message_values eid extraction_time m text is_service_message
                       media sender_name reactions_json))) ;;
  run match reply_target m with
      | Some reply_to_msg_id =>
          insert_into "replies"
            (match p with Backfill => OrIgnore | Update => OrReplace end)
            [SqlInt (m_id m); SqlInt eid; SqlInt reply_to_msg_id;
             opt_text (m_quote_text m)]
      | None => ret ()
      end ;;
  run match m_buttons m with
      | Some rows => store_buttons eid (m_id m) 0 rows
      | None => ret ()
      end ;;
  if Str.truthy text && negb is_service_message
  then store_links eid (m_id m) (find_all_a (default "" text))
  else ret ().

End Normalizer.

(** ** Schema migration of the update pass *)

Definition from_id_str (v : sqlval) : option string :=
  match v with
  | SqlText s => Some s
  | SqlInt z => Some (pretty z)
  | SqlNull => None
  end.

(** The backfill loop over the rows fetched by
    [SELECT id, entity_id, from_id FROM messages]. *)
Definition backfill_user_id (fetched : list Row) (t : Table) : Table :=
  foldl (λ acc (row : Row),
           match extract_user_id (from_id_str (cell row "from_id")) with
           | Some user_id =>
               update_where_key "user_id" (SqlText user_id)
                 (cell row "id") (cell row "entity_id") acc
           | None => acc
           end) t fetched.

Definition add_flag (table_schema column : string) (t : Table) : Table :=
  if Str.contains column table_schema then t
  else add_column column "BOOLEAN DEFAULT 0" (SqlInt 0) t.

Definition migrate_messages (t : Table) : Table :=
  let table_schema := table_sql "messages" t in
  let t := add_flag table_schema "is_service_message" t in
  let t := add_flag table_schema "is_voice_message" t in
  let t := add_flag table_schema "is_pinned" t in
  if Str.contains "user_id" table_schema then t
  else
    let t := add_column "user_id" "TEXT" SqlNull t in
    backfill_user_id (tbl_rows t) t.

Definition migration_log (t : Table) : list LogEvent :=
  let table_schema := table_sql "messages" t in
  (λ c, LogSchemaUpdate c) <$>
  filter (λ c, Str.contains c table_schema = false)
         ["is_service_message"; "is_voice_message"; "is_pinned"; "user_id"].

(** The loop of the user-id backfill rebinds the name [entity_id] to the
    value read from each row; after it the name holds the value of the last
    row fetched. *)
Definition entity_id_after_migration (t : Table) (entity_id : sqlval) : sqlval :=
  if Str.contains "user_id" (table_sql "messages" t) then entity_id
  else
    match last (tbl_rows t) with
    | Some row => cell row "entity_id"
    | None => entity_id
    end.

Definition migrate_replies (db : Db) : Db :=
  match db !! "replies" with
  | Some rt =>
      if Str.contains "quote_text" (table_sql "replies" rt) then db
      else <["replies" := add_column "quote_text" "TEXT" SqlNull rt]> db
  | None => <["replies" := replies_table]> db
  end.

Definition replies_log (db : Db) : list LogEvent :=
  match db !! "replies" with
  | Some rt =>
      if Str.contains "quote_text" (table_sql "replies" rt) then []
      else [LogSchemaUpdate "quote_text"]
  | None => []
  end.

(** ** The sync controller *)

(** [client.iter_messages(entity, limit=limit)]. *)
Fixpoint iter_messages (stream : list Event) (limit : option nat) : list Event :=
  match stream, limit with
  | [], _ => []
  | _, Some O => []
  | Fault e :: rest, _ => Fault e :: rest
  | Item m :: rest, Some (S n) => Item m :: iter_messages rest (Some n)
  | Item m :: rest, None => Item m :: iter_messages rest None
  end.

(** Leaving the loop on an exception drops the pending transaction. *)
Definition rollback (committed : Conn) (c : Conn) : Conn :=
  {| c_db := c_db committed; c_files := c_files c; c_log := c_log c |}.

(** The message loop.  [last_msg_id] is the cursor of the update pass, the
    backfill pass has none.  The result says how the loop was left: normally,
    or on an exception. *)
Fixpoint message_loop (body : Message → M unit) (last_msg_id : option Z)
    (stream : list Event) (c : Conn) : Conn * option exn :=
  match stream with
  | [] => (c, None)
  | Fault e :: _ => (c, Some e)
  | Item m :: rest =>
      if match last_msg_id with
         | Some cursor => bool_decide (m_id m ≤ cursor)
         | None => false
         end
      then (c, None)
      else
        match body m c with
        | (c', Ok _) => message_loop body last_msg_id rest c'
        | (c', Raise e) => (rollback c c', Some e)
        end
  end.

Record World := {
  w_store : option Db;
  w_files : gmap string string;
  w_log : list LogEvent;
  w_slept : Z;
  w_html : option (list (string * list DigestRow))
}.

Section Sync.

Variable get_entity : EntityRef → result Entity.
Variable find_all_a : string → list Anchor.
Variable json_dumps_preview : PreviewData → string.
Variable json_dumps_reactions : list (string * Z) → string.
Variable fromisoformat : string → option Date.
Variable relpath : string → string.

Definition body (p : pass) (download_media : bool) (entity_id : sqlval)
    (extraction_time : string) : Message → M unit :=
  process_message get_entity find_all_a json_dumps_preview json_dumps_reactions
    p download_media entity_id extraction_time.

(** The tail of both passes: the connection is closed and the digest is
    rendered from the store as committed. *)
Definition render (c : Conn) (slept : Z) (entity_id : option sqlval)
    : World * option exn :=
  match generate_html fromisoformat relpath (c_db c) entity_id with
  | Ok grouped_messages =>
      ({| w_store := Some (c_db c); w_files := c_files c;
          w_log := c_log c ++ [LogHtmlGenerated]; w_slept := slept;
          w_html := Some grouped_messages |}, None)
  | Raise e =>
      ({| w_store := Some (c_db c); w_files := c_files c; w_log := c_log c;
          w_slept := slept; w_html := None |}, Some e)
  end.

Definition add_log (l : LogEvent) (c : Conn) : Conn :=
  {| c_db := c_db c; c_files := c_files c; c_log := c_log c ++ [l] |}.

(** Backfill.  [forbidden] says that the entity is a [ChannelForbidden].
    The second component is the exception that escapes to the caller. *)
Definition process_entity (w : World) (entity_id : Z) (forbidden : bool)
    (stream : list Event) (limit : option nat) (download_media : bool)
    (extraction_time : string) : World * option exn :=
  if forbidden then
    ({| w_store := w_store w; w_files := w_files w;
        w_log := w_log w ++ [LogNotAccessible]; w_slept := w_slept w;
        w_html := w_html w |}, None)
  else
    let conn := {| c_db := create_tables (default ∅ (w_store w));
                   c_files := w_files w; c_log := w_log w |} in
    match message_loop (body Backfill download_media (SqlInt entity_id) extraction_time)
            None (iter_messages stream limit) conn with
    | (c, None) => render c (w_slept w) (Some (SqlInt entity_id))
    | (c, Some (FloodWaitError seconds)) =>
        render (add_log (LogFloodWait seconds) c) (w_slept w + seconds)
          (Some (SqlInt entity_id))
    | (c, Some ChannelPrivateError) =>
        render (add_log LogCannotAccess c) (w_slept w) (Some (SqlInt entity_id))
    | (c, Some e) =>
        ({| w_store := Some (c_db c); w_files := c_files c; w_log := c_log c;
            w_slept := w_slept w; w_html := w_html w |}, Some e)
    end.

Definition with_log (l : LogEvent) (w : World) : World :=
  {| w_store := w_store w; w_files := w_files w; w_log := w_log w ++ [l];
     w_slept := w_slept w; w_html := w_html w |}.

(** Update. *)
Definition update_entity (w : World) (entity_id : Z) (forbidden : bool)
    (stream : list Event) (download_media : bool) (extraction_time : string)
    : World * option exn :=
  match w_store w with
  | None =>
      process_entity (with_log LogNoDatabase w) entity_id forbidden stream None
        download_media extraction_time
  | Some db =>
      match db !! "messages" with
      | None =>
          process_entity (with_log LogBadStructure w) entity_id forbidden stream
            None download_media extraction_time
      | Some t =>
          let conn_db := migrate_replies (<["messages" := migrate_messages t]> db) in
          let entity_id := entity_id_after_migration t (SqlInt entity_id) in
          let last_msg_id := default 0 (max_id (migrate_messages t) entity_id) in
          let conn := {| c_db := conn_db; c_files := w_files w;
                         c_log := w_log w ++ migration_log t ++ replies_log db |} in
          let '(c, stop) :=
            message_loop (body Update download_media entity_id extraction_time)
              (Some last_msg_id) (iter_messages stream None) conn in
          render (match stop with
                  | Some e => add_log (LogUpdateError e) c
                  | None => c
                  end)
                 (w_slept w)
                 (match entity_id with SqlNull => None | v => Some v end)
      end
  end.

End Sync.

(** ** Vocabulary of the statements *)

Definition is_item (ev : Event) : Prop :=
  match ev with Item _ => True | Fault _ => False end.

Definition items (stream : list Event) : list Message :=
  omap (λ ev, match ev with Item m => Some m | Fault _ => None end) stream.

(** The shape of a table: everything but its rows. *)
Definition shape (t : Table) : list (string * string) * string * list string :=
  (tbl_cols t, tbl_constraint t, tbl_key t).

Definition same_shape (db db' : Db) : Prop :=
  ∀ name, shape <$> db' !! name = shape <$> db !! name.

(** A store on which every statement of the message loop is accepted. *)
Definition wf_db (db : Db) : Prop :=
  (∃ t, db !! "messages" = Some t ∧ tbl_key t = ["id"; "entity_id"]
        ∧ Forall (λ c, has_column t c = true) messages_cols.*1)
  ∧ (∃ t, db !! "reactions" = Some t ∧ List.length (tbl_cols t) = 4%nat)
  ∧ (∃ t, db !! "replies" = Some t ∧ List.length (tbl_cols t) = 4%nat)
  ∧ (∃ t, db !! "buttons" = Some t ∧ List.length (tbl_cols t) = 7%nat).

(** Exceptions other than the two stream-level signals. *)
Definition benign (e : exn) : Prop :=
  match e with
  | FloodWaitError _ | ChannelPrivateError => False
  | _ => True
  end.

(** A step of the loop body that leaves the messages table and every
    table shape alone and, under [P], cannot fail on a well-formed store. *)
Definition aux_step {A} (P : Prop) (m : M A) : Prop :=
  ∀ c, same_shape (c_db c) (c_db (m c).1)
       ∧ c_db (m c).1 !! "messages" = c_db c !! "messages"
       ∧ ∀ e, (m c).2 = Raise e → benign e ∧ (P → ¬ wf_db (c_db c)).

Definition has_href (a : Anchor) : Prop := is_Some (a_href a).

(** Every anchor found in the text of a plain message carries a target. *)
Definition links_ok (find_all_a : string → list Anchor) (m : Message) : Prop :=
  m_action m = None → Forall has_href (find_all_a (default "" (m_message m))).

Definition has_key (t : Table) (id eid : Z) : Prop :=
  ∃ r, r ∈ tbl_rows t ∧ cell r "id" = SqlInt id ∧ cell r "entity_id" = SqlInt eid.

Definition row_key (r : Row) : sqlval * sqlval := (cell r "id", cell r "entity_id").

Definition messages_of (w : World) : option Table :=
  w_store w ≫= (λ db : Db, db !! "messages").

(** No two rows of the table collide on its uniqueness constraint. *)
Definition unique_keys (t : Table) : Prop :=
  ∀ i j r1 r2, tbl_rows t !! i = Some r1 → tbl_rows t !! j = Some r2 →
               conflicts (tbl_key t) r1 r2 = true → i = j.

(** The messages table of the store, when there is one, carries the
    primary key the program declares. *)
Definition messages_keyed (w : World) : Prop :=
  ∀ t, messages_of w = Some t → tbl_key t = ["id"; "entity_id"].

(** A store with the four tables as the current code creates them. *)
Definition current_schema (db : Db) : Prop :=
  (∃ t, db !! "messages" = Some t ∧ shape t = shape messages_table)
  ∧ (∃ t, db !! "reactions" = Some t ∧ shape t = shape reactions_table)
  ∧ (∃ t, db !! "replies" = Some t ∧ shape t = shape replies_table)
  ∧ (∃ t, db !! "buttons" = Some t ∧ shape t = shape buttons_table).

(** Messages in the order the stream delivers them: strictly decreasing
    ids. *)
Definition newest_first (ms : list Message) : Prop :=
  StronglySorted (λ a b, m_id b < m_id a) ms.

(** A stored record for the key (entity, message, media type). *)
Definition prior_record (t : Table) (eid id : Z) (media_type : string) (r : Row) : Prop :=
  r ∈ tbl_rows t ∧ cell r "id" = SqlInt id ∧ cell r "entity_id" = SqlInt eid
  ∧ cell r "media_type" = SqlText media_type.

(** There is no store file, or the file has no messages table. *)
Definition lacks_messages (w : World) : Prop :=
  match w_store w with
  | None => True
  | Some db => db !! "messages" = None
  end.



Definition matches_at (key s pre d post : string) : Prop :=
  s = pre +:+ key +:+ d +:+ post
  ∧ Str.isdigit d = true
  ∧ Str.starts_with_digit post = false.



(** The columns the update pass may add. *)
Definition flag_columns : list string :=
  ["is_service_message"; "is_voice_message"; "is_pinned"].

Definition migratable : list string := flag_columns ++ ["user_id"].

(** The schema text names a migratable column exactly when the table has
    it, as is the case for the tables any version of the program creates. *)
Definition schema_faithful (t : Table) : Prop :=
  ∀ c, c ∈ migratable → Str.contains c (table_sql "messages" t) = has_column t c.




Definition derived_user_id (r : Row) : option string :=
  extract_user_id (from_id_str (cell r "from_id")).

Definition with_user_id (origin r : Row) : Row :=
  match derived_user_id origin with
  | Some u => <["user_id" := SqlText u]> r
  | None => r
  end.

Definition key_match (acc row : Row) : bool :=
  sql_eq (cell acc "id") (cell row "id")
  && sql_eq (cell acc "entity_id") (cell row "entity_id").

Definition backfill_step (acc row : Row) : Row :=
  if key_match acc row then with_user_id row acc else acc.

#[global] Instance Month_eq_dec : EqDecision Month.
Proof. solve_decision. Defined.

#[global] Instance Date_eq_dec : EqDecision Date.
Proof. solve_decision. Defined.

(** The stored timestamp of a digest tuple. *)
Definition timestamp (x : DigestRow) : sqlval := cell (dg_msg x) "date".

(** The calendar day of a stored record, when its timestamp parses. *)
Definition calendar_day (fromisoformat : string → option Date) (r : Row)
    : option Date :=
  match cell r "date" with
  | SqlText s => if Str.has_char "T" s then fromisoformat s else None
  | _ => None
  end.

(** The date cell holds what the passes store: the ISO text or NULL. *)
Definition date_textual (r : Row) : Prop :=
  match cell r "date" with
  | SqlInt _ => False
  | _ => True
  end.

#[global] Instance date_textual_dec r : Decision (date_textual r).
Proof. unfold date_textual. destruct (cell r "date"); apply _. Defined.

#[global] Instance valid_date_dec d : Decision (valid_date d).
Proof. unfold valid_date. apply _. Defined.

(** The label of the day-group of a timestamp, in the words of the
    renderer's contract: the calendar day when the timestamp parses, the
    raw date prefix when it does not, the "Unknown Date" bucket when there
    is no date part to split off. *)
Inductive day_label (fromisoformat : string → option Date) : sqlval → string → Prop :=
  | label_calendar_day s d :
      Str.has_char "T" s = true → fromisoformat s = Some d →
      day_label fromisoformat (SqlText s) (strftime d)
  | label_date_prefix s :
      Str.has_char "T" s = true → fromisoformat s = None →
      day_label fromisoformat (SqlText s) (Str.before_char "T" s)
  | label_unknown_text s :
      Str.has_char "T" s = false →
      day_label fromisoformat (SqlText s) "Unknown Date"
  | label_unknown_null :
      day_label fromisoformat SqlNull "Unknown Date".

(** [groups] splits [l] by [key]: one group per key that occurs, holding
    the elements of that key in the order of [l]. *)
Definition grouped (key : DigestRow → string) (l : list DigestRow)
    (groups : list (string * list DigestRow)) : Prop :=
  NoDup groups.*1
  ∧ (∀ k xs, (k, xs) ∈ groups → xs ≠ [] ∧ xs = filter (λ x, key x = k) l)
  ∧ (∀ x, x ∈ l → key x ∈ groups.*1).

(** The stored records the digest of one entity reads. *)
Definition records_of (ms : Table) (e : sqlval) : list Row :=
  filter (λ r : Row, entity_filter (Some e) r = true) (tbl_rows ms).

(** A check of [unique_keys] that runs. *)
Fixpoint distinct_keys (key : list string) (rows : list Row) : bool :=
  match rows with
  | [] => true
  | r :: rest =>
      forallb (λ r', negb (conflicts key r r') && negb (conflicts key r' r)) rest
      && distinct_keys key rest
  end.

(** ** Sample collaborators and data *)

Module Sample.

(** A client that knows one user and one channel; every other lookup
    fails. *)
Definition get_entity (r : EntityRef) : result Entity :=
  match r with
  | RefId 7 => Ok (EntUser (Some "Ann") (Some "Lee"))
  | RefPeer 100 => Ok (EntTitled (Some "News"))
  | _ => Raise (ClientError "Could not find the input entity")
  end.

Definition two_links : string := "<a href='u1'>one</a><a href='u2'>two</a>".
Definition bare_link : string := "<a>bare</a>".

(** What the HTML parser finds in the two sample texts; no anchor in any
    other text used here. *)
Definition find_all_a (text : string) : list Anchor :=
  if decide (text = two_links) then
    [{| a_text := "one"; a_href := Some "u1" |};
     {| a_text := "two"; a_href := Some "u2" |}]
  else if decide (text = bare_link) then [{| a_text := "bare"; a_href := None |}]
  else [].

Definition json_dumps_preview (p : PreviewData) : string :=
  "{title: " +:+ Str.fmt (pd_title p) +:+ ", url: " +:+ Str.fmt (pd_url p) +:+ "}".

Definition json_dumps_reactions (l : list (string * Z)) : string :=
  "[" +:+ join ", " ((λ ec, ec.1 +:+ ": " +:+ pretty ec.2) <$> l) +:+ "]".

Definition digit_val (c : ascii) : Z := Z.of_nat (nat_of_ascii c) - 48.

Definition month_of (n : Z) : option Month :=
  match n with
  | 1 => Some January | 2 => Some February | 3 => Some March
  | 4 => Some April | 5 => Some May | 6 => Some June | 7 => Some July
  | 8 => Some August | 9 => Some September | 10 => Some October
  | 11 => Some November | 12 => Some December
  | _ => None
  end.

(** The calendar date of a timestamp in the shape [isoformat()] writes,
    [YYYY-MM-DDT...]; anything else is refused. *)
Definition fromisoformat (s : string) : option Date :=
  match s with
  | String y1 (String y2 (String y3 (String y4 (String "-"
      (String m1 (String m2 (String "-" (String d1 (String d2
        (String "T" _)))))))))) =>
      if forallb Str.is_digit [y1; y2; y3; y4; m1; m2; d1; d2] then
        let d := 10 * digit_val d1 + digit_val d2 in
        mo ← month_of (10 * digit_val m1 + digit_val m2);
        if bool_decide (1 ≤ d ≤ 31) then
          Some {| year := 1000 * digit_val y1 + 100 * digit_val y2
                          + 10 * digit_val y3 + digit_val y4;
                  month := mo; day := d |}
        else None
      else None
  | _ => None
  end.

Definition relpath (p : string) : string :=
  default p (Str.strip_prefix "telegram_backups/" p).

(** A plain text message from user 7. *)
Definition text_message (id : Z) (date text : string) : Message :=
  {| m_id := id; m_date := date; m_message := Some text; m_pinned := Some false;
     m_action := None; m_web_preview := None; m_media := None; m_fwd_from := None;
     m_from_id := "PeerUser(user_id=7)"; m_views := None; m_sender := None;
     m_peer_id := None; m_reply_to_msg_id := None; m_quote_text := None;
     m_reactions := None; m_buttons := None |}.


Definition fresh : World :=
  {| w_store := None; w_files := ∅; w_log := []; w_slept := 0; w_html := None |}.

Definition backfill :=
  process_entity get_entity find_all_a json_dumps_preview json_dumps_reactions
    fromisoformat relpath.

Definition update :=
  update_entity get_entity find_all_a json_dumps_preview json_dumps_reactions
    fromisoformat relpath.

(** The ids in the messages table, in row order. *)
Definition stored_ids (w : World) : list sqlval :=
  (λ r : Row, cell r "id") <$> default [] (tbl_rows <$> messages_of w).

(** The rows of the buttons table as (message, row, column, label, url). *)
Definition stored_buttons (w : World)
    : list (sqlval * sqlval * sqlval * sqlval * sqlval) :=
  (λ r : Row, (cell r "message_id", cell r "row", cell r "column",
               cell r "text", cell r "url"))
    <$> default [] (tbl_rows <$> (w_store w ≫= (λ db : Db, db !! "buttons"))).

(** A store holding messages 9 and 10 of entity 5. *)
Definition archived : World :=
  (backfill fresh 5 false
     [Item (text_message 10 "2024-01-10T08:00:00+00:00" "ten");
      Item (text_message 9 "2024-01-09T08:00:00+00:00" "nine")]
     None false "2024-02-01T00:00:00+00:00").1.

Definition now : string := "2024-02-01T00:00:00+00:00".

Definition store_of (w : World) : Db := default ∅ (w_store w).

Definition table_of (name : string) (w : World) : Table :=
  default messages_table (store_of w !! name).

(** The stream of an update over [archived]: two new messages, then the two
    that are stored. *)
Definition resume_stream : list Event :=
  [Item (text_message 12 "2024-01-12T08:00:00+00:00" "twelve");
   Item (text_message 11 "2024-01-11T08:00:00+00:00" "eleven");
   Item (text_message 10 "2024-01-10T08:00:00+00:00" "ten");
   Item (text_message 9 "2024-01-09T08:00:00+00:00" "nine")].

(** A stream on which the service signals a flood wait of 9 seconds after
    the first message and still holds a second one. *)
Definition throttled_stream (newer older : Z) : list Event :=
  [Item (text_message newer "2024-01-12T08:00:00+00:00" "newer");
   Fault (FloodWaitError 9);
   Item (text_message older "2024-01-11T08:00:00+00:00" "older")].

(** A photo the client downloads to one file. *)
Definition photo : Media :=
  {| media_tag := "MessageMediaPhoto"; media_attributes := None;
     media_webpage := None;
     media_download :=
       Ok (Some ("telegram_backups/media/photo_21.jpg",
                 "9e107d9d372bb6826bd81d3542a419d6")) |}.

Definition photo_message : Message :=
  {| m_id := 21; m_date := "2024-01-21T08:00:00+00:00"; m_message := Some "";
     m_pinned := Some false; m_action := None; m_web_preview := None;
     m_media := Some photo; m_fwd_from := None;
     m_from_id := "PeerUser(user_id=7)"; m_views := None; m_sender := None;
     m_peer_id := None; m_reply_to_msg_id := None; m_quote_text := None;
     m_reactions := None; m_buttons := None |}.

(** The store and the disk after a backfill, with media, of the photo. *)
Definition with_photo : World :=
  (backfill fresh 5 false [Item photo_message] None true now).1.

Definition photo_conn : Conn :=
  {| c_db := store_of with_photo; c_files := w_files with_photo; c_log := [] |}.

(** A messages table as written before the three flags and [user_id] were
    introduced. *)
Definition legacy_row (id : Z) (from_id : string) : Row :=
  list_to_map
    [("id", SqlInt id); ("entity_id", SqlInt 5);
     ("date", SqlText "2023-05-01T10:00:00+00:00"); ("text", SqlText "hello");
     ("media_type", SqlNull); ("media_file", SqlNull); ("media_hash", SqlNull);
     ("forwarded", SqlNull); ("from_id", SqlText from_id); ("views", SqlInt 0);
     ("sender_name", SqlNull); ("reply_to_msg_id", SqlNull);
     ("reactions", SqlNull); ("web_preview", SqlNull);
     ("extraction_time", SqlText "2023-05-02T00:00:00+00:00")].

Definition legacy_messages : Table :=
  {| tbl_cols := take 15 messages_cols;
     tbl_constraint := tbl_constraint messages_table;
     tbl_key := tbl_key messages_table;
     tbl_rows := [legacy_row 1 "PeerUser(user_id=7)";
                  legacy_row 2 "PeerChannel(channel_id=100)";
                  legacy_row 3 "None"] |}.

(** A store whose records span three calendar days. *)
Definition three_days : World :=
  (backfill fresh 5 false
     [Item (text_message 6 "2024-01-12T09:30:00+00:00" "f");
      Item (text_message 5 "2024-01-12T08:00:00+00:00" "e");
      Item (text_message 4 "2024-01-11T08:00:00+00:00" "d");
      Item (text_message 3 "2024-01-10T08:00:00+00:00" "c")]
     None false now).1.

(** The labels and the message ids of the day-groups of a digest. *)
Definition digest_outline (groups : list (string * list DigestRow))
    : list (string * list sqlval) :=
  (λ g : string * list DigestRow,
     (g.1, (λ x, cell (dg_msg x) "id") <$> g.2)) <$> groups.

End Sample.

(** ** Further parts of the program *)

(** ** Button records *)

(** The row that [INSERT INTO buttons VALUES (?, ?, ?, ?, ?, ?, ?)] binds. *)
Definition button_record (id eid i j : Z) (text : string) (data url : sqlval) : Row :=
  list_to_map (zip (col_names buttons_table)
                 [SqlInt id; SqlInt eid; SqlInt i; SqlInt j; SqlText text; data; url]).

(** A button of the message is stored at row [i], column [j]. *)
Definition has_button (t : Table) (id eid i j : Z) : Prop :=
  ∃ r, r ∈ tbl_rows t ∧ cell r "message_id" = SqlInt id
       ∧ cell r "entity_id" = SqlInt eid ∧ cell r "row" = SqlInt i
       ∧ cell r "column" = SqlInt j.

(** The records of a keyboard: [enumerate] over the rows and, inside a row,
    over its buttons. *)
Definition keyboard_row_records (id eid i : Z) (j0 : Z) (row : list Button) : list Row :=
  imap (λ j b, button_record id eid i (j0 + Z.of_nat j) (btn_text b)
                 (truthy_text (btn_data b)) (truthy_text (btn_url b))) row.

Definition keyboard_records (id eid : Z) (i0 : Z) (rows : list (list Button)) : list Row :=
  concat (imap (λ i row, keyboard_row_records id eid (i0 + Z.of_nat i) 0 row) rows).

(** The state after a statement on one table. *)
Definition with_table (name : string) (t : Table) (c : Conn) : Conn :=
  {| c_db := <[name := t]> (c_db c); c_files := c_files c; c_log := c_log c |}.

(** The connection after statements that touch the buttons table only. *)
Definition buttons_set (c c' : Conn) (t' : Table) : Prop :=
  c_db c' = <["buttons" := t']> (c_db c)
  ∧ c_files c' = c_files c ∧ c_log c' = c_log c.

(** The record of an anchor. *)
Definition anchor_record (id eid : Z) (link : Anchor) : Row :=
  button_record id eid 0 0 (a_text link) SqlNull (opt_text (a_href link)).

(** ** Opening a store *)

(** [str.lower()] on the letters A to Z. *)
Definition lower_char (c : ascii) : ascii :=
  if ((65 <=? nat_of_ascii c) && (nat_of_ascii c <=? 90))%nat
  then ascii_of_nat (nat_of_ascii c + 32) else c.

Fixpoint lower (s : string) : string :=
  match s with
  | "" => ""
  | String c s' => String (lower_char c) (lower s')
  end.

(** The test of the retry loop on the text of an [OperationalError]. *)
Definition is_locked (msg : string) : bool :=
  Str.contains "database is locked" (lower msg).

(** The retry loop of [get_db_connection] and [get_db_connection_sync].
    [connect k] is what the body of the [try] does at attempt [k]: it hands
    a connection back or raises.  [remaining] counts the attempts of
    [range(max_retries)] still to come.  The result comes with the sleeps
    performed, in seconds and in order; each is announced by one printed
    line. *)
Fixpoint connect_attempts {A} (connect : nat → result A) (max_retries : nat)
    (attempt remaining : nat) : result A * list Z :=
  match remaining with
  | O => (Raise (OperationalError
                   "Failed to connect to database after multiple attempts"), [])
  | S remaining' =>
      match connect attempt with
      | Ok conn => (Ok conn, [])
      | Raise (OperationalError msg) =>
          if is_locked msg && (attempt <? max_retries - 1)%nat then
            let '(r, sleeps) :=
              connect_attempts connect max_retries (S attempt) remaining' in
            (r, 5 * (Z.of_nat attempt + 1) :: sleeps)
          else (Raise (OperationalError msg), [])
      | Raise e => (Raise e, [])
      end
  end.

Definition get_db_connection {A} (connect : nat → result A) (max_retries : nat)
    : result A * list Z :=
  connect_attempts connect max_retries 0 max_retries.

(** The attempt [k] failed on a locked database. *)
Definition locked_at {A} (connect : nat → result A) (k : nat) : Prop :=
  ∃ msg, connect k = Raise (OperationalError msg) ∧ is_locked msg = true.

(** ** Store file names *)

Fixpoint all_chars (p : ascii → bool) (s : string) : bool :=
  match s with
  | "" => true
  | String c s' => p c && all_chars p s'
  end.

Section Sanitize.

(** The character class [\w] of the [re] module. *)
Variable word_char : ascii → bool.

(** The characters outside the class [[^\w\-_\. ]]. *)
Definition kept (c : ascii) : bool :=
  word_char c
  || bool_decide (c = "-"%char) || bool_decide (c = "_"%char)
  || bool_decide (c = "."%char) || bool_decide (c = " "%char).

(** [re.sub(r'[^\w\-_\. ]', '_', filename)]. *)
Fixpoint sanitize_filename (filename : string) : string :=
  match filename with
  | "" => ""
  | String c s => String (if kept c then c else "_"%char) (sanitize_filename s)
  end.

(** [sanitize_filename(f"{entity_id}_{entity_name}")], the stem of the
    store file and of the digest of an entity. *)
Definition sanitized_name (entity_id : Z) (entity_name : string) : string :=
  sanitize_filename (pretty entity_id +:+ "_" +:+ entity_name).

End Sanitize.

Definition digit_or_dash (c : ascii) : bool :=
  Str.is_digit c || bool_decide (c = "-"%char).

(** ** Reply previews of the digest *)

(** Truth value of a value read from the store. *)
Definition cell_truthy (v : sqlval) : bool :=
  match v with
  | SqlNull => false
  | SqlInt z => negb (z =? 0)
  | SqlText s => nonempty s
  end.

(** [s[:n]]. *)
Fixpoint take_chars (n : nat) (s : string) : string :=
  match n, s with
  | S n', String c s' => String c (take_chars n' s')
  | _, _ => ""
  end.

(** [message_lookup.get(int(msg_id))], [message_lookup] being the dict of
    the query's tuples by their first column: the last tuple of an id is the
    one kept.  [msg_id] is an integer or [None], as the [reply_to_msg_id]
    column holds them; [int(None)] raises [TypeError], which is caught. *)
Definition get_message_by_id (messages : list DigestRow) (msg_id : option Z)
    : option DigestRow :=
  match msg_id with
  | Some z => last (filter (λ x, cell (dg_msg x) "id" = SqlInt z) messages)
  | None => None
  end.

(** [get_reply_preview(msg_id)] with the default [max_length] of 30.  A
    text cell holding a number other than 0 has no [len]. *)
Definition get_reply_preview (messages : list DigestRow) (msg_id : option Z)
    : result string :=
  match get_message_by_id messages msg_id with
  | None => Ok "Message not found"
  | Some msg =>
      let sender :=
        match cell (dg_msg msg) "sender_name" with
        | SqlText (String c s) => String c s
        | SqlInt z => if z =? 0 then "Unknown" else pretty z
        | _ => "Unknown"
        end in
      try! text :=
        match cell (dg_msg msg) "text" with
        | SqlText (String c s) => Ok (String c s)
        | SqlInt z =>
            if z =? 0 then
              Ok (if cell_truthy (cell (dg_msg msg) "media_type") then "Media message"
                  else if cell_truthy (cell (dg_msg msg) "is_service_message")
                       then "Service message"
                       else "Empty message")
            else Raise TypeError
        | _ =>
            Ok (if cell_truthy (cell (dg_msg msg) "media_type") then "Media message"
                else if cell_truthy (cell (dg_msg msg) "is_service_message")
                     then "Service message"
                     else "Empty message")
        end in
      Ok (sender +:+ ": "
          +:+ (if (30 <? String.length text)%nat
               then take_chars 30 text +:+ "..." else text))
  end.

(** ** The aggregated columns of the digest query *)




(** The ids of the messages of a digest, group after group. *)
Definition digest_ids (groups : list (string * list DigestRow)) : list sqlval :=
  (λ x, cell (dg_msg x) "id") <$> concat groups.*2.

(** ** The link of a forwarded message *)

Definition newline : ascii := ascii_of_nat 10.

(** [.*channel_post=(\d+)] tried at the head of [s]: the dot stops at a line
    break and the star is greedy, so the group is taken at the last place of
    the current line where [channel_post=] is followed by a digit. *)
Fixpoint last_post (s : string) : option string :=
  match s with
  | "" => None
  | String c s' =>
      match (if decide (c = newline) then None else last_post s') with
      | Some d => Some d
      | None => match_here "channel_post=" s
      end
  end.

(** One attempt of [channel_id=(\d+).*channel_post=(\d+)] at the head of
    [s].  The first group takes the whole run of digits: the dot matches a
    digit too, so giving digits back cannot turn a failure into a match. *)
Definition url_here (s : string) : option (string * string) :=
  match Str.strip_prefix "channel_id=" s with
  | Some rest =>
      match Str.take_digits rest with
      | "" => None
      | channel_id =>
          match last_post (Str.drop_digits rest) with
          | Some channel_post => Some (channel_id, channel_post)
          | None => None
          end
      end
  | None => None
  end.

(** [re.search]: the leftmost position where the attempt succeeds. *)
Fixpoint search_url (s : string) : option (string * string) :=
  match url_here s with
  | Some groups => Some groups
  | None =>
      match s with
      | "" => None
      | String _ s' => search_url s'
      end
  end.

Definition get_url_from_forwarded (forwarded : option string) : option string :=
  match forwarded with
  | None => None
  | Some s =>
      match search_url s with
      | Some (channel_id, channel_post) =>
          Some ("https://t.me/c/" +:+ channel_id +:+ "/" +:+ channel_post)
      | None => None
      end
  end.

(** [s] names a channel id and, later on the same line, a post id. *)
Definition names_post (s pre d1 mid d2 post : string) : Prop :=
  s = pre +:+ "channel_id=" +:+ d1 +:+ mid +:+ "channel_post=" +:+ d2 +:+ post
  ∧ Str.isdigit d1 = true ∧ Str.isdigit d2 = true
  ∧ Str.has_char newline mid = false.

(** ** More sample data *)

Module Fixture.

(** A keyboard of two rows: a url button and a callback button, then one
    url button. *)
Definition keyboard : list (list Button) :=
  [[{| btn_text := "Open"; btn_data := None; btn_url := Some "https://a.example" |};
    {| btn_text := "Vote"; btn_data := Some "b'v1'"; btn_url := None |}];
   [{| btn_text := "More"; btn_data := None; btn_url := Some "https://b.example" |}]].

(** A message with one url button and two reactions. *)
Definition decorated_message : Message :=
  {| m_id := 30; m_date := "2024-01-30T08:00:00+00:00"; m_message := Some "poll";
     m_pinned := Some false; m_action := None; m_web_preview := None;
     m_media := None; m_fwd_from := None;
     m_from_id := "PeerUser(user_id=7)"; m_views := None; m_sender := None;
     m_peer_id := None; m_reply_to_msg_id := None; m_quote_text := None;
     m_reactions := Some [{| rc_reaction := ReactionEmoji "+"; rc_count := 2 |};
                          {| rc_reaction := ReactionEmoji "!"; rc_count := 1 |}];
     m_buttons := Some [[{| btn_text := "Open"; btn_data := None;
                            btn_url := Some "https://a.example" |}]] |}.

Definition decorated : World :=
  (Sample.backfill Sample.fresh 5 false [Item decorated_message] None false
     Sample.now).1.

(** The tuples of the digest query on the store of three days. *)
Definition three_days_digest : list DigestRow :=
  match select_digest (Sample.store_of Sample.three_days) (Some (SqlInt 5)) with
  | Ok messages => messages
  | Raise _ => []
  end.

(** A store that is locked at the first two attempts. *)
Definition locked_twice (attempt : nat) : result string :=
  if (attempt <? 2)%nat then Raise (OperationalError "database is locked")
  else Ok "connection".

(** A store that stays locked. *)
Definition always_locked (attempt : nat) : result string :=
  Raise (OperationalError "Database Is Locked").

(** The word characters among the first 128: letters, digits and the
    underscore. *)
Definition ascii_word (c : ascii) : bool :=
  Str.is_digit c
  || ((65 <=? nat_of_ascii c) && (nat_of_ascii c <=? 90))%nat
  || ((97 <=? nat_of_ascii c) && (nat_of_ascii c <=? 122))%nat
  || bool_decide (c = "_"%char).

End Fixture.

(** * Properties *)

(** ** Steps of the loop body *)

Lemma same_shape_refl db : same_shape db db.
Proof. done. Qed.

Lemma same_shape_trans db1 db2 db3 :
  same_shape db1 db2 → same_shape db2 db3 → same_shape db1 db3.
Proof. unfold same_shape. intros H1 H2 n. by rewrite H2, H1. Qed.

Lemma wf_same_shape db db' : same_shape db db' → wf_db db → wf_db db'.
Proof.
  intros Hs (Hm & Hr & Hp & Hb).
  assert (∀ n t, db !! n = Some t → ∃ t', db' !! n = Some t' ∧ shape t' = shape t) as Hx.
  { intros n t Ht. specialize (Hs n). rewrite Ht in Hs.
    destruct (db' !! n) as [t'|]; [|done]. exists t'. split; [done|].
    simpl in Hs. congruence. }
  unfold wf_db, has_column, col_names. 
  destruct Hm as (t & Ht & Hk & Hc). destruct (Hx _ _ Ht) as (t' & Ht' & [= E1 E2 E3]).
  destruct Hr as (tr & Htr & Hlr). destruct (Hx _ _ Htr) as (tr' & Htr' & [= Er1 Er2 Er3]).
  destruct Hp as (tp & Htp & Hlp). destruct (Hx _ _ Htp) as (tp' & Htp' & [= Ep1 Ep2 Ep3]).
  destruct Hb as (tb & Htb & Hlb). destruct (Hx _ _ Htb) as (tb' & Htb' & [= Eb1 Eb2 Eb3]).
  split_and!; eexists; (split; [eassumption|]); rewrite ?E1, ?E3, ?Er1, ?Ep1, ?Eb1; done.
Qed.

Lemma same_shape_sym db db' : same_shape db db' → same_shape db' db.
Proof. unfold same_shape. intros H n. by rewrite H. Qed.

Lemma aux_weaken {A} (P Q : Prop) (m : M A) : (Q → P) → aux_step P m → aux_step Q m.
Proof. intros HPQ H c. destruct (H c) as (? & ? & He). naive_solver. Qed.

Lemma aux_ret {A} P (a : A) : aux_step P (ret a).
Proof. intros c. simpl. split_and!; done. Qed.

Lemma aux_bind {A B} P (m : M A) (k : A → M B) :
  aux_step P m → (∀ a, aux_step P (k a)) → aux_step P (bind m k).
Proof.
  intros Hm Hk c. unfold bind. specialize (Hm c).
  destruct (m c) as [c1 [a|e]]; simpl in *.
  - destruct Hm as (Hs & Hmsg & _). specialize (Hk a c1).
    destruct (k a c1) as [c2 r]; simpl in *.
    destruct Hk as (Hs2 & Hmsg2 & He). split_and!.
    + by eapply same_shape_trans.
    + congruence.
    + intros e Hr. destruct (He e Hr) as [Hb Hw]. split; [done|].
      intros HP Hwf. apply (Hw HP). by eapply wf_same_shape.
  - destruct Hm as (Hs & Hmsg & He). split_and!; [done|done|].
    intros e' [= <-]. by apply He.
Qed.

Lemma aux_print P l : aux_step P (print l).
Proof. intros c. simpl. split_and!; done. Qed.

Lemma aux_prints P l : aux_step P (prints l).
Proof. intros c. simpl. split_and!; done. Qed.

Lemma aux_write_file P p d : aux_step P (write_file p d).
Proof. intros c. simpl. split_and!; done. Qed.

Lemma aux_lift_int P z : aux_step P (lift (int_of (SqlInt z))).
Proof. intros c. simpl. split_and!; done. Qed.

Lemma aux_select_messages {A} P (q : Conn → Table → A) : aux_step P (select "messages" q).
Proof.
  intros c. unfold select. destruct (c_db c !! "messages") eqn:E; simpl.
  - split_and!; done.
  - split_and!; [done|done|]. intros e [= <-]. split; [done|].
    intros _ ((t & Ht & _) & _). congruence.
Qed.

Lemma insert_row_shape mode r t : shape (insert_row mode r t) = shape t.
Proof. destruct mode; unfold insert_row; [case_match|]; done. Qed.

Lemma same_shape_insert db n t t' :
  db !! n = Some t → shape t' = shape t → same_shape db (<[n := t']> db).
Proof.
  intros Hn Hs k. destruct (decide (n = k)) as [<-|Hne].
  - rewrite lookup_insert_eq, Hn. simpl. by rewrite Hs.
  - by rewrite lookup_insert_ne.
Qed.

Lemma aux_insert_into P name mode vals :
  name ≠ "messages" →
  (∀ db, wf_db db → ∃ t, db !! name = Some t ∧ List.length (tbl_cols t) = List.length vals) →
  aux_step P (insert_into name mode vals).
Proof.
  intros Hne Hwf c. unfold insert_into, execute, on_table.
  destruct (c_db c !! name) as [t|] eqn:E; simpl.
  - unfold insert_values. case_decide as Hl; simpl.
    + split_and!; [|by rewrite lookup_insert_ne|done].
      eapply same_shape_insert; [done|]. apply insert_row_shape.
    + split_and!; [done|done|]. intros e [= <-]. split; [done|].
      intros _ Hw. destruct (Hwf _ Hw) as (t' & Ht' & Hl'). congruence.
  - split_and!; [done|done|]. intros e [= <-]. split; [done|].
    intros _ Hw. destruct (Hwf _ Hw) as (t' & Ht' & Hl'). congruence.
Qed.

Lemma aux_query {A} P (f : Conn → A) : aux_step P (query f).
Proof. intros c. simpl. split_and!; done. Qed.

Ltac aux_go :=
  repeat first
    [ apply aux_ret | apply aux_print | apply aux_prints | apply aux_write_file
    | apply aux_lift_int | apply aux_select_messages | apply aux_query
    | apply aux_bind; [|intros ?]
    | progress case_match ].

Section StepLemmas.

Variable get_entity : EntityRef → result Entity.
Variable find_all_a : string → list Anchor.
Variable json_dumps_preview : PreviewData → string.
Variable json_dumps_reactions : list (string * Z) → string.

Lemma aux_member_name P u : aux_step P (member_name get_entity u).
Proof. unfold member_name. aux_go. Qed.

Lemma aux_member_names P us : aux_step P (member_names get_entity us).
Proof.
  induction us as [|u us IH]; simpl; [apply aux_ret|].
  apply aux_bind; [apply aux_member_name|intros ?].
  apply aux_bind; [apply IH|intros ?]. apply aux_ret.
Qed.

Lemma aux_classify P m : aux_step P (classify get_entity m).
Proof.
  unfold classify. destruct (m_action m) as [a|]; [|apply aux_ret].
  apply aux_bind; [|intros ?; apply aux_ret].
  destruct a; simpl; try apply aux_ret.
  - apply aux_bind; [apply aux_member_names|intros ?; apply aux_ret].
  - apply aux_bind; [apply aux_member_name|intros ?; apply aux_ret].
Qed.

Lemma aux_fetch_media P p dm eid m : aux_step P (fetch_media p dm eid m).
Proof. unfold fetch_media. aux_go. Qed.

Lemma aux_resolve_sender_name P m : aux_step P (resolve_sender_name get_entity m).
Proof. unfold resolve_sender_name, get_channel_name_from_message. aux_go. Qed.

Lemma wf_reactions db : wf_db db → ∃ t, db !! "reactions" = Some t ∧ List.length (tbl_cols t) = 4%nat.
Proof. by intros (_ & H & _). Qed.

Lemma wf_replies db : wf_db db → ∃ t, db !! "replies" = Some t ∧ List.length (tbl_cols t) = 4%nat.
Proof. by intros (_ & _ & H & _). Qed.

Lemma wf_buttons db : wf_db db → ∃ t, db !! "buttons" = Some t ∧ List.length (tbl_cols t) = 7%nat.
Proof. by intros (_ & _ & _ & H). Qed.

Lemma aux_store_reactions P eid id results :
  aux_step P (store_reactions (SqlInt eid) id results).
Proof.
  induction results as [|r rest IH]; simpl; [apply aux_ret|].
  destruct (get_emoji_string (rc_reaction r)) as [emoji lines].
  apply aux_bind; [apply aux_prints|intros _].
  apply aux_bind; [apply aux_lift_int|intros ?].
  apply aux_bind; [apply aux_insert_into; [done|apply wf_reactions]|intros _].
  apply aux_bind; [apply IH|intros ?]. apply aux_ret.
Qed.

Lemma aux_reaction_summary P eid m :
  aux_step P (reaction_summary json_dumps_reactions (SqlInt eid) m).
Proof.
  unfold reaction_summary. destruct (m_reactions m); [|apply aux_ret].
  apply aux_bind; [apply aux_store_reactions|intros ?; apply aux_ret].
Qed.

Lemma aux_store_button_row P eid id i j bs : aux_step P (store_button_row eid id i j bs).
Proof.
  revert j. induction bs as [|b bs IH]; intros j; simpl; [apply aux_ret|].
  apply aux_bind; [apply aux_insert_into; [done|apply wf_buttons]|intros _]. apply IH.
Qed.

Lemma aux_store_buttons P eid id i rows : aux_step P (store_buttons eid id i rows).
Proof.
  revert i. induction rows as [|row rows IH]; intros i; simpl; [apply aux_ret|].
  apply aux_bind; [apply aux_store_button_row|intros _]. apply IH.
Qed.

Lemma aux_store_links eid id links :
  aux_step (Forall has_href links) (store_links eid id links).
Proof.
  induction links as [|l links IH]; simpl; [apply aux_ret|].
  destruct (a_href l) as [href|] eqn:E.
  - apply aux_bind; [apply aux_insert_into; [done|apply wf_buttons]|intros _].
    eapply aux_weaken; [|apply IH]. by inversion 1.
  - intros c. simpl. split_and!; [done|done|]. intros e [= <-]. split; [done|].
    intros H. inversion H as [|?? [x Hx]]. unfold has_href in *. congruence.
Qed.

End StepLemmas.

Section BodyLemmas.

Variable get_entity : EntityRef → result Entity.
Variable find_all_a : string → list Anchor.
Variable json_dumps_preview : PreviewData → string.
Variable json_dumps_reactions : list (string * Z) → string.

Lemma message_values_cols eid now m text svc media sender rj :
  (message_values json_dumps_preview eid now m text svc media sender rj).*1
  = messages_cols.*1.
Proof. reflexivity. Qed.

Lemma message_values_id eid now m text svc media sender rj :
  cell (list_to_map (message_values json_dumps_preview eid now m text svc media sender rj)) "id"
  = SqlInt (m_id m).
Proof.
  unfold cell. erewrite elem_of_list_to_map_1; [done| |left].
  rewrite message_values_cols. by apply (bool_decide_unpack _); vm_compute.
Qed.

Lemma message_values_entity_id eid now m text svc media sender rj :
  cell (list_to_map (message_values json_dumps_preview eid now m text svc media sender rj)) "entity_id"
  = SqlInt eid.
Proof.
  unfold cell. erewrite elem_of_list_to_map_1; [done| |right; left].
  rewrite message_values_cols. by apply (bool_decide_unpack _); vm_compute.
Qed.

Lemma classify_plain m c :
  m_action m = None → classify get_entity m c = (c, Ok (m_message m, false)).
Proof. unfold classify. by intros ->. Qed.

Lemma classify_service m c c' text svc :
  classify get_entity m c = (c', Ok (text, svc)) →
  svc = false → m_action m = None ∧ text = m_message m.
Proof.
  unfold classify. destruct (m_action m) as [a|].
  - unfold bind. destruct (service_body get_entity m a c) as [c1 [b|e]]; simpl; [|done].
    intros [= _ _ <-]. done.
  - intros [= _ <- _]. done.
Qed.

Lemma process_message_spec p dm eid now m c c' r :
  process_message get_entity find_all_a json_dumps_preview
    json_dumps_reactions p dm (SqlInt eid) now m c = (c', r) →
  same_shape (c_db c) (c_db c')
  ∧ (∀ e, r = Raise e → benign e ∧ (links_ok find_all_a m → ¬ wf_db (c_db c)))
  ∧ (r = Ok () → ∃ t row, c_db c !! "messages" = Some t
        ∧ c_db c' !! "messages" = Some (insert_row OrIgnore row t)
        ∧ cell row "id" = SqlInt (m_id m) ∧ cell row "entity_id" = SqlInt eid).
Proof.
  unfold process_message. intros Hrun.
  (* classify *)
  unfold bind at 1 in Hrun.
  pose proof (aux_classify get_entity True m c) as (S1 & M1 & R1).
  destruct (classify get_entity m c) as [c1 [[text svc]|e]] eqn:E1; simpl in *.
  2:{ injection Hrun as <- <-. split_and!; [done| |done]. intros e' [= <-]. naive_solver. }
  (* media *)
  unfold bind at 1 in Hrun.
  pose proof (aux_fetch_media True p dm (SqlInt eid) m c1) as (S2 & M2 & R2).
  destruct (fetch_media p dm (SqlInt eid) m c1) as [c2 [media|e]]; simpl in *.
  2:{ injection Hrun as <- <-. split_and!; [by eapply same_shape_trans| |done].
      intros e' [= <-]. destruct (R2 e eq_refl) as [? Hw]. split; [done|].
      intros _ Hwf. apply Hw; [done|by eapply wf_same_shape]. }
  (* sender *)
  unfold bind at 1 in Hrun.
  pose proof (aux_resolve_sender_name get_entity True m c2) as (S3 & M3 & R3).
  destruct (resolve_sender_name get_entity m c2) as [c3 [sender|e]]; simpl in *.
  2:{ injection Hrun as <- <-. split_and!; [eauto using same_shape_trans| |done].
      intros e' [= <-]. destruct (R3 e eq_refl) as [? Hw]. split; [done|].
      intros _ Hwf. apply Hw; [done|eauto using wf_same_shape, same_shape_trans]. }
  (* reactions *)
  unfold bind at 1 in Hrun.
  pose proof (aux_reaction_summary json_dumps_reactions True eid m c3) as (S4 & M4 & R4).
  destruct (reaction_summary json_dumps_reactions (SqlInt eid) m c3) as [c4 [rj|e]]; simpl in *.
  2:{ injection Hrun as <- <-. split_and!; [eauto using same_shape_trans| |done].
      intros e' [= <-]. destruct (R4 e eq_refl) as [? Hw]. split; [done|].
      intros _ Hwf. apply Hw; [done|eauto using wf_same_shape, same_shape_trans]. }
  assert (same_shape (c_db c) (c_db c4)) as S04 by eauto using same_shape_trans.
  assert (c_db c4 !! "messages" = c_db c !! "messages") as M04 by congruence.
  clear S1 S2 S3 S4 M1 M2 M3 M4 R1 R2 R3 R4.
  (* the message row *)
  unfold bind at 1 in Hrun. simpl in Hrun. unfold bind at 1 in Hrun.
  set (vals := message_values _ eid now m text svc media sender rj) in Hrun.
  unfold execute at 1, on_table, rbind in Hrun. cbv beta iota in Hrun.
  destruct (c_db c4 !! "messages") as [t|] eqn:Et; cbv beta iota in Hrun.
  2:{ injection Hrun as <- <-. split_and!; [done| |done]. intros e' [= <-]. split; [done|].
      intros _ ((t' & Ht' & _) & _). congruence. }
  unfold insert_named in Hrun.
  destruct (forallb (has_column t) vals.*1) eqn:Ec; cbv beta iota in Hrun.
  2:{ injection Hrun as <- <-. split_and!; [done| |done]. intros e' [= <-]. split; [done|].
      intros _ ((t' & Ht' & _ & Hc) & _). rewrite <- M04 in Ht'.
      assert (t' = t) as -> by congruence.
      apply not_true_iff_false in Ec. apply Ec. apply Is_true_true, forallb_True.
      unfold vals. rewrite message_values_cols.
      eapply Forall_impl; [exact Hc|]. simpl. intros x ->. done. }
  set (row := list_to_map vals) in Hrun.
  set (c5 := {| c_db := <["messages" := insert_row OrIgnore row t]> (c_db c4);
                c_files := c_files c4; c_log := c_log c4 |}) in Hrun.
  assert (same_shape (c_db c) (c_db c5)) as S05.
  { eapply same_shape_trans; [exact S04|].
    change (c_db c5) with (<["messages" := insert_row OrIgnore row t]> (c_db c4)).
    eapply same_shape_insert; [exact Et|]. apply insert_row_shape. }
  (* replies, buttons, links *)
  match type of Hrun with bind ?a ?k c5 = _ => set (post := bind a k) in Hrun end.
  assert (aux_step (links_ok find_all_a m) post) as Hpost.
  { unfold post. apply aux_bind.
    { destruct (reply_target m); [|apply aux_ret].
      apply aux_insert_into; [done|apply wf_replies]. }
    intros _. apply aux_bind.
    { destruct (m_buttons m); [apply aux_store_buttons|apply aux_ret]. }
    intros _. destruct (Str.truthy text && negb svc) eqn:Eb; [|apply aux_ret].
    apply andb_prop in Eb as [_ Hs]. apply negb_true_iff in Hs.
    destruct (classify_service _ _ _ _ _ E1 Hs) as [Ha ->].
    eapply aux_weaken; [|apply aux_store_links]. intros H. by apply H. }
  destruct (Hpost c5) as (S6 & M6 & R6). rewrite Hrun in S6, M6, R6.
  cbn [fst snd] in S6, M6, R6.
  change (c_db c5) with (<["messages" := insert_row OrIgnore row t]> (c_db c4)) in M6.
  split_and!.
  - by eapply same_shape_trans.
  - intros e Hr. destruct (R6 e Hr) as [? Hw]. split; [done|].
    intros Hl Hwf. apply Hw; [done|]. by eapply wf_same_shape.
  - intros _. exists t, row. split_and!.
    + congruence.
    + rewrite M6. apply lookup_insert_eq.
    + apply message_values_id.
    + apply message_values_entity_id.
Qed.

End BodyLemmas.

(** ** Keys and the message loop *)

Lemma sql_eq_true a b : sql_eq a b = true ↔ a ≠ SqlNull ∧ a = b.
Proof.
  unfold sql_eq. destruct a; simpl; rewrite ?bool_decide_eq_true; naive_solver.
Qed.

Lemma sql_eq_sym a b : sql_eq a b = true → sql_eq b a = true.
Proof. rewrite !sql_eq_true. naive_solver. Qed.

Lemma conflicts_sym key r1 r2 : conflicts key r1 r2 = true → conflicts key r2 r1 = true.
Proof.
  unfold conflicts. rewrite !forallb_forall. intros H k Hk. apply sql_eq_sym. by apply H.
Qed.

Lemma conflicts_pk (new r : Row) i e :
  cell new "id" = SqlInt i → cell new "entity_id" = SqlInt e →
  conflicts ["id"; "entity_id"] new r = true
  ↔ cell r "id" = SqlInt i ∧ cell r "entity_id" = SqlInt e.
Proof.
  intros Hi He. unfold conflicts. simpl. rewrite Hi, He.
  rewrite !andb_true_iff, !sql_eq_true. naive_solver.
Qed.

Lemma existsb_conflicts_pk (new : Row) t i e :
  tbl_key t = ["id"; "entity_id"] →
  cell new "id" = SqlInt i → cell new "entity_id" = SqlInt e →
  existsb (conflicts (tbl_key t) new) (tbl_rows t) = true ↔ has_key t i e.
Proof.
  intros -> Hi He. rewrite existsb_exists. unfold has_key.
  setoid_rewrite (conflicts_pk new _ i e Hi He).
  setoid_rewrite list_elem_of_In. done.
Qed.

Lemma insert_ignore_present (new : Row) t i e :
  tbl_key t = ["id"; "entity_id"] →
  cell new "id" = SqlInt i → cell new "entity_id" = SqlInt e →
  has_key t i e → insert_row OrIgnore new t = t.
Proof.
  intros Hk Hi He Hp. unfold insert_row.
  apply (existsb_conflicts_pk new t i e Hk Hi He) in Hp. by rewrite Hp.
Qed.

Lemma insert_ignore_absent (new : Row) t i e :
  tbl_key t = ["id"; "entity_id"] →
  cell new "id" = SqlInt i → cell new "entity_id" = SqlInt e →
  ¬ has_key t i e → tbl_rows (insert_row OrIgnore new t) = tbl_rows t ++ [new].
Proof.
  intros Hk Hi He Hp. unfold insert_row.
  destruct (existsb _ _) eqn:E; [|done].
  apply (existsb_conflicts_pk new t i e Hk Hi He) in E. done.
Qed.

Lemma insert_ignore_prefix new t : tbl_rows t `prefix_of` tbl_rows (insert_row OrIgnore new t).
Proof.
  unfold insert_row. destruct (existsb _ _); simpl; [done|]. by apply prefix_app_r.
Qed.

Lemma insert_ignore_has_key (new : Row) t i e :
  tbl_key t = ["id"; "entity_id"] →
  cell new "id" = SqlInt i → cell new "entity_id" = SqlInt e →
  has_key (insert_row OrIgnore new t) i e.
Proof.
  intros Hk Hi He. unfold insert_row.
  destruct (existsb _ _) eqn:E.
  - by apply (existsb_conflicts_pk new t i e Hk Hi He).
  - exists new. simpl. split; [|done]. apply elem_of_app. right. by left.
Qed.

Lemma has_key_prefix t t' i e :
  tbl_rows t `prefix_of` tbl_rows t' → has_key t i e → has_key t' i e.
Proof.
  intros [k Hk] (r & Hr & H). exists r. split; [|done]. rewrite Hk.
  apply elem_of_app. by left.
Qed.

Lemma insert_ignore_unique new t :
  unique_keys t → unique_keys (insert_row OrIgnore new t).
Proof.
  intros Hu. unfold insert_row. destruct (existsb _ _) eqn:E; [done|].
  intros i j r1 r2. simpl. intros H1 H2 Hc.
  assert (∀ k r, tbl_rows t !! k = Some r → conflicts (tbl_key t) new r = false) as Hn.
  { intros k r Hr. apply not_true_iff_false. intros Hcr.
    apply not_true_iff_false in E. apply E. apply existsb_exists.
    exists r. split; [|done]. apply list_elem_of_In. by eapply list_elem_of_lookup_2. }
  apply lookup_app_Some in H1 as [H1|[Hl1 H1]]; apply lookup_app_Some in H2 as [H2|[Hl2 H2]].
  - by eapply Hu.
  - apply list_lookup_singleton_Some in H2 as [_ <-].
    apply conflicts_sym in Hc. rewrite (Hn _ _ H1) in Hc. done.
  - apply list_lookup_singleton_Some in H1 as [_ <-].
    rewrite (Hn _ _ H2) in Hc. done.
  - apply list_lookup_singleton_Some in H1 as [? _].
    apply list_lookup_singleton_Some in H2 as [? _]. lia.
Qed.

Section LoopLemmas.

Variable get_entity : EntityRef → result Entity.
Variable find_all_a : string → list Anchor.
Variable json_dumps_preview : PreviewData → string.
Variable json_dumps_reactions : list (string * Z) → string.

Local Notation run_body p dm eid now :=
  (body get_entity find_all_a json_dumps_preview json_dumps_reactions
     p dm (SqlInt eid) now) (only parsing).

Lemma body_spec p dm eid now m c c' r :
  run_body p dm eid now m c = (c', r) →
  same_shape (c_db c) (c_db c')
  ∧ (∀ e, r = Raise e → benign e ∧ (links_ok find_all_a m → ¬ wf_db (c_db c)))
  ∧ (r = Ok () → ∃ t row, c_db c !! "messages" = Some t
        ∧ c_db c' !! "messages" = Some (insert_row OrIgnore row t)
        ∧ cell row "id" = SqlInt (m_id m) ∧ cell row "entity_id" = SqlInt eid).
Proof. apply process_message_spec. Qed.

(** The loop never changes a table shape, and what it leaves in the
    messages table extends what it found. *)
Lemma loop_extends p dm eid now cursor stream c c' stop t :
  message_loop (run_body p dm eid now) cursor stream c = (c', stop) →
  c_db c !! "messages" = Some t →
  same_shape (c_db c) (c_db c')
  ∧ ∃ t', c_db c' !! "messages" = Some t' ∧ shape t' = shape t
          ∧ tbl_rows t `prefix_of` tbl_rows t'
          ∧ (unique_keys t → unique_keys t').
Proof.
  revert c t. induction stream as [|[m|e] rest IH]; intros c t Hrun Ht; simpl in Hrun.
  - injection Hrun as <- <-. split; [done|]. by exists t.
  - destruct (match cursor with Some k => bool_decide (m_id m ≤ k) | None => false end).
    { injection Hrun as <- <-. split; [done|]. by exists t. }
    destruct (run_body p dm eid now m c) as [c1 [[]|e]] eqn:Eb.
    + destruct (body_spec _ _ _ _ _ _ _ _ Eb) as (S1 & _ & Hok).
      destruct (Hok eq_refl) as (t0 & row & Ht0 & Ht1 & _).
      assert (t0 = t) as -> by congruence.
      destruct (IH _ _ Hrun Ht1) as (S2 & t' & Ht' & Hs & Hp & Hu).
      split; [by eapply same_shape_trans|].
      exists t'. split_and!; [done| | |].
      * by rewrite Hs, insert_row_shape.
      * etrans; [apply insert_ignore_prefix|done].
      * intros H. by apply Hu, insert_ignore_unique.
    + injection Hrun as <- <-. simpl. split; [done|]. by exists t.
  - injection Hrun as <- <-. split; [done|]. by exists t.
Qed.

(** A loop over messages that are all stored already changes nothing in
    the messages table. *)
Lemma loop_all_present p dm eid now stream c c' stop t :
  message_loop (run_body p dm eid now) None stream c = (c', stop) →
  c_db c !! "messages" = Some t → tbl_key t = ["id"; "entity_id"] →
  (∀ m, Item m ∈ stream → has_key t (m_id m) eid) →
  c_db c' !! "messages" = Some t.
Proof.
  revert c. induction stream as [|[m|e] rest IH]; intros c Hrun Ht Hk Hall; simpl in Hrun.
  - by injection Hrun as <- <-.
  - destruct (run_body p dm eid now m c) as [c1 [[]|e]] eqn:Eb.
    + destruct (body_spec _ _ _ _ _ _ _ _ Eb) as (S1 & _ & Hok).
      destruct (Hok eq_refl) as (t0 & row & Ht0 & Ht1 & Hi & He).
      assert (t0 = t) as -> by congruence.
      rewrite (insert_ignore_present row t (m_id m) eid) in Ht1;
        [|done|done|done|apply Hall; by left].
      apply (IH c1); [done|done|done|]. intros m' Hm'. apply Hall. by right.
    + by injection Hrun as <- <-.
  - by injection Hrun as <- <-.
Qed.

(** A backfill loop that ends without an exception has stored every
    message of a fault-free stream. *)
Lemma loop_commits_all p dm eid now stream c c' t :
  message_loop (run_body p dm eid now) None stream c = (c', None) →
  Forall is_item stream →
  c_db c !! "messages" = Some t → tbl_key t = ["id"; "entity_id"] →
  ∃ t', c_db c' !! "messages" = Some t'
        ∧ ∀ m, Item m ∈ stream → has_key t' (m_id m) eid.
Proof.
  revert c t. induction stream as [|[m|e] rest IH]; intros c t Hrun Hit Ht Hk; simpl in Hrun.
  - injection Hrun as <-. exists t. split; [done|]. intros m Hm. by apply elem_of_nil in Hm.
  - destruct (run_body p dm eid now m c) as [c1 [[]|e]] eqn:Eb; [|done].
    destruct (body_spec _ _ _ _ _ _ _ _ Eb) as (S1 & _ & Hok).
    destruct (Hok eq_refl) as (t0 & row & Ht0 & Ht1 & Hi & He).
    assert (t0 = t) as -> by congruence.
    apply Forall_cons in Hit as [_ Hit].
    destruct (IH _ _ Hrun Hit Ht1) as (t' & Ht' & Hall).
    { change (tbl_key (insert_row OrIgnore row t)) with (shape (insert_row OrIgnore row t)).2.
      by rewrite insert_row_shape. }
    exists t'. split; [done|]. intros m' Hm'. apply elem_of_cons in Hm' as [[= ->]|Hm'].
    + destruct (loop_extends _ _ _ _ _ _ _ _ _ _ Hrun Ht1) as (_ & t2 & Ht2 & _ & Hp & _).
      assert (t2 = t') as -> by congruence.
      eapply has_key_prefix; [done|]. by apply insert_ignore_has_key.
    + by apply Hall.
  - by apply Forall_cons in Hit as [[] _].
Qed.

Lemma loop_stop_benign p dm eid now cursor stream c c' e :
  message_loop (run_body p dm eid now) cursor stream c = (c', Some e) →
  Forall is_item stream → benign e.
Proof.
  revert c. induction stream as [|[m|e'] rest IH]; intros c Hrun Hit; simpl in Hrun.
  - done.
  - apply Forall_cons in Hit as [_ Hit].
    destruct (match cursor with Some k => bool_decide (m_id m ≤ k) | None => false end); [done|].
    destruct (run_body p dm eid now m c) as [c1 [[]|e1]] eqn:Eb.
    + by eapply IH.
    + injection Hrun as <- <-.
      destruct (body_spec _ _ _ _ _ _ _ _ Eb) as (_ & Hr & _). by apply Hr.
  - by apply Forall_cons in Hit as [[] _].
Qed.

End LoopLemmas.

(** ** Backfill *)

Lemma iter_messages_items stream limit :
  Forall is_item stream → Forall is_item (iter_messages stream limit).
Proof.
  revert limit. induction stream as [|[m|e] rest IH]; intros limit H; simpl.
  - by destruct limit.
  - apply Forall_cons in H as [_ H]. destruct limit as [[|n]|]; [done| |];
      (apply Forall_cons; split; [done|by apply IH]).
  - by apply Forall_cons in H as [[] _].
Qed.

Lemma iter_messages_None stream : iter_messages stream None = stream.
Proof. induction stream as [|[m|e] rest IH]; simpl; [done| |done]. by rewrite IH. Qed.

Lemma create_if_absent_ne n k t (db : Db) :
  n ≠ k → create_if_absent n t db !! k = db !! k.
Proof.
  intros Hne. unfold create_if_absent. destruct (db !! n); [done|].
  by rewrite lookup_insert_ne.
Qed.

Lemma create_if_absent_eq n t (db : Db) :
  create_if_absent n t db !! n = Some (default t (db !! n)).
Proof.
  unfold create_if_absent. destruct (db !! n) eqn:E; simpl; [done|].
  by rewrite lookup_insert_eq.
Qed.

Lemma create_tables_messages db :
  create_tables db !! "messages" = Some (default messages_table (db !! "messages")).
Proof.
  unfold create_tables. rewrite !create_if_absent_ne by done.
  apply create_if_absent_eq.
Qed.

Section Backfill.

Variable get_entity : EntityRef → result Entity.
Variable find_all_a : string → list Anchor.
Variable json_dumps_preview : PreviewData → string.
Variable json_dumps_reactions : list (string * Z) → string.
Variable fromisoformat : string → option Date.
Variable relpath : string → string.

Local Notation backfill :=
  (process_entity get_entity find_all_a json_dumps_preview
     json_dumps_reactions fromisoformat relpath) (only parsing).

Lemma render_store c slept e :
  w_store (render fromisoformat relpath c slept e).1 = Some (c_db c).
Proof. unfold render. by destruct (generate_html _ _ _ _). Qed.

(** How a backfill pass that is let through to the stream ends. *)
Lemma process_entity_loop w eid stream limit dm now :
  ∃ c stop,
    message_loop (body get_entity find_all_a json_dumps_preview json_dumps_reactions
                    Backfill dm (SqlInt eid) now)
      None (iter_messages stream limit)
      {| c_db := create_tables (default ∅ (w_store w)); c_files := w_files w;
         c_log := w_log w |} = (c, stop)
    ∧ w_store (backfill w eid false stream limit dm now).1 = Some (c_db c)
    ∧ ∀ e, stop = Some e → benign e →
           (backfill w eid false stream limit dm now).2 = Some e.
Proof.
  unfold backfill, process_entity.
  destruct (message_loop _ _ _ _) as [c stop] eqn:E. exists c, stop.
  split; [done|]. split.
  - destruct stop as [[]|]; simpl; rewrite ?render_store; done.
  - intros e -> Hb. by destruct e.
Qed.

End Backfill.

(** C2. Running the backfill pass a second time over the same stream leaves
    the messages table exactly as the first pass left it: every insert of
    the second pass is ignored, whatever the collaborators answer and
    whatever the clock says on the second run.  Rows present before a pass
    are never touched and the primary key stays without duplicates. *)
Theorem backfill_idempotent
    ge fa jp jr fi rp ge' fa' jp' jr' fi' rp'
    (w : World) (eid : Z) (forbidden : bool) (stream : list Event)
    (limit : option nat) (dm dm' : bool) (now now' : string) :
  messages_keyed w →
  Forall is_item stream →
  (process_entity ge fa jp jr fi rp w eid forbidden stream limit dm now).2 = None →
  let w1 := (process_entity ge fa jp jr fi rp w eid forbidden stream limit dm now).1 in
  let w2 := (process_entity ge' fa' jp' jr' fi' rp' w1 eid forbidden stream limit dm' now').1 in
  messages_of w2 = messages_of w1
  ∧ (∀ t, messages_of w = Some t →
          ∃ t1, messages_of w1 = Some t1 ∧ tbl_rows t `prefix_of` tbl_rows t1)
  ∧ ((∀ t, messages_of w = Some t → unique_keys t) →
     ∀ t1, messages_of w1 = Some t1 → unique_keys t1).
Proof.
  intros Hkey Hitems Hnone. destruct forbidden.
  { unfold process_entity, messages_of. simpl. split_and!; [done| |done].
    intros t Ht. by exists t. }
  destruct (process_entity_loop ge fa jp jr fi rp w eid stream limit dm now)
    as (c1 & stop & Hloop & Hst & Hesc).
  assert (stop = None) as ->.
  { destruct stop as [e|]; [|done].
    pose proof (loop_stop_benign _ _ _ _ _ _ _ _ _ _ _ _ _ Hloop
                  (iter_messages_items _ _ Hitems)) as Hb.
    rewrite (Hesc e eq_refl Hb) in Hnone. done. }
  set (t0 := default messages_table (default ∅ (w_store w) !! "messages")).
  assert (tbl_key t0 = ["id"; "entity_id"]) as Hk0.
  { unfold t0. destruct (w_store w) as [db|] eqn:Ew; simpl.
    - destruct (db !! "messages") as [t|] eqn:Et; simpl; [|done].
      apply Hkey. unfold messages_of. rewrite Ew. simpl. done.
    - by rewrite lookup_empty. }
  pose proof (create_tables_messages (default ∅ (w_store w))) as Hc0. fold t0 in Hc0.
  destruct (loop_commits_all _ _ _ _ _ _ _ _ _ _ _ _ Hloop
              (iter_messages_items _ _ Hitems) Hc0 Hk0) as (t1 & Ht1 & Hall).
  destruct (loop_extends _ _ _ _ _ _ _ _ _ _ _ _ _ _ Hloop Hc0)
    as (_ & t1' & Ht1' & Hsh & Hpre & Huniq).
  assert (t1' = t1) as -> by congruence.
  intros w1 w2.
  assert (messages_of w1 = Some t1) as Hw1.
  { unfold messages_of, w1. rewrite Hst. done. }
  split_and!.
  - rewrite Hw1.
    destruct (process_entity_loop ge' fa' jp' jr' fi' rp' w1 eid stream limit dm' now')
      as (c2 & stop2 & Hloop2 & Hst2 & _).
    unfold messages_of, w2. rewrite Hst2. simpl.
    eapply loop_all_present; [exact Hloop2| | |exact Hall].
    + simpl. rewrite create_tables_messages. unfold w1. rewrite Hst. simpl.
      by rewrite Ht1.
    + change (tbl_key t1) with (shape t1).2. by rewrite Hsh.
  - intros t Ht. exists t1. split; [done|].
    unfold messages_of in Ht. unfold t0 in Hpre.
    destruct (w_store w) as [db|]; simpl in *; [|done]. by rewrite Ht in Hpre.
  - intros Hu tx Htx. assert (tx = t1) as -> by congruence.
    apply Huniq. unfold t0, messages_of in *.
    destruct (w_store w) as [db|]; simpl in *.
    + destruct (db !! "messages") as [t|] eqn:Et; simpl; [by apply Hu|].
      by intros i j r1 r2 H.
    + rewrite lookup_empty. simpl. by intros i j r1 r2 H.
Qed.

(** ** Update *)

Lemma current_schema_wf db : current_schema db → wf_db db.
Proof.
  intros ((t & Ht & [= Hc _ Hk]) & (tr & Htr & [= Hcr _ _])
          & (tp & Htp & [= Hcp _ _]) & (tb & Htb & [= Hcb _ _])).
  split_and!; eexists; (split; [eassumption|]); rewrite ?Hcr, ?Hcp, ?Hcb; try done.
  split; [done|]. unfold has_column, col_names. rewrite Hc.
  by apply (bool_decide_unpack _); vm_compute.
Qed.

Lemma table_sql_shape name t t' : shape t = shape t' → table_sql name t = table_sql name t'.
Proof. intros [= Hc Hx _]. unfold table_sql. by rewrite Hc, Hx. Qed.

Lemma migrate_messages_current t :
  shape t = shape messages_table → migrate_messages t = t.
Proof.
  intros Hs. unfold migrate_messages, add_flag.
  rewrite (table_sql_shape _ _ _ Hs).
  replace (Str.contains "is_service_message" (table_sql "messages" messages_table))
    with true by (by vm_compute).
  replace (Str.contains "is_voice_message" (table_sql "messages" messages_table))
    with true by (by vm_compute).
  replace (Str.contains "is_pinned" (table_sql "messages" messages_table))
    with true by (by vm_compute).
  replace (Str.contains "user_id" (table_sql "messages" messages_table))
    with true by (by vm_compute).
  done.
Qed.

Lemma migration_log_current t :
  shape t = shape messages_table → migration_log t = [].
Proof.
  intros Hs. unfold migration_log. rewrite (table_sql_shape _ _ _ Hs). by vm_compute.
Qed.

Lemma entity_id_current t e :
  shape t = shape messages_table → entity_id_after_migration t e = e.
Proof.
  intros Hs. unfold entity_id_after_migration. rewrite (table_sql_shape _ _ _ Hs).
  replace (Str.contains "user_id" (table_sql "messages" messages_table))
    with true by (by vm_compute).
  done.
Qed.

Lemma migrate_replies_current (db : Db) rt :
  db !! "replies" = Some rt → shape rt = shape replies_table →
  migrate_replies db = db ∧ replies_log db = [].
Proof.
  intros Hr Hs. unfold migrate_replies, replies_log. rewrite Hr.
  rewrite (table_sql_shape _ _ _ Hs).
  replace (Str.contains "quote_text" (table_sql "replies" replies_table))
    with true by (by vm_compute).
  done.
Qed.


Lemma max_id_attained t e mx :
  max_id t (SqlInt e) = Some mx →
  ∃ r, r ∈ tbl_rows t ∧ cell r "entity_id" = SqlInt e ∧ cell r "id" = SqlInt mx.
Proof.
  unfold max_id. revert mx. induction (tbl_rows t) as [|r0 rows IH]; intros mx; simpl; [done|].
  destruct (sql_eq (cell r0 "entity_id") (SqlInt e)) eqn:Ee.
  - apply sql_eq_true in Ee as [_ Ee].
    destruct (cell r0 "id") as [|i|s] eqn:Ei.
    + intros H. destruct (IH _ H) as (r & ? & ? & ?). exists r. split; [by right|done].
    + destruct (foldr _ _ rows) as [a|] eqn:Ef.
      * intros [= <-]. destruct (Z.max_spec i a) as [[? ->]|[? ->]].
        -- destruct (IH _ eq_refl) as (r & ? & ? & ?). exists r. split; [by right|done].
        -- exists r0. split; [by left|done].
      * intros [= <-]. exists r0. split; [by left|done].
    + intros H. destruct (IH _ H) as (r & ? & ? & ?). exists r. split; [by right|done].
  - intros H. destruct (IH _ H) as (r & ? & ? & ?). exists r. split; [by right|done].
Qed.

Lemma items_of_stream stream : Forall is_item stream → stream = Item <$> items stream.
Proof.
  induction stream as [|[m|e] rest IH]; intros H; simpl; [done| |].
  - apply Forall_cons in H as [_ H]. unfold items in *. simpl. f_equal. by apply IH.
  - by apply Forall_cons in H as [[] _].
Qed.



Section UpdateLoop.

Variable get_entity : EntityRef → result Entity.
Variable find_all_a : string → list Anchor.
Variable json_dumps_preview : PreviewData → string.
Variable json_dumps_reactions : list (string * Z) → string.

Local Notation run_body p dm eid now :=
  (body get_entity find_all_a json_dumps_preview json_dumps_reactions
     p dm (SqlInt eid) now) (only parsing).

(** On a well-formed store a message whose anchors all carry a target is
    always committed, whatever the collaborators do. *)
Lemma body_succeeds p dm eid now m c :
  wf_db (c_db c) → links_ok find_all_a m →
  ∃ c' t row, run_body p dm eid now m c = (c', Ok ())
    ∧ same_shape (c_db c) (c_db c')
    ∧ c_db c !! "messages" = Some t
    ∧ c_db c' !! "messages" = Some (insert_row OrIgnore row t)
    ∧ cell row "id" = SqlInt (m_id m) ∧ cell row "entity_id" = SqlInt eid.
Proof.
  intros Hwf Hl. destruct (run_body p dm eid now m c) as [c' r] eqn:E.
  destruct (process_message_spec _ _ _ _ _ _ _ _ _ _ _ _ E) as (Hs & Hr & Hok).
  destruct r as [[]|e].
  - destruct (Hok eq_refl) as (t & row & ? & ? & ? & ?). by exists c', t, row.
  - destruct (Hr e eq_refl) as [_ Hn]. by destruct (Hn Hl).
Qed.


End UpdateLoop.


(** ** Media dedup *)

Lemma unique_row t (r1 r2 : Row) i e :
  tbl_key t = ["id"; "entity_id"] → unique_keys t →
  r1 ∈ tbl_rows t → r2 ∈ tbl_rows t →
  cell r1 "id" = SqlInt i → cell r1 "entity_id" = SqlInt e →
  cell r2 "id" = SqlInt i → cell r2 "entity_id" = SqlInt e →
  r1 = r2.
Proof.
  intros Hk Hu H1 H2 Hi1 He1 Hi2 He2.
  apply list_elem_of_lookup in H1 as [n1 H1]. apply list_elem_of_lookup in H2 as [n2 H2].
  assert (n1 = n2) as ->; [|congruence].
  eapply Hu; [done..|]. rewrite Hk. by apply (conflicts_pk r1 r2 i e).
Qed.

Lemma select_media_elem t eid id mt (r : Row) :
  r ∈ select_media t (SqlInt eid) id mt ↔ prior_record t eid id mt r.
Proof.
  unfold select_media, prior_record. rewrite list_elem_of_filter.
  rewrite !andb_true_iff, !sql_eq_true. split.
  - intros ((([_ ?] & [_ ?]) & [_ ?]) & ?). done.
  - intros (? & Hi & He & Hm). rewrite Hi, He, Hm. done.
Qed.

Lemma media_exists_true files t eid id mt :
  tbl_key t = ["id"; "entity_id"] → unique_keys t →
  media_exists files t (SqlInt eid) id mt = true
  ↔ ∃ r p, prior_record t eid id mt r ∧ cell r "media_file" = SqlText p
           ∧ is_Some (files !! p).
Proof.
  intros Hk Hu. unfold media_exists, path_exists. split.
  - destruct (head _) as [r|] eqn:Eh; [|done].
    apply head_Some_elem_of, select_media_elem in Eh.
    destruct (cell r "media_file") as [| |p] eqn:Ef; [done|done|].
    rewrite bool_decide_eq_true. intros Hp. by exists r, p.
  - intros (r & p & Hr & Hf & Hp).
    destruct (head _) as [r'|] eqn:Eh.
    + apply head_Some_elem_of, select_media_elem in Eh.
      destruct Hr as (? & ? & ? & ?), Eh as (? & ? & ? & ?).
      assert (r' = r) as -> by by eapply unique_row.
      rewrite Hf. by apply bool_decide_eq_true.
    + apply select_media_elem in Hr. apply head_None in Eh. rewrite Eh in Hr.
      by apply elem_of_nil in Hr.
Qed.

Lemma select_media_file_hash_prior t eid id mt (r : Row) :
  tbl_key t = ["id"; "entity_id"] → unique_keys t →
  prior_record t eid id mt r →
  select_media_file_hash t (SqlInt eid) id
  = Some (cell r "media_file", cell r "media_hash").
Proof.
  intros Hk Hu (Hin & Hi & He & _). unfold select_media_file_hash.
  destruct (head _) as [r'|] eqn:Eh; simpl.
  - apply head_Some_elem_of, list_elem_of_filter in Eh as [Hp Hin'].
    rewrite andb_true_iff, !sql_eq_true in Hp. destruct Hp as [[_ Hi'] [_ He']].
    assert (r' = r) as -> by by eapply unique_row. done.
  - apply head_None in Eh.
    assert (r ∈ filter (λ r0 : Row, sql_eq (cell r0 "id") (SqlInt id)
                          && sql_eq (cell r0 "entity_id") (SqlInt eid) = true)
               (tbl_rows t)) as Hr.
    { apply list_elem_of_filter. split; [|done].
      rewrite andb_true_iff, !sql_eq_true, Hi, He. done. }
    rewrite Eh in Hr. by apply elem_of_nil in Hr.
Qed.

(** C3. With media download on, the dedup decision says "do not fetch"
    exactly when the store holds a record for this (entity, message, media
    type) whose media path is set and still exists on disk; the backfill
    pass then takes path and hash from that record and neither writes a
    file nor prints anything. *)
Theorem media_dedup_spec (c : Conn) (t : Table) (eid : Z) (m : Message) (md : Media) :
  c_db c !! "messages" = Some t → tbl_key t = ["id"; "entity_id"] → unique_keys t →
  m_media m = Some md →
  (media_exists (c_files c) t (SqlInt eid) (m_id m) (media_tag md) = true
   ↔ ∃ r p, prior_record t eid (m_id m) (media_tag md) r
            ∧ cell r "media_file" = SqlText p ∧ is_Some (c_files c !! p))
  ∧ (media_exists (c_files c) t (SqlInt eid) (m_id m) (media_tag md) = true →
     ∃ r, prior_record t eid (m_id m) (media_tag md) r
          ∧ fetch_media Backfill true (SqlInt eid) m c
            = (c, Ok (SqlText (media_tag md), cell r "media_file",
                      cell r "media_hash", is_voice md))).
Proof.
  intros Ht Hk Hu Hm. split; [by apply media_exists_true|].
  intros Hex. pose proof Hex as Hex'.
  apply media_exists_true in Hex' as (r & p & Hr & _); [|done..].
  exists r. split; [done|].
  unfold fetch_media. rewrite Hm. unfold bind, select. rewrite Ht, Hex. simpl.
  rewrite Ht. by rewrite (select_media_file_hash_prior _ _ _ _ r Hk Hu Hr).
Qed.

(** ** Update without a messages table *)

(** C10. Without a store file, or with a file that has no messages table,
    the update pass is the backfill pass over the whole stream, after one
    line of notice; when the entity is accessible that pass leaves a store
    with a messages table. *)
Theorem update_falls_back
    ge fa jp jr fi rp (w : World) (eid : Z) (forbidden : bool)
    (stream : list Event) (dm : bool) (now : string) :
  lacks_messages w →
  ∃ line, line ∈ [LogNoDatabase; LogBadStructure]
    ∧ update_entity ge fa jp jr fi rp w eid forbidden stream dm now
      = process_entity ge fa jp jr fi rp (with_log line w) eid forbidden stream
          None dm now
    ∧ (forbidden = false →
       is_Some (messages_of
         (update_entity ge fa jp jr fi rp w eid forbidden stream dm now).1)).
Proof.
  unfold lacks_messages. intros Hl.
  assert (∀ line, forbidden = false →
            is_Some (messages_of (process_entity ge fa jp jr fi rp (with_log line w)
                                    eid forbidden stream None dm now).1)) as Hmsg.
  { intros line ->.
    destruct (process_entity_loop ge fa jp jr fi rp (with_log line w) eid stream None dm now)
      as (c & stop & Hloop & Hst & _).
    destruct (loop_extends _ _ _ _ _ _ _ _ _ _ _ _ _ _ Hloop
                (create_tables_messages _)) as (_ & t' & Ht' & _).
    unfold messages_of. rewrite Hst. simpl. by rewrite Ht'. }
  unfold update_entity. destruct (w_store w) as [db|] eqn:Ew.
  - rewrite Hl. exists LogBadStructure. split_and!; [set_solver|done|apply Hmsg].
  - exists LogNoDatabase. split_and!; [set_solver|done|apply Hmsg].
Qed.

(** ** Rate limiting *)


(** Without a cursor the loop gets through the run unless a message
    fails. *)
Lemma loop_app_fault_backfill body pre e rest c c' :
  Forall is_item pre →
  message_loop body None pre c = (c', None) →
  message_loop body None (pre ++ Fault e :: rest) c = (c', Some e).
Proof.
  revert c. induction pre as [|[m|e'] pre IH]; intros c Hit; simpl.
  - by intros [= <-].
  - apply Forall_cons in Hit as [_ Hit].
    destruct (body m c) as [c1 [[]|e1]]; [by apply IH|done].
  - by apply Forall_cons in Hit as [[] _].
Qed.

Section Render.

Variable fromisoformat : string → option Date.
Variable relpath : string → string.

Lemma render_fields c slept e :
  let r := render fromisoformat relpath c slept e in
  w_store r.1 = Some (c_db c) ∧ w_files r.1 = c_files c ∧ w_slept r.1 = slept.
Proof. unfold render. by destruct (generate_html _ _ _ _). Qed.

Lemma render_add_log l c slept slept' e :
  let r := render fromisoformat relpath c slept e in
  let r' := render fromisoformat relpath (add_log l c) slept' e in
  r'.2 = r.2 ∧ w_html r'.1 = w_html r.1 ∧ w_store r'.1 = w_store r.1
  ∧ w_files r'.1 = w_files r.1 ∧ w_slept r'.1 = slept'
  ∧ (r.2 = None → ∃ L, w_log r.1 = L ++ [LogHtmlGenerated]
                      ∧ w_log r'.1 = L ++ [l; LogHtmlGenerated]).
Proof.
  unfold render, add_log. simpl. destruct (generate_html _ _ _ _); simpl.
  - split_and!; try done. intros _. exists (c_log c). by rewrite <- app_assoc.
  - split_and!; done.
Qed.

End Render.


(** ** Failures inside one message *)

Lemma create_tables_current (store : option Db) :
  match store with None => True | Some db => current_schema db end →
  current_schema (create_tables (default ∅ store)).
Proof.
  intros H. unfold current_schema, create_tables.
  destruct store as [db|]; simpl.
  - destruct H as ((t & Ht & Hs) & (tr & Htr & Hsr) & (tp & Htp & Hsp) & (tb & Htb & Hsb)).
    split_and!; eexists;
      (split; [rewrite ?create_if_absent_ne by done; rewrite create_if_absent_eq;
               rewrite ?create_if_absent_ne by done;
               rewrite ?Ht, ?Htr, ?Htp, ?Htb; reflexivity|done]).
  - split_and!; eexists;
      (split; [rewrite ?create_if_absent_ne by done; rewrite create_if_absent_eq;
               rewrite ?create_if_absent_ne by done;
               rewrite ?lookup_empty; reflexivity|done]).
Qed.

Lemma generate_html_ok fi rp (db : Db) e :
  wf_db db → ∃ g, generate_html fi rp db e = Ok g.
Proof.
  intros ((t & Ht & _) & (tr & Htr & _) & _ & (tb & Htb & _)).
  unfold generate_html, select_digest. rewrite Ht, Htb, Htr. simpl. eauto.
Qed.

Lemma render_ok fi rp c slept e :
  wf_db (c_db c) → (render fi rp c slept e).2 = None.
Proof.
  intros Hwf. unfold render. by destruct (generate_html_ok fi rp _ e Hwf) as [g ->].
Qed.

Section Isolation.

Variable get_entity : EntityRef → result Entity.
Variable find_all_a : string → list Anchor.
Variable json_dumps_preview : PreviewData → string.
Variable json_dumps_reactions : list (string * Z) → string.
Variable fromisoformat : string → option Date.
Variable relpath : string → string.

Local Notation run_body p dm eid now :=
  (body get_entity find_all_a json_dumps_preview json_dumps_reactions
     p dm (SqlInt eid) now) (only parsing).




End Isolation.


(** ** The probes of [extract_user_id] *)

Section Probes.

#[local] Arguments String.append : simpl nomatch.

Lemma strip_prefix_spec p s r : Str.strip_prefix p s = Some r ↔ s = p +:+ r.
Proof.
  revert s. induction p as [|a p IH]; intros s; simpl.
  - split; congruence.
  - destruct s as [|b s]; [split; discriminate|].
    destruct (decide (a = b)) as [->|Hne].
    + rewrite IH. split; [by intros ->|by intros [=]].
    + split; [discriminate|]. intros [=]. congruence.
Qed.

Lemma take_drop_digits s : s = Str.take_digits s +:+ Str.drop_digits s.
Proof.
  induction s as [|c s IH]; simpl; [done|].
  destruct (Str.is_digit c); simpl; congruence.
Qed.

Lemma all_digits_take s : Str.all_digits (Str.take_digits s) = true.
Proof.
  induction s as [|c s IH]; simpl; [done|].
  destruct (Str.is_digit c) eqn:E; simpl; [by rewrite E|done].
Qed.

Lemma starts_drop_digits s : Str.starts_with_digit (Str.drop_digits s) = false.
Proof.
  induction s as [|c s IH]; simpl; [done|].
  destruct (Str.is_digit c) eqn:E; simpl; done.
Qed.

Lemma take_digits_app d post :
  Str.all_digits d = true → Str.starts_with_digit post = false →
  Str.take_digits (d +:+ post) = d.
Proof.
  induction d as [|c d IH]; simpl; intros Hd Hp.
  - destruct post as [|c p]; simpl in *; [done|]. by rewrite Hp.
  - apply andb_prop in Hd as [Hc Hd]. rewrite Hc. f_equal. by apply IH.
Qed.

Lemma isdigit_all d : Str.isdigit d = true ↔ d ≠ "" ∧ Str.all_digits d = true.
Proof. destruct d; simpl; naive_solver. Qed.

Lemma match_here_Some key s d :
  match_here key s = Some d ↔ ∃ post, matches_at key s "" d post.
Proof.
  unfold match_here, matches_at. simpl. split.
  - destruct (Str.strip_prefix key s) as [rest|] eqn:E; [|done].
    apply strip_prefix_spec in E. intros H.
    assert (Str.take_digits rest = d ∧ d ≠ "") as [Hd Hne].
    { destruct (Str.take_digits rest); [done|]. by inversion H. }
    exists (Str.drop_digits rest). split_and!.
    + rewrite E. f_equal. rewrite <- Hd. apply take_drop_digits.
    + apply isdigit_all. split; [done|]. rewrite <- Hd. apply all_digits_take.
    + apply starts_drop_digits.
  - intros (post & -> & Hd & Hp).
    apply isdigit_all in Hd as [Hne Hd].
    assert (Str.strip_prefix key (key +:+ d +:+ post) = Some (d +:+ post)) as ->
      by by apply strip_prefix_spec.
    rewrite take_digits_app by done. by destruct d.
Qed.











End Probes.

(** ** Schema migration *)






Lemma add_flag_cols s f t :
  tbl_cols (add_flag s f t)
  = tbl_cols t ++ (if Str.contains f s then [] else [(f, "BOOLEAN DEFAULT 0")]).
Proof. unfold add_flag. destruct (Str.contains f s); simpl; [by rewrite app_nil_r|done]. Qed.

(** The backfill loop, seen from one row of the table. *)
Lemma backfill_user_id_rows fetched t :
  tbl_rows (backfill_user_id fetched t)
  = (λ r, foldl backfill_step r fetched) <$> tbl_rows t
  ∧ tbl_cols (backfill_user_id fetched t) = tbl_cols t.
Proof.
  revert t. induction fetched as [|row rest IH]; intros t; simpl.
  - by rewrite list_fmap_id.
  - unfold backfill_user_id in *. simpl.
    destruct (extract_user_id (from_id_str (cell row "from_id"))) as [u|] eqn:Eu.
    + destruct (IH (update_where_key "user_id" (SqlText u) (cell row "id")
                      (cell row "entity_id") t)) as [-> ->].
      split; [|done]. simpl. rewrite <- list_fmap_compose. apply list_fmap_ext.
      intros i r _. simpl. f_equal. unfold backfill_step, key_match, with_user_id,
        derived_user_id. rewrite Eu. done.
    + destruct (IH t) as [-> ->]. split; [|done]. apply list_fmap_ext.
      intros i r _. simpl. f_equal. unfold backfill_step, with_user_id, derived_user_id.
      rewrite Eu. by case_match.
Qed.






(** ** The digest *)

Lemma compare_lt_trans a b c :
  String.compare a b = Lt → String.compare b c = Lt → String.compare a c = Lt.
Proof. exact (@StrictOrder_Transitive _ _ String_as_OT.lt_strorder a b c). Qed.

Lemma string_leb_trans a b c :
  String.leb a b = true → String.leb b c = true → String.leb a c = true.
Proof.
  unfold String.leb.
  destruct (String.compare a b) eqn:E1; [|
    destruct (String.compare b c) eqn:E2|]; try (by intros [=]).
  - apply String.compare_eq_iff in E1 as ->. done.
  - apply String.compare_eq_iff in E2 as ->. by rewrite E1.
  - by rewrite (compare_lt_trans _ _ _ E1 E2).
Qed.

Lemma sql_le_total a b : sql_le a b = true ∨ sql_le b a = true.
Proof.
  destruct a as [|x|x], b as [|y|y]; simpl; auto.
  - destruct (Z.leb_spec x y); [by left|right]. apply Z.leb_le. lia.
  - apply String.leb_total.
Qed.

Lemma sql_le_trans a b c :
  sql_le a b = true → sql_le b c = true → sql_le a c = true.
Proof.
  destruct a as [|x|x], b as [|y|y], c as [|z|z]; simpl; try done.
  - rewrite !Z.leb_le. lia.
  - apply string_leb_trans.
Qed.

Lemma date_desc_total : Total date_desc.
Proof. intros a b. unfold date_desc. apply sql_le_total. Qed.

Lemma date_desc_trans : Transitive date_desc.
Proof. intros a b c Hab Hbc. unfold date_desc in *. by eapply sql_le_trans. Qed.

Lemma StronglySorted_filter_keep {A} (R : relation A) (P : A → Prop)
    `{∀ x, Decision (P x)} l :
  StronglySorted R l → StronglySorted R (filter P l).
Proof.
  induction 1 as [|x l Hs IH Hall]; [constructor|].
  rewrite filter_cons. case_decide; [|done].
  constructor; [done|]. apply Forall_forall. intros y [_ Hy]%list_elem_of_filter.
  by eapply Forall_forall in Hall.
Qed.

Lemma filter_none {A} (P : A → Prop) `{∀ x, Decision (P x)} l :
  (∀ y, y ∈ l → ¬ P y) → filter P l = [].
Proof.
  induction l as [|x l IH]; [done|]. intros Hn.
  rewrite filter_cons, decide_False by (apply Hn; by left).
  apply IH. intros y Hy. apply Hn. by right.
Qed.

Lemma StronglySorted_fmap_keep {A} (R : relation A) (f : A → A) l :
  (∀ x y, R x y → R (f x) (f y)) →
  StronglySorted R l → StronglySorted R (f <$> l).
Proof.
  intros Hf. induction 1 as [|x l Hs IH Hall]; simpl; constructor; [done|].
  apply Forall_fmap. eapply Forall_impl; [done|]. intros y. apply Hf.
Qed.

Section DigestFacts.
Variable fromisoformat : string → option Date.
Variable relpath : string → string.

Lemma relative_media_timestamp x :
  timestamp (relative_media relpath x) = timestamp x.
Proof.
  unfold relative_media, timestamp.
  destruct (cell (dg_msg x) "media_file") as [| |[|c p]]; try done.
  simpl. unfold cell. by rewrite lookup_insert_ne.
Qed.

Lemma day_str_timestamp x y :
  timestamp x = timestamp y → day_str fromisoformat x = day_str fromisoformat y.
Proof. unfold timestamp, day_str. by intros ->. Qed.

Lemma day_str_label x :
  date_textual (dg_msg x) → day_label fromisoformat (timestamp x) (day_str fromisoformat x).
Proof.
  unfold date_textual, timestamp, day_str.
  destruct (cell (dg_msg x) "date") as [|z|s]; [constructor|done|].
  intros _. destruct (Str.has_char "T" s) eqn:Ht; [|by constructor].
  destruct (fromisoformat s) eqn:Hp; by constructor.
Qed.

Lemma day_str_calendar_day x d :
  calendar_day fromisoformat (dg_msg x) = Some d →
  day_str fromisoformat x = strftime d.
Proof.
  unfold calendar_day, day_str.
  destruct (cell (dg_msg x) "date") as [|z|s]; try done.
  destruct (Str.has_char "T" s); [|done]. by intros ->.
Qed.

Lemma relative_media_date_desc x y :
  date_desc x y → date_desc (relative_media relpath x) (relative_media relpath y).
Proof.
  unfold date_desc. fold (timestamp x) (timestamp y)
    (timestamp (relative_media relpath x)) (timestamp (relative_media relpath y)).
  by rewrite !relative_media_timestamp.
Qed.

Lemma add_to_group_keys k x g :
  (add_to_group k x g).*1 = if decide (k ∈ g.*1) then g.*1 else g.*1 ++ [k].
Proof.
  induction g as [|[k' xs] g IH]; cbn [add_to_group].
  - simpl. destruct (decide (k ∈ [])) as [H|_]; [by apply elem_of_nil in H|done].
  - destruct (decide (k = k')) as [->|Hne]; rewrite !fmap_cons; cbn [fst].
    + rewrite decide_True; [done|by left].
    + rewrite IH. destruct (decide (k ∈ g.*1)) as [Hin|Hnin].
      * rewrite decide_True; [done|by right].
      * rewrite decide_False; [done|]. intros [?|?]%elem_of_cons; done.
Qed.

Lemma add_to_group_elem k x g k' xs' :
  NoDup g.*1 → (k', xs') ∈ add_to_group k x g →
  (k' ≠ k ∧ (k', xs') ∈ g)
  ∨ (k' = k ∧ ∃ xs, xs' = xs ++ [x] ∧ ((k, xs) ∈ g ∨ (xs = [] ∧ k ∉ g.*1))).
Proof.
  induction g as [|[k0 xs0] g IH]; simpl; intros Hnd Hin.
  - apply list_elem_of_singleton in Hin as [= -> ->]. right. split; [done|].
    exists []. split; [done|]. right. split; [done|]. apply not_elem_of_nil.
  - apply NoDup_cons in Hnd as [Hk0 Hnd].
    destruct (decide (k = k0)) as [->|Hne].
    + apply elem_of_cons in Hin as [[= -> ->]|Hin].
      * right. split; [done|]. exists xs0. split; [done|]. left. by left.
      * left. split; [|by right]. intros ->. apply Hk0.
        apply list_elem_of_fmap. by exists (k0, xs').
    + apply elem_of_cons in Hin as [[= -> ->]|Hin].
      * left. split; [done|by left].
      * destruct (IH Hnd Hin) as [[? ?]|[-> (xs & -> & [H|[-> H]])]].
        -- left. split; [done|by right].
        -- right. split; [done|]. exists xs. split; [done|]. left. by right.
        -- right. split; [done|]. exists []. split; [done|]. right.
           split; [done|]. intros [?|?]%elem_of_cons; done.
Qed.

Lemma group_by_day_snoc l x :
  group_by_day fromisoformat (l ++ [x])
  = add_to_group (day_str fromisoformat x) x (group_by_day fromisoformat l).
Proof. unfold group_by_day. by rewrite foldl_app. Qed.

Lemma group_by_day_grouped l :
  grouped (day_str fromisoformat) l (group_by_day fromisoformat l).
Proof.
  induction l as [|x l IH] using rev_ind.
  - split_and!; [constructor|intros k xs H; by apply elem_of_nil in H|
                 intros x H; by apply elem_of_nil in H].
  - destruct IH as (Hnd & Hgr & Hcov). rewrite group_by_day_snoc.
    set (g := group_by_day fromisoformat l) in *.
    set (k := day_str fromisoformat x).
    split_and!.
    + rewrite add_to_group_keys. case_decide; [done|].
      apply NoDup_app. split_and!; [done| |apply NoDup_singleton].
      intros k' Hin ->%list_elem_of_singleton. done.
    + intros k' xs' Hin. rewrite filter_app.
      destruct (add_to_group_elem _ _ _ _ _ Hnd Hin)
        as [[Hne Hg]|[-> (xs & -> & [Hg|[-> Hk]])]].
      * destruct (Hgr _ _ Hg) as [? ->]. split; [done|].
        rewrite filter_cons, decide_False by (fold k; congruence).
        by rewrite filter_nil, app_nil_r.
      * destruct (Hgr _ _ Hg) as [? ->]. split; [by destruct (filter _ l)|].
        rewrite filter_cons, decide_True by done. by rewrite filter_nil.
      * split; [done|]. rewrite filter_cons, decide_True by done.
        rewrite filter_nil. f_equal. symmetry. apply filter_none.
        intros y Hy Hky. apply Hk. rewrite <- Hky. by apply Hcov.
    + intros y Hy. rewrite add_to_group_keys.
      apply elem_of_app in Hy as [Hy|Hy].
      * case_decide; [by apply Hcov|]. apply elem_of_app. left. by apply Hcov.
      * apply list_elem_of_singleton in Hy as ->. fold k. case_decide; [done|]. apply elem_of_app. right. by left.
Qed.

End DigestFacts.

Lemma digit_char_inj a b :
  0 ≤ a ≤ 9 → 0 ≤ b ≤ 9 → digit_char a = digit_char b → a = b.
Proof.
  intros Ha Hb H. apply (f_equal nat_of_ascii) in H. unfold digit_char in H.
  rewrite !nat_ascii_embedding in H by lia. lia.
Qed.

Section Calendar.

#[local] Arguments String.append : simpl nomatch.

Lemma month_name_sep m1 m2 r1 r2 :
  month_name m1 +:+ " " +:+ r1 = month_name m2 +:+ " " +:+ r2 → m1 = m2 ∧ r1 = r2.
Proof.
  destruct m1, m2; simpl; intros H; try discriminate H;
    injection H as H; by subst.
Qed.

Lemma strftime_inj d1 d2 :
  valid_date d1 → valid_date d2 → strftime d1 = strftime d2 → d1 = d2.
Proof.
  destruct d1 as [y1 m1 n1], d2 as [y2 m2 n2]. unfold valid_date, strftime. simpl.
  intros H1 H2 H. apply month_name_sep in H as [-> H].
  unfold two_digits in H. simpl in H. injection H as Ha Hb Hy.
  apply (inj pretty) in Hy as ->.
  apply digit_char_inj in Ha; [|Z.to_euclidean_division_equations; lia..].
  apply digit_char_inj in Hb; [|Z.to_euclidean_division_equations; lia..].
  f_equal. Z.to_euclidean_division_equations; lia.
Qed.

End Calendar.

Lemma filter_fst {A B} (P : A → Prop) `{∀ x, Decision (P x)} (l : list (A * B)) :
  (filter (λ g, P g.1) l).*1 = filter P l.*1.
Proof.
  induction l as [|[a b] l IH]; [done|].
  rewrite fmap_cons, !filter_cons. simpl. case_decide; [|done].
  by rewrite fmap_cons, IH.
Qed.

Lemma calendar_day_timestamp fromisoformat x (r : Row) :
  timestamp x = cell r "date" →
  calendar_day fromisoformat (dg_msg x) = calendar_day fromisoformat r.
Proof. unfold timestamp, calendar_day. by intros ->. Qed.

Lemma date_textual_timestamp x (r : Row) :
  timestamp x = cell r "date" → date_textual r → date_textual (dg_msg x).
Proof. unfold timestamp, date_textual. by intros ->. Qed.

Lemma grouped_label_inhabited key l groups k :
  grouped key l groups → k ∈ groups.*1 → ∃ x, x ∈ l ∧ key x = k.
Proof.
  intros (_ & Hgr & _) Hk. apply list_elem_of_fmap in Hk as ([k' xs] & -> & Hin).
  destruct (Hgr _ _ Hin) as [Hne Hxs]. destruct xs as [|x xs]; [done|].
  assert (x ∈ x :: xs) as Hx by by left. rewrite Hxs in Hx.
  apply list_elem_of_filter in Hx as [? ?]. by exists x.
Qed.

(** C9. The digest of one entity splits its stored records, read in
    descending timestamp order, into day-groups: one group per label, every
    record in the group of its label, the records of a group in descending
    timestamp order.  The label is the calendar day of the stored timestamp
    when it parses, the raw date prefix when it does not, ["Unknown Date"]
    when there is no date part.  The calendar days that the parseable
    timestamps span have one group each, so n distinct days give exactly n
    such groups, and exactly n groups in all when every timestamp parses. *)
Theorem digest_groups_by_day (fromisoformat : string → option Date)
    (relpath : string → string) (db : Db) (ms bs rs : Table) (e : sqlval) :
  db !! "messages" = Some ms → db !! "buttons" = Some bs →
  db !! "reactions" = Some rs →
  Forall date_textual (records_of ms e) →
  let days := remove_dups (omap (calendar_day fromisoformat) (records_of ms e)) in
  Forall valid_date days →
  ∃ sorted groups,
    generate_html fromisoformat relpath db (Some e) = Ok groups
    ∧ sorted ≡ₚ digest_row bs rs <$> records_of ms e
    ∧ StronglySorted date_desc sorted
    ∧ grouped (day_str fromisoformat) (relative_media relpath <$> sorted) groups
    ∧ Forall (λ g, StronglySorted date_desc g.2
                   ∧ Forall (λ x, day_label fromisoformat (timestamp x) g.1) g.2)
             groups
    ∧ length (filter (λ g, g.1 ∈ strftime <$> days) groups) = length days
    ∧ (Forall (λ r, is_Some (calendar_day fromisoformat r)) (records_of ms e) →
       length groups = length days).
Proof.
  intros Hms Hbs Hrs Htext days Hvalid.
  set (sorted := merge_sort date_desc (digest_row bs rs <$> records_of ms e)).
  set (msgs := relative_media relpath <$> sorted).
  exists sorted, (group_by_day fromisoformat msgs).
  assert (sorted ≡ₚ digest_row bs rs <$> records_of ms e) as Hperm
    by apply merge_sort_Permutation.
  assert (StronglySorted date_desc sorted) as Hsorted
    by apply (@StronglySorted_merge_sort _ date_desc _ date_desc_trans date_desc_total).
  pose proof (group_by_day_grouped fromisoformat msgs) as Hg.
  assert (∀ x, x ∈ msgs →
            ∃ r, r ∈ records_of ms e ∧ timestamp x = cell r "date") as Hfrom.
  { intros x Hx. apply list_elem_of_fmap in Hx as (x0 & -> & Hx0).
    rewrite Hperm in Hx0. apply list_elem_of_fmap in Hx0 as (r & -> & Hr).
    exists r. split; [done|]. by rewrite relative_media_timestamp. }
  assert (∀ r, r ∈ records_of ms e →
            ∃ x, x ∈ msgs ∧ timestamp x = cell r "date") as Hto.
  { intros r Hr. exists (relative_media relpath (digest_row bs rs r)). split.
    - apply list_elem_of_fmap_2. rewrite Hperm. by apply list_elem_of_fmap_2.
    - by rewrite relative_media_timestamp. }
  assert (∀ d, d ∈ days ↔
            ∃ r, r ∈ records_of ms e ∧ calendar_day fromisoformat r = Some d) as Hdays.
  { intros d. unfold days. rewrite elem_of_remove_dups, list_elem_of_omap. done. }
  assert (NoDup (strftime <$> days)) as Hnd.
  { apply NoDup_fmap_2_strong; [|apply NoDup_remove_dups].
    intros d1 d2 H1 H2. apply strftime_inj; by eapply Forall_forall. }
  assert (∀ k, k ∈ strftime <$> days → k ∈ (group_by_day fromisoformat msgs).*1)
    as Hsub.
  { intros k Hk. apply list_elem_of_fmap in Hk as (d & -> & Hd).
    apply Hdays in Hd as (r & Hr & Hcd). destruct (Hto r Hr) as (x & Hx & Hts).
    rewrite <- (day_str_calendar_day fromisoformat x).
    - destruct Hg as (_ & _ & Hcov). by apply Hcov.
    - by rewrite (calendar_day_timestamp _ _ r). }
  split_and!; [|done|done|done|..].
  - unfold generate_html, select_digest. rewrite Hms, Hbs, Hrs. done.
  - apply Forall_forall. intros [k xs] Hin. simpl.
    destruct Hg as (_ & Hgr & _). destruct (Hgr _ _ Hin) as [_ Hxs]. split.
    + rewrite Hxs. apply StronglySorted_filter_keep, StronglySorted_fmap_keep; [|done].
      apply relative_media_date_desc.
    + apply Forall_forall. intros x Hx. rewrite Hxs in Hx.
      apply list_elem_of_filter in Hx as [<- Hx].
      destruct (Hfrom x Hx) as (r & Hr & Hts).
      apply day_str_label. apply (date_textual_timestamp _ r); [done|].
      by eapply Forall_forall in Htext.
  - set (P := λ k : string, k ∈ strftime <$> days).
    change (length (filter (λ g, P g.1) (group_by_day fromisoformat msgs))
            = length days).
    trans (length (filter P (group_by_day fromisoformat msgs).*1)).
    { rewrite <- (filter_fst P), length_fmap. reflexivity. }
    rewrite <- (length_fmap strftime days).
    apply Permutation_length, NoDup_Permutation; [|done|].
    + apply NoDup_filter. by destruct Hg.
    + intros k. rewrite list_elem_of_filter. naive_solver.
  - intros Hall.
    rewrite <- (length_fmap fst (group_by_day _ _)), <- (length_fmap strftime days).
    apply Permutation_length, NoDup_Permutation; [by destruct Hg|done|].
    intros k. split; [|apply Hsub]. intros Hk.
    destruct (grouped_label_inhabited _ _ _ _ Hg Hk) as (x & Hx & <-).
    destruct (Hfrom x Hx) as (r & Hr & Hts).
    eapply Forall_forall in Hall; [|done]. destruct Hall as [d Hd].
    rewrite (day_str_calendar_day _ x d) by by rewrite (calendar_day_timestamp _ _ r).
    apply list_elem_of_fmap_2, Hdays. by exists r.
Qed.

(** ** The passes on sample data *)

Lemma distinct_keys_sound t :
  distinct_keys (tbl_key t) (tbl_rows t) = true → unique_keys t.
Proof.
  unfold unique_keys. generalize (tbl_key t) as key.
  induction (tbl_rows t) as [|r rows IH]; intros key Hd i j r1 r2 Hi Hj Hc.
  - by rewrite lookup_nil in Hi.
  - simpl in Hd. apply andb_true_iff in Hd as [Hall Hrest].
    rewrite forallb_forall in Hall.
    destruct i as [|i], j as [|j]; simpl in Hi, Hj; simplify_eq; [done|..].
    + apply list_elem_of_lookup_2, list_elem_of_In, Hall in Hj.
      rewrite Hc in Hj. done.
    + apply list_elem_of_lookup_2, list_elem_of_In, Hall in Hi.
      rewrite Hc, andb_false_r in Hi. done.
    + f_equal. by eapply IH.
Qed.

Ltac each tac :=
  repeat first [apply Forall_nil_2 | apply Forall_cons_2; [tac|]].


(** Backfilling the same four messages twice into a fresh store. *)
Lemma backfill_idempotent_witness :
  let w1 := (Sample.backfill Sample.fresh 5 false Sample.resume_stream None
               false Sample.now).1 in
  let w2 := (Sample.backfill w1 5 false Sample.resume_stream None true
               "2024-03-01T00:00:00+00:00").1 in
  messages_of w2 = messages_of w1
  ∧ (∀ t, messages_of Sample.fresh = Some t →
          ∃ t1, messages_of w1 = Some t1 ∧ tbl_rows t `prefix_of` tbl_rows t1)
  ∧ ((∀ t, messages_of Sample.fresh = Some t → unique_keys t) →
     ∀ t1, messages_of w1 = Some t1 → unique_keys t1).
Proof.
  apply (backfill_idempotent
           Sample.get_entity Sample.find_all_a Sample.json_dumps_preview
           Sample.json_dumps_reactions Sample.fromisoformat Sample.relpath
           Sample.get_entity Sample.find_all_a Sample.json_dumps_preview
           Sample.json_dumps_reactions Sample.fromisoformat Sample.relpath
           Sample.fresh 5 false Sample.resume_stream None false true Sample.now
           "2024-03-01T00:00:00+00:00").
  - intros t Ht. vm_compute in Ht. discriminate Ht.
  - each ltac:(exact I).
  - vm_compute. reflexivity.
Defined.

(** The photo of message 21 is on disk and recorded: it is not fetched
    again. *)
Lemma media_dedup_witness :
  let c := Sample.photo_conn in
  let t := Sample.table_of "messages" Sample.with_photo in
  (media_exists (c_files c) t (SqlInt 5) 21 "MessageMediaPhoto" = true
   ↔ ∃ r p, prior_record t 5 21 "MessageMediaPhoto" r
            ∧ cell r "media_file" = SqlText p ∧ is_Some (c_files c !! p))
  ∧ (media_exists (c_files c) t (SqlInt 5) 21 "MessageMediaPhoto" = true →
     ∃ r, prior_record t 5 21 "MessageMediaPhoto" r
          ∧ fetch_media Backfill true (SqlInt 5) Sample.photo_message c
            = (c, Ok (SqlText "MessageMediaPhoto", cell r "media_file",
                      cell r "media_hash", is_voice Sample.photo))).
Proof.
  apply (media_dedup_spec Sample.photo_conn
           (Sample.table_of "messages" Sample.with_photo) 5
           Sample.photo_message Sample.photo).
  - vm_compute. reflexivity.
  - vm_compute. reflexivity.
  - apply distinct_keys_sound. vm_compute. reflexivity.
  - reflexivity.
Defined.

(** The decision on the sample store: the recorded photo is reused while its
    file exists, and fetched again once the file is gone. *)
Lemma media_dedup_example :
  let c := Sample.photo_conn in
  let t := Sample.table_of "messages" Sample.with_photo in
  media_exists (c_files c) t (SqlInt 5) 21 "MessageMediaPhoto" = true
  ∧ fetch_media Backfill true (SqlInt 5) Sample.photo_message c
    = (c, Ok (SqlText "MessageMediaPhoto",
              SqlText "telegram_backups/media/photo_21.jpg",
              SqlText "9e107d9d372bb6826bd81d3542a419d6", false))
  ∧ media_exists ∅ t (SqlInt 5) 21 "MessageMediaPhoto" = false
  ∧ media_exists (c_files c) t (SqlInt 5) 21 "MessageMediaDocument" = false
  ∧ media_exists (c_files c) t (SqlInt 6) 21 "MessageMediaPhoto" = false.
Proof. vm_compute. done. Qed.


(** What the migration writes into the new columns of the legacy sample. *)
Lemma migration_example :
  (λ r : Row, (cell r "id", cell r "user_id", cell r "is_pinned"))
    <$> tbl_rows (migrate_messages Sample.legacy_messages)
  = [(SqlInt 1, SqlText "7", SqlInt 0); (SqlInt 2, SqlText "100", SqlInt 0);
     (SqlInt 3, SqlNull, SqlInt 0)].
Proof. vm_compute. reflexivity. Qed.

(** The probes of [extract_user_id] on sample references. *)
Lemma extract_user_id_examples :
  extract_user_id (Some "PeerUser(user_id=123)") = Some "123"
  ∧ extract_user_id (Some "PeerChannel(channel_id=45)") = Some "45"
  ∧ extract_user_id (Some "PeerChat(chat_id=6)") = Some "6"
  ∧ extract_user_id (Some "chat_id=6, channel_id=45") = Some "45"
  ∧ extract_user_id (Some "user_id=x, user_id=8") = Some "8"
  ∧ extract_user_id (Some "777") = Some "777"
  ∧ extract_user_id (Some "id 777") = None
  ∧ extract_user_id (Some "") = None
  ∧ extract_user_id None = None.
Proof. vm_compute. done. Qed.





(** C8. A plain message whose text holds two anchors: the pass stores one
    button record, the first anchor at row 0 and column 0, and none for the
    second anchor. *)
Theorem anchors_share_one_cell :
  let r := Sample.backfill Sample.fresh 5 false
             [Item (Sample.text_message 3 "2024-01-03T08:00:00+00:00"
                      Sample.two_links)]
             None false Sample.now in
  List.length (Sample.find_all_a Sample.two_links) = 2%nat
  ∧ r.2 = None
  ∧ Sample.stored_ids r.1 = [SqlInt 3]
  ∧ Sample.stored_buttons r.1
    = [(SqlInt 3, SqlInt 0, SqlInt 0, SqlText "one", SqlText "u1")].
Proof. vm_compute. done. Qed.

(** The digest of the sample store of three days. *)
Lemma digest_witness :
  let ms := Sample.table_of "messages" Sample.three_days in
  let bs := Sample.table_of "buttons" Sample.three_days in
  let rs := Sample.table_of "reactions" Sample.three_days in
  let days := remove_dups (omap (calendar_day Sample.fromisoformat)
                             (records_of ms (SqlInt 5))) in
  ∃ sorted groups,
    generate_html Sample.fromisoformat Sample.relpath
      (Sample.store_of Sample.three_days) (Some (SqlInt 5)) = Ok groups
    ∧ sorted ≡ₚ digest_row bs rs <$> records_of ms (SqlInt 5)
    ∧ StronglySorted date_desc sorted
    ∧ grouped (day_str Sample.fromisoformat)
        (relative_media Sample.relpath <$> sorted) groups
    ∧ Forall (λ g, StronglySorted date_desc g.2
                   ∧ Forall (λ x, day_label Sample.fromisoformat (timestamp x) g.1)
                            g.2) groups
    ∧ length (filter (λ g, g.1 ∈ strftime <$> days) groups) = length days
    ∧ (Forall (λ r, is_Some (calendar_day Sample.fromisoformat r))
         (records_of ms (SqlInt 5)) →
       length groups = length days).
Proof.
  apply (digest_groups_by_day Sample.fromisoformat Sample.relpath
           (Sample.store_of Sample.three_days)
           (Sample.table_of "messages" Sample.three_days)
           (Sample.table_of "buttons" Sample.three_days)
           (Sample.table_of "reactions" Sample.three_days) (SqlInt 5)).
  - vm_compute. reflexivity.
  - vm_compute. reflexivity.
  - vm_compute. reflexivity.
  - apply (bool_decide_unpack _). vm_compute. exact I.
  - apply (bool_decide_unpack _). vm_compute. exact I.
Defined.

(** The day-groups of the sample store: three days, three groups, newest
    first inside each. *)
Lemma digest_example :
  match generate_html Sample.fromisoformat Sample.relpath
          (Sample.store_of Sample.three_days) (Some (SqlInt 5)) with
  | Ok groups => Some (Sample.digest_outline groups)
  | Raise _ => None
  end
  = Some [("January 12, 2024", [SqlInt 6; SqlInt 5]);
          ("January 11, 2024", [SqlInt 4]);
          ("January 10, 2024", [SqlInt 3])].
Proof. vm_compute. reflexivity. Qed.

(** An update with no store file. *)
Lemma update_falls_back_witness :
  ∃ line, line ∈ [LogNoDatabase; LogBadStructure]
    ∧ Sample.update Sample.fresh 5 false Sample.resume_stream false Sample.now
      = Sample.backfill (with_log line Sample.fresh) 5 false Sample.resume_stream
          None false Sample.now
    ∧ (false = false →
       is_Some (messages_of
         (Sample.update Sample.fresh 5 false Sample.resume_stream false
            Sample.now).1)).
Proof.
  apply (update_falls_back Sample.get_entity Sample.find_all_a
           Sample.json_dumps_preview Sample.json_dumps_reactions
           Sample.fromisoformat Sample.relpath Sample.fresh 5 false
           Sample.resume_stream false Sample.now).
  exact I.
Defined.

(** * Further properties *)

Lemma insert_into_run name mode vals c t :
  c_db c !! name = Some t → length vals = length (tbl_cols t) →
  insert_into name mode vals c
  = (with_table name (insert_row mode (list_to_map (zip (col_names t) vals)) t) c, Ok ()).
Proof.
  intros Ht Hl. unfold insert_into, execute, on_table, insert_values. rewrite Ht.
  rewrite decide_True by done. done.
Qed.

Lemma conflicts_button (new r : Row) id eid i j :
  cell new "message_id" = SqlInt id → cell new "entity_id" = SqlInt eid →
  cell new "row" = SqlInt i → cell new "column" = SqlInt j →
  conflicts ["message_id"; "entity_id"; "row"; "column"] new r = true
  ↔ cell r "message_id" = SqlInt id ∧ cell r "entity_id" = SqlInt eid
    ∧ cell r "row" = SqlInt i ∧ cell r "column" = SqlInt j.
Proof.
  intros H1 H2 H3 H4. unfold conflicts. simpl. rewrite H1, H2, H3, H4.
  rewrite !andb_true_iff, !sql_eq_true. naive_solver.
Qed.

Lemma existsb_conflicts_button (new : Row) t id eid i j :
  tbl_key t = ["message_id"; "entity_id"; "row"; "column"] →
  cell new "message_id" = SqlInt id → cell new "entity_id" = SqlInt eid →
  cell new "row" = SqlInt i → cell new "column" = SqlInt j →
  existsb (conflicts (tbl_key t) new) (tbl_rows t) = true ↔ has_button t id eid i j.
Proof.
  intros Hk H1 H2 H3 H4. rewrite Hk, existsb_exists. unfold has_button.
  split.
  - intros (r & Hin & Hc). exists r. rewrite <- list_elem_of_In in Hin.
    split; [done|]. by eapply conflicts_button.
  - intros (r & Hin & Hc). exists r. rewrite <- list_elem_of_In.
    split; [done|]. by eapply conflicts_button.
Qed.

Lemma button_record_cells id eid i j text data url :
  cell (button_record id eid i j text data url) "message_id" = SqlInt id
  ∧ cell (button_record id eid i j text data url) "entity_id" = SqlInt eid
  ∧ cell (button_record id eid i j text data url) "row" = SqlInt i
  ∧ cell (button_record id eid i j text data url) "column" = SqlInt j
  ∧ cell (button_record id eid i j text data url) "text" = SqlText text
  ∧ cell (button_record id eid i j text data url) "data" = data
  ∧ cell (button_record id eid i j text data url) "url" = url.
Proof. split_and!; reflexivity. Qed.

(** One INSERT OR IGNORE into the buttons table. *)
Lemma insert_button_run c t id eid i j text data url :
  c_db c !! "buttons" = Some t → shape t = shape buttons_table →
  ∃ t', insert_into "buttons" OrIgnore
          [SqlInt id; SqlInt eid; SqlInt i; SqlInt j; SqlText text; data; url] c
        = (with_table "buttons" t' c, Ok ())
        ∧ shape t' = shape t
        ∧ (has_button t id eid i j → t' = t)
        ∧ (¬ has_button t id eid i j →
           tbl_rows t' = tbl_rows t ++ [button_record id eid i j text data url]).
Proof.
  intros Ht [= Hc Hcon Hk].
  rewrite (insert_into_run _ _ _ c t Ht) by (by rewrite Hc).
  assert (col_names t = col_names buttons_table) as -> by (unfold col_names; by rewrite Hc).
  fold (button_record id eid i j text data url).
  set (new := button_record id eid i j text data url).
  destruct (button_record_cells id eid i j text data url) as (C1 & C2 & C3 & C4 & _).
  pose proof (existsb_conflicts_button new t id eid i j Hk C1 C2 C3 C4) as Hex.
  eexists. split; [done|]. unfold insert_row.
  destruct (existsb (conflicts (tbl_key t) new) (tbl_rows t)) eqn:E.
  - split_and!; [done|done|]. intros Hn. destruct Hn. by apply Hex.
  - split_and!; [done| |done]. intros Hb. apply Hex in Hb. done.
Qed.

Lemma buttons_set_refl c t : c_db c !! "buttons" = Some t → buttons_set c c t.
Proof. intros H. split_and!; [|done|done]. by rewrite insert_id. Qed.

Lemma buttons_set_step c t1 c2 t2 :
  buttons_set (with_table "buttons" t1 c) c2 t2 → buttons_set c c2 t2.
Proof.
  intros (H1 & H2 & H3). split_and!; [|done|done].
  rewrite H1. simpl. apply insert_insert_eq.
Qed.

Lemma buttons_set_trans c c1 t1 c2 t2 :
  buttons_set c c1 t1 → buttons_set c1 c2 t2 → buttons_set c c2 t2.
Proof.
  intros (H1 & H2 & H3) (H1' & H2' & H3'). split_and!; [|congruence|congruence].
  rewrite H1', H1. apply insert_insert_eq.
Qed.

Lemma buttons_set_lookup c c' t' : buttons_set c c' t' → c_db c' !! "buttons" = Some t'.
Proof. intros (H & _). rewrite H. apply lookup_insert_eq. Qed.

Lemma keyboard_row_records_cons id eid i j b row :
  keyboard_row_records id eid i j (b :: row)
  = button_record id eid i j (btn_text b) (truthy_text (btn_data b))
      (truthy_text (btn_url b))
    :: keyboard_row_records id eid i (j + 1) row.
Proof.
  unfold keyboard_row_records. rewrite imap_cons. f_equal.
  - by rewrite Z.add_0_r.
  - apply imap_ext. intros k x _. simpl. f_equal. lia.
Qed.

Lemma keyboard_records_cons id eid i row rows :
  keyboard_records id eid i (row :: rows)
  = keyboard_row_records id eid i 0 row ++ keyboard_records id eid (i + 1) rows.
Proof.
  unfold keyboard_records. rewrite imap_cons. simpl. f_equal.
  - by rewrite Z.add_0_r.
  - f_equal. apply imap_ext. intros k x _. simpl. f_equal. lia.
Qed.

Lemma has_button_app t t' id eid i j new :
  tbl_rows t' = tbl_rows t ++ new →
  has_button t' id eid i j →
  has_button t id eid i j
  ∨ ∃ r, r ∈ new ∧ cell r "message_id" = SqlInt id ∧ cell r "entity_id" = SqlInt eid
         ∧ cell r "row" = SqlInt i ∧ cell r "column" = SqlInt j.
Proof.
  intros Hr (r & Hin & H). rewrite Hr in Hin.
  apply elem_of_app in Hin as [Hin|Hin]; [left; by exists r|right; by exists r].
Qed.

Lemma keyboard_row_records_cells id eid i j row r :
  r ∈ keyboard_row_records id eid i j row →
  cell r "message_id" = SqlInt id ∧ cell r "entity_id" = SqlInt eid
  ∧ cell r "row" = SqlInt i
  ∧ ∃ k, cell r "column" = SqlInt k ∧ j ≤ k.
Proof.
  revert j. induction row as [|b row IH]; intros j Hin.
  - by apply elem_of_nil in Hin.
  - rewrite keyboard_row_records_cons in Hin.
    apply elem_of_cons in Hin as [->|Hin].
    + split_and!; try reflexivity. exists j. split; [reflexivity|lia].
    + destruct (IH _ Hin) as (? & ? & ? & k & ? & ?).
      split_and!; try done. exists k. split; [done|lia].
Qed.

(** One row of the keyboard. *)
Lemma store_button_row_run eid id i row : ∀ j c t,
  c_db c !! "buttons" = Some t → shape t = shape buttons_table →
  (∀ j', j ≤ j' → ¬ has_button t id eid i j') →
  ∃ c' t', store_button_row eid id i j row c = (c', Ok ())
    ∧ buttons_set c c' t' ∧ shape t' = shape t
    ∧ tbl_rows t' = tbl_rows t ++ keyboard_row_records id eid i j row.
Proof.
  induction row as [|b row IH]; intros j c t Ht Hs Hfree.
  - exists c, t. split_and!; [done|by apply buttons_set_refl|done|].
    by rewrite app_nil_r.
  - cbn [store_button_row]. unfold bind.
    destruct (insert_button_run c t id eid i j (btn_text b) (truthy_text (btn_data b))
                (truthy_text (btn_url b)) Ht Hs) as (t1 & -> & Hs1 & _ & Hnew).
    specialize (Hnew (Hfree j ltac:(lia))).
    destruct (IH (j + 1) (with_table "buttons" t1 c) t1) as (c' & t' & -> & Hset & Hs' & Hr).
    + simpl. apply lookup_insert_eq.
    + congruence.
    + intros j' Hj' Hb. destruct (has_button_app _ _ _ _ _ _ _ Hnew Hb) as [Hb'|(r & Hr & _ & _ & _ & Hc)].
      * eapply Hfree; [|done]. lia.
      * apply list_elem_of_singleton in Hr as ->.
        destruct (button_record_cells id eid i j (btn_text b)
                    (truthy_text (btn_data b)) (truthy_text (btn_url b)))
          as (_ & _ & _ & C4 & _).
        rewrite C4 in Hc. simplify_eq. lia.
    + exists c', t'. split_and!; [done|by eapply buttons_set_step|congruence|].
      rewrite Hr, Hnew, keyboard_row_records_cons, <- app_assoc. done.
Qed.

(** X1. The buttons of a message's keyboard are stored one record each, at
    the row and column they have in the keyboard, with the label, the
    payload and the url as text (NULL when absent or empty), in keyboard
    order; nothing else in the connection changes.  This is so whenever no
    button of the message is stored yet. *)
Theorem store_buttons_grid eid id rows c t :
  c_db c !! "buttons" = Some t → shape t = shape buttons_table →
  (∀ i j, ¬ has_button t id eid i j) →
  ∃ c' t', store_buttons eid id 0 rows c = (c', Ok ())
    ∧ buttons_set c c' t' ∧ shape t' = shape t
    ∧ tbl_rows t' = tbl_rows t ++ keyboard_records id eid 0 rows.
Proof.
  intros Ht Hs Hfree.
  assert (∀ i c t,
            c_db c !! "buttons" = Some t → shape t = shape buttons_table →
            (∀ i' j, i ≤ i' → ¬ has_button t id eid i' j) →
            ∃ c' t', store_buttons eid id i rows c = (c', Ok ())
              ∧ buttons_set c c' t' ∧ shape t' = shape t
              ∧ tbl_rows t' = tbl_rows t ++ keyboard_records id eid i rows) as Hgen.
  { clear. induction rows as [|row rows IH]; intros i c t Ht Hs Hfree.
    - exists c, t. split_and!; [done|by apply buttons_set_refl|done|].
      by rewrite app_nil_r.
    - cbn [store_buttons]. unfold bind.
      destruct (store_button_row_run eid id i row 0 c t Ht Hs) as (c1 & t1 & -> & Hset1 & Hs1 & Hr1).
      { intros j' _. apply Hfree. lia. }
      destruct (IH (i + 1) c1 t1) as (c' & t' & -> & Hset & Hs' & Hr).
      + by eapply buttons_set_lookup.
      + congruence.
      + intros i' j Hi' Hb.
        destruct (has_button_app _ _ _ _ _ _ _ Hr1 Hb) as [Hb'|(r & Hr & _ & _ & Hrow & _)].
        * eapply Hfree; [|done]. lia.
        * apply keyboard_row_records_cells in Hr as (_ & _ & Hrow' & _).
          rewrite Hrow' in Hrow. simplify_eq. lia.
      + exists c', t'. split_and!; [done|by eapply buttons_set_trans|congruence|].
        rewrite Hr, Hr1, keyboard_records_cons, <- app_assoc. done. }
  apply Hgen; [done|done|]. intros i' j _. apply Hfree.
Qed.

Lemma store_links_blocked eid id links : ∀ c t,
  c_db c !! "buttons" = Some t → shape t = shape buttons_table →
  Forall has_href links → has_button t id eid 0 0 →
  ∃ c', store_links eid id links c = (c', Ok ()) ∧ buttons_set c c' t.
Proof.
  induction links as [|l links IH]; intros c t Ht Hs Hl Hb.
  - exists c. split; [done|by apply buttons_set_refl].
  - apply Forall_cons in Hl as [[href Hh] Hl]. cbn [store_links]. rewrite Hh.
    unfold bind.
    destruct (insert_button_run c t id eid 0 0 (a_text l) SqlNull (SqlText href) Ht Hs)
      as (t1 & -> & _ & Hsame & _).
    rewrite (Hsame Hb).
    destruct (IH (with_table "buttons" t c) t) as (c' & -> & Hset); try done.
    { simpl. apply lookup_insert_eq. }
    exists c'. split; [done|]. by eapply buttons_set_step.
Qed.

(** X2. Hyperlink harvesting stores at most one record per message: when the
    message has no button at row 0, column 0 yet, the first anchor of the
    text is stored there and every further anchor is dropped; when it has
    one (a keyboard button, or an anchor of an earlier pass), no anchor is
    stored at all. *)
Theorem store_links_one_record eid id links c t :
  c_db c !! "buttons" = Some t → shape t = shape buttons_table →
  Forall has_href links →
  ∃ c' t', store_links eid id links c = (c', Ok ())
    ∧ buttons_set c c' t' ∧ shape t' = shape t
    ∧ (has_button t id eid 0 0 → t' = t)
    ∧ (¬ has_button t id eid 0 0 →
       tbl_rows t' = tbl_rows t ++ (anchor_record id eid <$> take 1 links)).
Proof.
  intros Ht Hs Hl. destruct links as [|l links].
  - exists c, t. split_and!; [done|by apply buttons_set_refl|done|done|].
    intros _. by rewrite app_nil_r.
  - pose proof Hl as Hl0. apply Forall_cons in Hl as [[href Hh] Hl].
    assert (has_button t id eid 0 0 ∨ ¬ has_button t id eid 0 0) as [Hb|Hn].
    { destruct (button_record_cells id eid 0 0 "" SqlNull SqlNull) as (C1 & C2 & C3 & C4 & _).
      injection Hs as _ _ Hk.
      pose proof (existsb_conflicts_button _ t id eid 0 0 Hk C1 C2 C3 C4) as Hex.
      destruct (existsb _ _); [left; by apply Hex|right].
      intros Hb. apply Hex in Hb. done. }
    + destruct (store_links_blocked eid id (l :: links) c t Ht Hs Hl0 Hb) as (c' & Hrun & Hset).
      exists c', t. split_and!; done.
    + cbn [store_links]. rewrite Hh. unfold bind.
      destruct (insert_button_run c t id eid 0 0 (a_text l) SqlNull (SqlText href) Ht Hs)
        as (t1 & -> & Hs1 & _ & Hnew).
      specialize (Hnew Hn).
      destruct (store_links_blocked eid id links (with_table "buttons" t1 c) t1)
        as (c' & -> & Hset); try done.
      * simpl. apply lookup_insert_eq.
      * congruence.
      * exists (button_record id eid 0 0 (a_text l) SqlNull (SqlText href)).
        rewrite Hnew. split; [apply elem_of_app; right; by left|].
        split_and!; reflexivity.
      * exists c', t1. split_and!; [done|by eapply buttons_set_step|done|done|].
        intros _. rewrite Hnew. simpl. unfold anchor_record. by rewrite Hh.
Qed.

Lemma render_html fi rp c slept e :
  wf_db (c_db c) → is_Some (w_html (render fi rp c slept e).1).
Proof.
  intros Hwf. unfold render.
  destruct (generate_html_ok fi rp (c_db c) e Hwf) as [g ->]. by eexists.
Qed.

Lemma render_log_ok fi rp c slept e :
  wf_db (c_db c) → w_log (render fi rp c slept e).1 = c_log c ++ [LogHtmlGenerated].
Proof.
  intros Hwf. unfold render.
  by destruct (generate_html_ok fi rp (c_db c) e Hwf) as [g ->].
Qed.

(** X3. On a store of the current schema the update pass returns normally
    whatever the stream delivers or raises and whatever happens inside a
    message: it never sleeps, it renders the digest, and the messages table
    keeps its rows, in place, with new rows only after them. *)
Theorem update_never_escapes
    ge fa jp jr fi rp (w : World) (db : Db) (t : Table) (eid : Z)
    (forbidden : bool) (stream : list Event) (dm : bool) (now : string) :
  w_store w = Some db → current_schema db → db !! "messages" = Some t →
  let u := update_entity ge fa jp jr fi rp w eid forbidden stream dm now in
  u.2 = None ∧ is_Some (w_html u.1) ∧ w_slept u.1 = w_slept w
  ∧ ∃ t', messages_of u.1 = Some t' ∧ shape t' = shape t
          ∧ tbl_rows t `prefix_of` tbl_rows t'
          ∧ (unique_keys t → unique_keys t').
Proof.
  intros Hw Hcur Ht u.
  pose proof (current_schema_wf _ Hcur) as Hwf.
  destruct Hcur as ((t0 & Ht0 & Hsh) & _ & (rt & Hrt & Hrsh) & _).
  assert (t0 = t) as -> by congruence.
  destruct (migrate_replies_current db rt Hrt Hrsh) as [Hmr Hrl].
  unfold u, update_entity. rewrite Hw, Ht.
  rewrite (migrate_messages_current _ Hsh), (entity_id_current _ _ Hsh).
  rewrite (insert_id db "messages" t Ht), Hmr.
  set (conn := {| c_db := db; c_files := w_files w;
                  c_log := w_log w ++ migration_log t ++ replies_log db |}).
  destruct (message_loop _ _ _ conn) as [c' stop] eqn:Hrun.
  unfold body in Hrun.
  destruct (loop_extends _ _ _ _ _ _ _ _ _ _ _ _ _ _ Hrun Ht)
    as (Hs & t' & Ht' & Hsh' & Hpre & Huniq).
  assert (wf_db (c_db c')) as Hwf' by by eapply wf_same_shape.
  set (c'' := match stop with Some e => add_log (LogUpdateError e) c' | None => c' end).
  assert (c_db c'' = c_db c') as Hdb by (unfold c''; by destruct stop).
  assert (wf_db (c_db c'')) as Hwf'' by by rewrite Hdb.
  destruct (render_fields fi rp c'' (w_slept w) (Some (SqlInt eid))) as (Hst & _ & Hsl).
  split_and!.
  - by apply render_ok.
  - by apply render_html.
  - done.
  - exists t'. split_and!; try done. unfold messages_of. rewrite Hst. simpl.
    by rewrite Hdb.
Qed.

(** X4. A backfill whose stream raises after a run of messages keeps what
    the run committed.  When the exception is [ChannelPrivateError] the pass
    prints one line, renders the digest and returns normally, without
    sleeping.  Any exception other than that one and the flood wait escapes
    to the caller, and no digest is rendered. *)
Theorem backfill_stream_failure
    ge fa jp jr fi rp (w : World) (eid : Z) (pre rest : list Event) (e : exn)
    (dm : bool) (now : string) :
  Forall is_item pre →
  (process_entity ge fa jp jr fi rp w eid false pre None dm now).2 = None →
  let r0 := process_entity ge fa jp jr fi rp w eid false pre None dm now in
  let r := process_entity ge fa jp jr fi rp w eid false
             (pre ++ Fault e :: rest) None dm now in
  w_store r.1 = w_store r0.1 ∧ w_files r.1 = w_files r0.1
  ∧ (e = ChannelPrivateError →
     r.2 = None ∧ w_html r.1 = w_html r0.1 ∧ w_slept r.1 = w_slept w
     ∧ ∃ L, w_log r0.1 = L ++ [LogHtmlGenerated]
            ∧ w_log r.1 = L ++ [LogCannotAccess; LogHtmlGenerated])
  ∧ (benign e →
     r.2 = Some e ∧ w_html r.1 = w_html w ∧ w_slept r.1 = w_slept w
     ∧ w_log r0.1 = w_log r.1 ++ [LogHtmlGenerated]).
Proof.
  intros Hit Hnone r0 r. unfold r, r0 in *. clear r r0.
  unfold process_entity in *. rewrite !iter_messages_None in *.
  destruct (message_loop _ None pre _) as [c' stop] eqn:Hloop.
  assert (stop = None) as ->.
  { destruct stop as [e'|]; [|done].
    pose proof (loop_stop_benign _ _ _ _ _ _ _ _ _ _ _ _ _ Hloop Hit) as Hb.
    destruct e'; simpl in *; done. }
  rewrite (loop_app_fault_backfill _ _ _ _ _ _ Hit Hloop).
  destruct (render_fields fi rp c' (w_slept w) (Some (SqlInt eid))) as (Hst0 & Hf0 & _).
  assert (∃ g, generate_html fi rp (c_db c') (Some (SqlInt eid)) = Ok g) as [g Hg].
  { unfold render in Hnone. destruct (generate_html _ _ _ _); [by eexists|done]. }
  split_and!.
  - rewrite Hst0. destruct e; try done; by rewrite render_store.
  - rewrite Hf0. destruct e; try done;
      match goal with
      | |- context [render fi rp ?c ?s ?x] =>
          by destruct (render_fields fi rp c s x) as (_ & -> & _)
      end.
  - intros ->.
    destruct (render_add_log fi rp LogCannotAccess c' (w_slept w) (w_slept w)
                (Some (SqlInt eid))) as (H2 & Hh & Hs & Hf & Hsl & Hlog).
    split_and!; [congruence|done|done|by apply Hlog].
  - intros Hb. destruct e; try done; simpl;
      (split_and!; [done|done|done|]); unfold render; by rewrite Hg.
Qed.

Section Substrings.

#[local] Arguments String.append : simpl nomatch.

Lemma string_app_assoc (a b c : string) : (a +:+ b) +:+ c = a +:+ (b +:+ c).
Proof. induction a as [|x a IH]; simpl; [done|]. by rewrite IH. Qed.

Lemma strip_prefix_app p r : Str.strip_prefix p (p +:+ r) = Some r.
Proof.
  induction p as [|a p IH]; simpl; [done|]. by rewrite decide_True.
Qed.

Lemma contains_unfold needle s :
  Str.contains needle s
  = match Str.strip_prefix needle s with
    | Some _ => true
    | None => match s with
              | "" => false
              | String _ s' => Str.contains needle s'
              end
    end.
Proof. by destruct s. Qed.

Lemma contains_here needle post : Str.contains needle (needle +:+ post) = true.
Proof. by rewrite contains_unfold, strip_prefix_app. Qed.

(** [needle in s] holds when [s] has the needle somewhere. *)
Lemma contains_intro needle pre post :
  Str.contains needle (pre +:+ needle +:+ post) = true.
Proof.
  induction pre as [|a pre IH]; [simpl; apply contains_here|].
  rewrite contains_unfold. simpl. rewrite IH. by destruct (Str.strip_prefix _ _).
Qed.

Lemma cols_sql_column cols c :
  c ∈ cols.*1 → ∃ pre post, cols_sql cols = pre +:+ c +:+ post.
Proof.
  induction cols as [|[n d] cols IH]; intros Hin; [by apply elem_of_nil in Hin|].
  rewrite fmap_cons in Hin. apply elem_of_cons in Hin as [->|Hin].
  - exists "", (" " +:+ d +:+ ", " +:+ cols_sql cols). done.
  - destruct (IH Hin) as (pre & post & E).
    exists (n +:+ " " +:+ d +:+ ", " +:+ pre), post.
    change (cols_sql ((n, d) :: cols))
      with (n +:+ " " +:+ d +:+ ", " +:+ cols_sql cols).
    rewrite E, !string_app_assoc. done.
Qed.

(** The text of a table's declaration names each of its columns. *)
Lemma table_sql_column name t c :
  has_column t c = true → Str.contains c (table_sql name t) = true.
Proof.
  intros H. apply bool_decide_eq_true in H.
  destruct (cols_sql_column _ _ H) as (pre & post & E).
  unfold table_sql. rewrite E.
  replace ("CREATE TABLE " +:+ name +:+ " (" +:+ (pre +:+ c +:+ post)
             +:+ tbl_constraint t +:+ ")")
    with (("CREATE TABLE " +:+ name +:+ " (" +:+ pre) +:+ c
            +:+ (post +:+ tbl_constraint t +:+ ")")).
  - apply contains_intro.
  - rewrite !string_app_assoc. done.
Qed.

End Substrings.

Lemma has_column_app t t' c :
  tbl_cols t `prefix_of` tbl_cols t' → has_column t c = true → has_column t' c = true.
Proof.
  intros [k Hk] H. apply bool_decide_eq_true in H. apply bool_decide_eq_true.
  unfold col_names in *. rewrite Hk, fmap_app. apply elem_of_app. by left.
Qed.

Lemma add_flag_has s f t : has_column (add_flag s f t) f = true ∨ Str.contains f s = true.
Proof.
  unfold add_flag. destruct (Str.contains f s); [by right|left].
  apply bool_decide_eq_true. unfold col_names. simpl. rewrite fmap_app.
  apply elem_of_app. right. by left.
Qed.

Lemma add_flag_prefix s f t : tbl_cols t `prefix_of` tbl_cols (add_flag s f t).
Proof. rewrite add_flag_cols. by apply prefix_app_r. Qed.

Lemma migrate_messages_cols t :
  ∃ t3, t3 = add_flag (table_sql "messages" t) "is_pinned"
               (add_flag (table_sql "messages" t) "is_voice_message"
                  (add_flag (table_sql "messages" t) "is_service_message" t))
        ∧ tbl_cols (migrate_messages t)
          = tbl_cols t3 ++ (if Str.contains "user_id" (table_sql "messages" t)
                            then [] else [("user_id", "TEXT")]).
Proof.
  eexists. split; [done|]. unfold migrate_messages. cbv zeta.
  destruct (Str.contains "user_id" _); [by rewrite app_nil_r|].
  by destruct (backfill_user_id_rows
                 (tbl_rows (add_column "user_id" "TEXT" SqlNull
                    (add_flag (table_sql "messages" t) "is_pinned"
                       (add_flag (table_sql "messages" t) "is_voice_message"
                          (add_flag (table_sql "messages" t) "is_service_message" t)))))
                 (add_column "user_id" "TEXT" SqlNull
                    (add_flag (table_sql "messages" t) "is_pinned"
                       (add_flag (table_sql "messages" t) "is_voice_message"
                          (add_flag (table_sql "messages" t) "is_service_message" t)))))
    as [_ ->].
Qed.

(** After the migration the table has the four columns. *)
Lemma migrate_messages_complete t :
  schema_faithful t → Forall (λ c, has_column (migrate_messages t) c = true) migratable.
Proof.
  intros Hf. destruct (migrate_messages_cols t) as (t3 & Ht3 & Hcols).
  set (s := table_sql "messages" t) in *.
  set (t1 := add_flag s "is_service_message" t) in *.
  set (t2 := add_flag s "is_voice_message" t1) in *.
  assert (tbl_cols t `prefix_of` tbl_cols t1) as P1 by apply add_flag_prefix.
  assert (tbl_cols t1 `prefix_of` tbl_cols t2) as P2 by apply add_flag_prefix.
  assert (tbl_cols t2 `prefix_of` tbl_cols t3) as P3 by (rewrite Ht3; apply add_flag_prefix).
  assert (tbl_cols t3 `prefix_of` tbl_cols (migrate_messages t)) as P4
    by (rewrite Hcols; by apply prefix_app_r).
  assert (∀ c, c ∈ migratable → Str.contains c s = true → has_column t c = true) as Hhave.
  { intros c Hc Hs. by rewrite <- (Hf c Hc). }
  unfold migratable, flag_columns. simpl.
  repeat (apply Forall_cons_2); [| | | |apply Forall_nil_2].
  - eapply has_column_app; [exact P4|]. eapply has_column_app; [exact P3|].
    eapply has_column_app; [exact P2|].
    destruct (add_flag_has s "is_service_message" t) as [H|H]; [done|].
    eapply has_column_app; [exact P1|]. apply Hhave; [|done].
    unfold migratable, flag_columns. set_solver.
  - eapply has_column_app; [exact P4|]. eapply has_column_app; [exact P3|].
    destruct (add_flag_has s "is_voice_message" t1) as [H|H]; [done|].
    eapply has_column_app; [exact P2|]. eapply has_column_app; [exact P1|].
    apply Hhave; [|done]. unfold migratable, flag_columns. set_solver.
  - eapply has_column_app; [exact P4|].
    destruct (add_flag_has s "is_pinned" t2) as [H|H]; [by rewrite Ht3|].
    eapply has_column_app; [exact P3|]. eapply has_column_app; [exact P2|].
    eapply has_column_app; [exact P1|].
    apply Hhave; [|done]. unfold migratable, flag_columns. set_solver.
  - destruct (Str.contains "user_id" s) eqn:E.
    + eapply has_column_app; [exact P4|]. eapply has_column_app; [exact P3|].
      eapply has_column_app; [exact P2|]. eapply has_column_app; [exact P1|].
      apply Hhave; [|done]. unfold migratable, flag_columns. set_solver.
    + apply bool_decide_eq_true. unfold col_names. rewrite Hcols, fmap_app.
      apply elem_of_app. right. by left.
Qed.

(** A table that has the four columns is left alone. *)
Lemma migrate_messages_noop t :
  Forall (λ c, has_column t c = true) migratable →
  migrate_messages t = t ∧ migration_log t = []
  ∧ ∀ e, entity_id_after_migration t e = e.
Proof.
  intros Hall.
  assert (∀ c, c ∈ migratable → Str.contains c (table_sql "messages" t) = true) as Hc.
  { intros c Hin. apply table_sql_column. by eapply Forall_forall in Hall. }
  assert (Str.contains "is_service_message" (table_sql "messages" t) = true) as H1
    by (apply Hc; unfold migratable, flag_columns; set_solver).
  assert (Str.contains "is_voice_message" (table_sql "messages" t) = true) as H2
    by (apply Hc; unfold migratable, flag_columns; set_solver).
  assert (Str.contains "is_pinned" (table_sql "messages" t) = true) as H3
    by (apply Hc; unfold migratable, flag_columns; set_solver).
  assert (Str.contains "user_id" (table_sql "messages" t) = true) as H4
    by (apply Hc; unfold migratable, flag_columns; set_solver).
  split_and!.
  - unfold migrate_messages, add_flag. cbv zeta. by rewrite H1, H2, H3, H4.
  - unfold migration_log. cbv zeta.
    rewrite !filter_cons, filter_nil, H1, H2, H3, H4.
    repeat (rewrite decide_False by done). done.
  - intros e. unfold entity_id_after_migration. by rewrite H4.
Qed.

(** X5. The schema migration of the update pass is done once: on a table
    whose declaration names a migratable column only when it has it, a
    second migration changes nothing, prints nothing and leaves the entity
    id alone. *)
Theorem migration_idempotent (t : Table) :
  schema_faithful t →
  migrate_messages (migrate_messages t) = migrate_messages t
  ∧ migration_log (migrate_messages t) = []
  ∧ ∀ e, entity_id_after_migration (migrate_messages t) e = e.
Proof. intros Hf. apply migrate_messages_noop. by apply migrate_messages_complete. Qed.

Lemma connect_attempts_spec {A} (connect : nat → result A) n remaining : ∀ attempt,
  (attempt + remaining = n)%nat → (0 < remaining)%nat →
  let out := connect_attempts connect n attempt remaining in
  let k := length out.2 in
  (attempt + k < n)%nat
  ∧ out.1 = connect (attempt + k)%nat
  ∧ (∀ j, (j < k)%nat → locked_at connect (attempt + j))
  ∧ (locked_at connect (attempt + k) → (attempt + k = n - 1)%nat)
  ∧ out.2 = (λ j, 5 * (Z.of_nat (attempt + j) + 1)) <$> seq 0 k.
Proof.
  induction remaining as [|remaining IH]; intros attempt Hn Hpos; [lia|].
  cbn [connect_attempts].
  destruct (connect attempt) as [conn|e] eqn:Hc.
  { simpl. rewrite Nat.add_0_r. split_and!; [lia|done|intros; lia| |done].
    intros (msg & Hm & _). congruence. }
  assert (∀ e', e = e' →
            (∀ msg, e = OperationalError msg → is_locked msg = true →
                    (attempt = n - 1)%nat) →
            let out := (Raise e' : result A, [] : list Z) in
            (attempt + length out.2 < n)%nat
            ∧ out.1 = connect (attempt + length out.2)%nat
            ∧ (∀ j, (j < length out.2)%nat → locked_at connect (attempt + j))
            ∧ (locked_at connect (attempt + length out.2)
               → (attempt + length out.2 = n - 1)%nat)
            ∧ out.2 = (λ j, 5 * (Z.of_nat (attempt + j) + 1)) <$> seq 0 (length out.2))
    as Hstop.
  { intros e' <- Hlast. simpl. rewrite Nat.add_0_r.
    split_and!; [lia|done|intros; lia| |done].
    intros (msg & Hm & Hl). rewrite Hc in Hm. injection Hm as ->. by eapply Hlast. }
  destruct e as [| |msg| | | |]; try (by apply Hstop).
  destruct (is_locked msg) eqn:Hl; [|apply Hstop; [done|congruence]].
  destruct (attempt <? n - 1)%nat eqn:Hlt.
  2:{ apply Hstop; [done|]. intros _ _ _. apply Nat.ltb_ge in Hlt. lia. }
  simpl. apply Nat.ltb_lt in Hlt.
  specialize (IH (S attempt) ltac:(lia) ltac:(lia)).
  destruct (connect_attempts connect n (S attempt) remaining) as [r sleeps].
  simpl in *. destruct IH as (H1 & H2 & H3 & H5 & H4).
  split_and!.
  - lia.
  - rewrite H2. f_equal. lia.
  - intros [|j] Hj.
    + rewrite Nat.add_0_r. by exists msg.
    + replace (attempt + S j)%nat with (S attempt + j)%nat by lia. apply H3. lia.
  - replace (attempt + S (length sleeps))%nat with (S (attempt + length sleeps)) by lia.
    apply H5.
  - rewrite Nat.add_0_r. f_equal. rewrite H4 at 1.
    rewrite <- fmap_S_seq, <- list_fmap_compose.
    apply list_fmap_ext. intros i j _. simpl. f_equal. lia.
Qed.

(** X6. Opening a store tries at most [max_retries] times.  It sleeps only
    after an attempt that failed on a locked database and that is not the
    last one, for 5, 10, 15, ... seconds; the result is what the attempt
    after the last sleep did, whether a connection or an exception.  The
    closing "Failed to connect" error is raised only when [max_retries] is
    0. *)
Theorem get_db_connection_retries {A} (connect : nat → result A) (max_retries : nat) :
  let out := get_db_connection connect max_retries in
  let k := length out.2 in
  (max_retries = 0%nat →
   out = (Raise (OperationalError
                   "Failed to connect to database after multiple attempts"), []))
  ∧ ((0 < max_retries)%nat →
     (k < max_retries)%nat
     ∧ out.1 = connect k
     ∧ (∀ j, (j < k)%nat → locked_at connect j)
     ∧ (locked_at connect k → k = (max_retries - 1)%nat)
     ∧ out.2 = (λ j, 5 * (Z.of_nat j + 1)) <$> seq 0 k).
Proof.
  intros out k. split; [by intros ->|]. intros Hpos.
  apply (connect_attempts_spec connect max_retries max_retries 0%nat); lia.
Qed.

Section SanitizeFacts.

#[local] Arguments String.append : simpl nomatch.

Variable word_char : ascii → bool.

Lemma kept_underscore : kept word_char "_" = true.
Proof. unfold kept. rewrite (bool_decide_eq_true_2 ("_"%char = "_"%char)) by done.
  by rewrite !orb_true_r. Qed.

Lemma sanitize_kept s : all_chars (kept word_char) (sanitize_filename word_char s) = true.
Proof.
  induction s as [|c s IH]; [done|]. simpl. rewrite IH, andb_true_r.
  destruct (kept word_char c) eqn:E; [done|apply kept_underscore].
Qed.

Lemma sanitize_fixed s :
  sanitize_filename word_char s = s ↔ all_chars (kept word_char) s = true.
Proof.
  induction s as [|c s IH]; [done|]. simpl. rewrite andb_true_iff, <- IH.
  destruct (kept word_char c) eqn:E.
  - split; [by intros [= ->]|by intros [_ ->]].
  - split; [|by intros [[=] _]]. intros [= <- _]. by rewrite kept_underscore in E.
Qed.

Lemma sanitize_length s :
  String.length (sanitize_filename word_char s) = String.length s.
Proof. induction s as [|c s IH]; [done|]. simpl. by rewrite IH. Qed.

Lemma sanitize_app a b :
  sanitize_filename word_char (a +:+ b)
  = sanitize_filename word_char a +:+ sanitize_filename word_char b.
Proof. induction a as [|c a IH]; [done|]. simpl. by rewrite IH. Qed.

(** X7. [sanitize_filename] keeps the length of the name, leaves only word
    characters, hyphens, underscores, dots and spaces in it, changes nothing
    in a name made of these, and so changes nothing when applied twice. *)
Theorem sanitize_filename_spec (s : string) :
  String.length (sanitize_filename word_char s) = String.length s
  ∧ all_chars (kept word_char) (sanitize_filename word_char s) = true
  ∧ (sanitize_filename word_char s = s ↔ all_chars (kept word_char) s = true)
  ∧ sanitize_filename word_char (sanitize_filename word_char s)
    = sanitize_filename word_char s.
Proof.
  split_and!; [apply sanitize_length|apply sanitize_kept|apply sanitize_fixed|].
  apply sanitize_fixed, sanitize_kept.
Qed.

Lemma all_chars_impl (p q : ascii → bool) s :
  (∀ c, p c = true → q c = true) → all_chars p s = true → all_chars q s = true.
Proof.
  intros H. induction s as [|c s IH]; [done|]. simpl. rewrite !andb_true_iff.
  intros [? ?]. split; [by apply H|by apply IH].
Qed.

Lemma pretty_N_char_digit x : Str.is_digit (pretty_N_char x) = true.
Proof. unfold pretty_N_char. by repeat case_match. Qed.

Lemma pretty_N_go_digits x : ∀ s,
  all_chars digit_or_dash s = true → all_chars digit_or_dash (pretty_N_go x s) = true.
Proof.
  induction (N.lt_wf_0 x) as [x _ IH]; intros s Hs.
  assert (x = 0 ∨ 0 < x)%N as [->|Hpos] by lia; [by rewrite pretty_N_go_0|].
  rewrite pretty_N_go_step by done. apply IH.
  - apply N.div_lt; lia.
  - simpl. rewrite Hs, andb_true_r. unfold digit_or_dash.
    by rewrite pretty_N_char_digit.
Qed.

Lemma pretty_N_digits (x : N) : all_chars digit_or_dash (pretty x) = true.
Proof.
  unfold pretty, pretty_N. case_decide; [done|]. by apply pretty_N_go_digits.
Qed.

Lemma pretty_Z_digits (z : Z) : all_chars digit_or_dash (pretty z) = true.
Proof.
  unfold pretty, pretty_Z. destruct z as [|p|p].
  - done.
  - apply pretty_N_digits.
  - simpl. apply pretty_N_digits.
Qed.

Lemma split_at_underscore a b x y :
  all_chars digit_or_dash a = true → all_chars digit_or_dash b = true →
  a +:+ "_" +:+ x = b +:+ "_" +:+ y → a = b ∧ x = y.
Proof.
  revert b. induction a as [|c a IH]; intros [|d b] Ha Hb; simpl in *.
  - by intros [= ->].
  - intros [= <- _]. by apply andb_true_iff in Hb as [? _].
  - intros [= -> _]. by apply andb_true_iff in Ha as [? _].
  - apply andb_true_iff in Ha as [_ Ha]. apply andb_true_iff in Hb as [_ Hb].
    intros [= -> H]. destruct (IH _ Ha Hb H) as [-> ->]. done.
Qed.

(** X8. When the digits are word characters, two entities get the same
    store name exactly when they have the same id and their names are
    sanitized to the same text: stores of different entities never share a
    file, and a rename that changes the sanitized name changes the file. *)
Theorem store_name_spec (id1 id2 : Z) (name1 name2 : string) :
  (∀ c, Str.is_digit c = true → word_char c = true) →
  sanitized_name word_char id1 name1 = sanitized_name word_char id2 name2
  ↔ id1 = id2
    ∧ sanitize_filename word_char name1 = sanitize_filename word_char name2.
Proof.
  intros Hd.
  assert (∀ z : Z, sanitize_filename word_char (pretty z) = pretty z) as Hid.
  { intros z. apply sanitize_fixed. eapply all_chars_impl; [|apply pretty_Z_digits].
    intros c. unfold digit_or_dash, kept. intros [H| ->%bool_decide_eq_true]%orb_true_iff.
    - by rewrite (Hd c H).
    - by rewrite orb_true_r. }
  assert (sanitize_filename word_char "_" = "_") as Hu
    by (simpl; by rewrite kept_underscore).
  unfold sanitized_name. rewrite !sanitize_app, !Hid, Hu.
  split.
  - intros H. apply split_at_underscore in H as [H ->]; [|apply pretty_Z_digits..].
    split; [|done]. by apply (inj pretty).
  - by intros [-> ->].
Qed.

End SanitizeFacts.

Lemma take_chars_length n s : (String.length (take_chars n s) ≤ n)%nat.
Proof.
  revert s. induction n as [|n IH]; intros [|c s]; simpl; try lia.
  specialize (IH s). lia.
Qed.

Lemma string_app_length (a b : string) :
  String.length (a +:+ b) = (String.length a + String.length b)%nat.
Proof. induction a as [|c a IH]; simpl; [done|]. by rewrite IH. Qed.

Lemma filter_at_most_one {A} (P : A → Prop) `{∀ x, Decision (P x)} (l : list A) :
  (∀ i j x y, l !! i = Some x → l !! j = Some y → P x → P y → i = j) →
  ∀ x, x ∈ l → P x → filter P l = [x].
Proof.
  induction l as [|a l IH]; intros Huniq x Hin Hx; [by apply elem_of_nil in Hin|].
  rewrite filter_cons. destruct (decide (P a)) as [Ha|Ha].
  - assert (filter P l = []) as ->.
    { apply filter_none. intros y Hy Hpy.
      apply list_elem_of_lookup in Hy as [j Hj].
      by specialize (Huniq 0%nat (S j) a y eq_refl Hj Ha Hpy). }
    apply elem_of_cons in Hin as [->|Hin]; [done|].
    apply list_elem_of_lookup in Hin as [j Hj].
    by specialize (Huniq 0%nat (S j) a x eq_refl Hj Ha Hx).
  - apply elem_of_cons in Hin as [->|Hin]; [done|].
    apply IH; [|done..]. intros i j u v Hi Hj. intros Hu Hv.
    by specialize (Huniq (S i) (S j) u v Hi Hj Hu Hv) as [= ->].
Qed.

Lemma filter_fmap_comm {A B} (f : A → B) (P : B → Prop) `{∀ x, Decision (P x)}
    (l : list A) :
  filter P (f <$> l) = f <$> filter (λ a, P (f a)) l.
Proof.
  induction l as [|a l IH]; [done|]. rewrite fmap_cons, !filter_cons. simpl.
  case_decide; by rewrite ?fmap_cons, IH.
Qed.

Lemma pretty_N_go_nonempty x : ∀ s, s ≠ "" → pretty_N_go x s ≠ "".
Proof.
  induction (N.lt_wf_0 x) as [x _ IH]; intros s Hs.
  assert (x = 0 ∨ 0 < x)%N as [->|Hpos] by lia; [by rewrite pretty_N_go_0|].
  rewrite pretty_N_go_step by done. apply IH; [apply N.div_lt; lia|done].
Qed.

Lemma pretty_Z_nonempty (z : Z) : pretty z ≠ "".
Proof.
  destruct z as [|p|p]; [done| |done].
  unfold pretty, pretty_Z, pretty, pretty_positive, pretty, pretty_N.
  case_decide; [done|]. rewrite pretty_N_go_step by lia.
  by apply pretty_N_go_nonempty.
Qed.

Lemma records_with_id t e z (r : Row) :
  tbl_key t = ["id"; "entity_id"] → unique_keys t →
  r ∈ records_of t (SqlInt e) → cell r "id" = SqlInt z →
  filter (λ r : Row, cell r "id" = SqlInt z) (records_of t (SqlInt e)) = [r].
Proof.
  intros Hk Hu Hr Hz. unfold records_of in *. rewrite list_filter_filter.
  apply list_elem_of_filter in Hr as [He Hr].
  apply filter_at_most_one; [|done|done].
  intros i j r1 r2 Hi Hj [Hz1 He1] [Hz2 He2]. eapply Hu; [done..|].
  simpl in He1, He2. apply sql_eq_true in He1 as [_ He1].
  apply sql_eq_true in He2 as [_ He2].
  rewrite Hk. by apply (conflicts_pk r1 r2 z e).
Qed.

(** X9. In the digest of one entity a reply is resolved to the message it
    names: when the messages table keeps its primary key, looking an id of
    the digest up gives back the one message of the digest with that id. *)
Theorem get_message_by_id_found (db : Db) (t : Table) (e : Z)
    (messages : list DigestRow) (x : DigestRow) (z : Z) :
  db !! "messages" = Some t → tbl_key t = ["id"; "entity_id"] → unique_keys t →
  select_digest db (Some (SqlInt e)) = Ok messages →
  x ∈ messages → cell (dg_msg x) "id" = SqlInt z →
  get_message_by_id messages (Some z) = Some x.
Proof.
  intros Ht Hk Hu Hsel Hx Hz. unfold select_digest in Hsel. rewrite Ht in Hsel.
  destruct (db !! "buttons") as [bs|]; [|done].
  destruct (db !! "reactions") as [rs|]; [|done].
  injection Hsel as <-. fold (records_of t (SqlInt e)) in *.
  set (P := λ x : DigestRow, cell (dg_msg x) "id" = SqlInt z).
  assert (x ∈ digest_row bs rs <$> records_of t (SqlInt e)) as Hx'
    by by rewrite <- (merge_sort_Permutation date_desc).
  apply list_elem_of_fmap in Hx' as (r & -> & Hr). simpl in Hz.
  assert (filter P (merge_sort date_desc (digest_row bs rs <$> records_of t (SqlInt e)))
          ≡ₚ [digest_row bs rs r]) as Hperm.
  { rewrite (merge_sort_Permutation date_desc), filter_fmap_comm.
    assert (filter (λ a : Row, P (digest_row bs rs a)) (records_of t (SqlInt e)) = [r])
      as -> by exact (records_with_id t e z r Hk Hu Hr Hz).
    done. }
  apply Permutation_singleton_r in Hperm.
  change (last (filter P (merge_sort date_desc
                            (digest_row bs rs <$> records_of t (SqlInt e))))
          = Some (digest_row bs rs r)).
  by rewrite Hperm.
Qed.

(** X10. The reply preview of a message that is found, whose text cell holds
    text or NULL, is the sender, a colon and a body of at most 33
    characters: the text itself when it has at most 30 characters, its
    first 30 followed by three dots when it is longer, and a label when
    there is no text.  An id that is not found gives "Message not found". *)
Theorem get_reply_preview_spec (messages : list DigestRow) (msg_id : option Z) :
  (get_message_by_id messages msg_id = None →
   get_reply_preview messages msg_id = Ok "Message not found")
  ∧ ∀ msg, get_message_by_id messages msg_id = Some msg →
      (∀ n, cell (dg_msg msg) "text" ≠ SqlInt n) →
      ∃ sender body,
        get_reply_preview messages msg_id = Ok (sender +:+ ": " +:+ body)
        ∧ sender ≠ "" ∧ body ≠ "" ∧ (String.length body ≤ 33)%nat
        ∧ ∀ s, cell (dg_msg msg) "text" = SqlText s → s ≠ "" →
               ((String.length s ≤ 30)%nat → body = s)
               ∧ ((30 < String.length s)%nat → body = take_chars 30 s +:+ "...").
Proof.
  split; [intros H; unfold get_reply_preview; by rewrite H|].
  intros msg Hm Htext. unfold get_reply_preview. rewrite Hm.
  set (sender := match cell (dg_msg msg) "sender_name" with
                 | SqlText (String c s) => String c s
                 | SqlInt z => if z =? 0 then "Unknown" else pretty z
                 | _ => "Unknown"
                 end).
  assert (sender ≠ "") as Hs.
  { unfold sender. destruct (cell (dg_msg msg) "sender_name") as [|z|[|c s]]; try done.
    destruct (z =? 0) eqn:E; [done|]. apply pretty_Z_nonempty. }
  set (label := if cell_truthy (cell (dg_msg msg) "media_type") then "Media message"
                else if cell_truthy (cell (dg_msg msg) "is_service_message")
                     then "Service message" else "Empty message").
  assert (label ≠ "" ∧ (String.length label ≤ 30)%nat) as [Hl1 Hl2].
  { unfold label. repeat case_match; simpl; split; (done || lia). }
  assert (∀ text, text ≠ "" →
            let body := if (30 <? String.length text)%nat
                        then take_chars 30 text +:+ "..." else text in
            body ≠ "" ∧ (String.length body ≤ 33)%nat
            ∧ ((String.length text ≤ 30)%nat → body = text)
            ∧ ((30 < String.length text)%nat → body = take_chars 30 text +:+ "..."))
    as Hbody.
  { intros text Hne body. unfold body.
    destruct (30 <? String.length text)%nat eqn:E.
    - apply Nat.ltb_lt in E. split_and!; [|..|lia|done].
      + destruct text as [|c text]; done.
      + rewrite string_app_length. pose proof (take_chars_length 30 text) as Hle.
        change (String.length "...") with 3%nat. lia.
    - apply Nat.ltb_ge in E. split_and!; [done|lia|done|lia]. }
  destruct (cell (dg_msg msg) "text") as [|n|[|c s]] eqn:Ec.
  - unfold rbind. fold label. exists sender. eexists. split; [done|].
    destruct (Hbody label Hl1) as (? & ? & ? & ?). split_and!; try done.
  - by destruct (Htext n).
  - unfold rbind. fold label. exists sender. eexists. split; [done|].
    destruct (Hbody label Hl1) as (? & ? & ? & ?). split_and!; try done.
    by intros s0 [= <-].
  - unfold rbind. exists sender. eexists. split; [done|].
    destruct (Hbody (String c s) ltac:(done)) as (? & ? & ? & ?).
    split_and!; try done. intros s0 [= <-] _. done.
Qed.






Lemma add_to_group_concat k x g :
  concat (add_to_group k x g).*2 ≡ₚ x :: concat g.*2.
Proof.
  induction g as [|[k' xs] g IH]; [done|]. cbn [add_to_group].
  destruct (decide (k = k')) as [->|Hne]; rewrite !fmap_cons; cbn [snd concat].
  - rewrite <- app_assoc. rewrite (Permutation_app_comm [x]).
    rewrite app_assoc. rewrite <- Permutation_cons_append. done.
  - rewrite IH. by rewrite Permutation_middle.
Qed.

Lemma group_by_day_concat fi l : concat (group_by_day fi l).*2 ≡ₚ l.
Proof.
  induction l as [|x l IH] using rev_ind; [done|].
  rewrite group_by_day_snoc, add_to_group_concat, IH.
  by rewrite <- Permutation_cons_append.
Qed.

Lemma relative_media_id rp x :
  cell (dg_msg (relative_media rp x)) "id" = cell (dg_msg x) "id".
Proof.
  unfold relative_media.
  destruct (cell (dg_msg x) "media_file") as [| |[|c p]]; try done.
  simpl. unfold cell. by rewrite lookup_insert_ne.
Qed.

Lemma filter_all {A} (P : A → Prop) `{∀ x, Decision (P x)} (l : list A) :
  (∀ x, x ∈ l → P x) → filter P l = l.
Proof.
  induction l as [|a l IH]; [done|]. intros Hall.
  rewrite filter_cons_True by (apply Hall; by left).
  f_equal. apply IH. intros x Hx. apply Hall. by right.
Qed.

Section BackfillLoop.

Variable get_entity : EntityRef → result Entity.
Variable find_all_a : string → list Anchor.
Variable json_dumps_preview : PreviewData → string.
Variable json_dumps_reactions : list (string * Z) → string.

(** A backfill loop over messages none of which is stored yet appends one
    row per message, in stream order. *)
Lemma backfill_loop dm eid now ms c t :
  newest_first ms → Forall (links_ok find_all_a) ms →
  wf_db (c_db c) → c_db c !! "messages" = Some t →
  tbl_key t = ["id"; "entity_id"] →
  (∀ m, m ∈ ms → ¬ has_key t (m_id m) eid) →
  ∃ c' t' new,
    message_loop (body get_entity find_all_a json_dumps_preview json_dumps_reactions
                    Backfill dm (SqlInt eid) now) None (Item <$> ms) c = (c', None)
    ∧ wf_db (c_db c')
    ∧ c_db c' !! "messages" = Some t'
    ∧ tbl_rows t' = tbl_rows t ++ new
    ∧ row_key <$> new = (λ m, (SqlInt (m_id m), SqlInt eid)) <$> ms.
Proof.
  revert c t. induction ms as [|m ms IH]; intros c t Hsort Hlinks Hwf Ht Hk Hfresh.
  - exists c, t, []. simpl. by rewrite app_nil_r.
  - simpl. apply Forall_cons in Hlinks as [Hl Hlinks].
    destruct (body_succeeds get_entity find_all_a json_dumps_preview
                json_dumps_reactions Backfill dm eid now m c Hwf Hl)
      as (c1 & t0 & row & Hb & Hs & Ht0 & Ht1 & Hi & He).
    assert (t0 = t) as -> by congruence.
    unfold body in Hb |- *. rewrite Hb.
    assert (tbl_rows (insert_row OrIgnore row t) = tbl_rows t ++ [row]) as Hrows.
    { eapply insert_ignore_absent; [done..|]. apply Hfresh. by left. }
    pose proof Hsort as Hsort'. apply StronglySorted_inv in Hsort' as [Hsort' Hlt].
    destruct (IH c1 (insert_row OrIgnore row t)) as (c' & t' & new & Hrun & Hwf' & Ht' & Hr' & Hnew);
      [done|done|by eapply wf_same_shape|done| | |].
    { change (tbl_key (insert_row OrIgnore row t))
        with (shape (insert_row OrIgnore row t)).2. by rewrite insert_row_shape. }
    { intros m' Hm' (r & Hr & Hri & Hre). rewrite Hrows in Hr.
      apply elem_of_app in Hr as [Hr|Hr].
      - apply (Hfresh m'); [by right|]. by exists r.
      - apply list_elem_of_singleton in Hr as ->.
        rewrite Forall_forall in Hlt. specialize (Hlt _ Hm').
        rewrite Hi in Hri. injection Hri as Hri. lia. }
    exists c', t', (row :: new). unfold body in Hrun. split_and!; [done|done|done| |].
    + rewrite Hr', Hrows. by rewrite <- app_assoc.
    + simpl. f_equal; [|done]. unfold row_key. by rewrite Hi, He.
Qed.

End BackfillLoop.

(** X12. A first backfill archives the stream and renders all of it: on a
    stream of messages in decreasing id order whose anchors carry their
    target, started without a store, the pass returns normally, the messages
    table holds one row per message in stream order, and the digest shows
    every message of the stream exactly once. *)
Theorem backfill_digest_complete
    ge fa jp jr fi rp (w : World) (eid : Z) (stream : list Event)
    (dm : bool) (now : string) :
  w_store w = None → Forall is_item stream → newest_first (items stream) →
  Forall (links_ok fa) (items stream) →
  let r := process_entity ge fa jp jr fi rp w eid false stream None dm now in
  r.2 = None
  ∧ ∃ t groups,
      messages_of r.1 = Some t ∧ w_html r.1 = Some groups
      ∧ row_key <$> tbl_rows t
        = (λ m, (SqlInt (m_id m), SqlInt eid)) <$> items stream
      ∧ digest_ids groups ≡ₚ (λ m, SqlInt (m_id m)) <$> items stream.
Proof.
  intros Hw Hitems Hsort Hlinks r. unfold r, process_entity. clear r.
  rewrite Hw, iter_messages_None. simpl.
  pose proof (create_tables_current None I) as Hcur. simpl in Hcur.
  pose proof (current_schema_wf _ Hcur) as Hwf.
  set (conn := {| c_db := create_tables ∅; c_files := w_files w; c_log := w_log w |}).
  destruct (backfill_loop ge fa jp jr dm eid now (items stream) conn messages_table)
    as (c' & t' & new & Hrun & Hwf' & Ht' & Hrows & Hkeys);
    [done|done|done|simpl; by rewrite create_tables_messages|done| |].
  { intros m _ (r & Hr & _). by apply elem_of_nil in Hr. }
  assert (message_loop (body ge fa jp jr Backfill dm (SqlInt eid) now) None stream conn
          = (c', None)) as Hrun'.
  { by rewrite (items_of_stream _ Hitems). }
  rewrite Hrun'. simpl in Hrows. subst new.
  destruct Hwf' as ((tm & Htm & _) & (tr & Htr & _) & _ & (tb & Htb & _)).
  assert (tm = t') as -> by congruence.
  unfold render, generate_html, select_digest. rewrite Htm, Htb, Htr. simpl.
  split; [done|]. eexists t', _. split_and!; [|reflexivity|done|].
  - unfold messages_of. simpl. done.
  - unfold digest_ids. rewrite group_by_day_concat.
    rewrite <- list_fmap_compose.
    erewrite (list_fmap_ext _ (λ x : DigestRow, cell (dg_msg x) "id"));
      [|intros i x _; apply relative_media_id].
    rewrite (merge_sort_Permutation date_desc), <- list_fmap_compose.
    match goal with
    | |- context [filter ?P (tbl_rows t')] =>
        assert (filter P (tbl_rows t') = tbl_rows t') as ->
    end.
    { apply filter_all. intros x Hx.
      assert (row_key x ∈ row_key <$> tbl_rows t') as Hk by by apply list_elem_of_fmap_2.
      rewrite Hkeys in Hk. apply list_elem_of_fmap in Hk as (m & [= _ He] & _).
      simpl. rewrite He. by apply sql_eq_true. }
    change ((λ x : DigestRow, cell (dg_msg x) "id") ∘ digest_row tb tr)
      with (fst ∘ row_key).
    by rewrite list_fmap_compose, Hkeys, <- list_fmap_compose.
Qed.

Section ForwardedLink.

#[local] Arguments String.append : simpl nomatch.

Lemma last_post_sound r d :
  last_post r = Some d →
  ∃ mid post, r = mid +:+ "channel_post=" +:+ d +:+ post
    ∧ Str.isdigit d = true ∧ Str.has_char newline mid = false
    ∧ Str.starts_with_digit post = false.
Proof.
  induction r as [|c r IH]; [done|]. cbn [last_post].
  destruct (decide (c = newline)) as [->|Hc].
  - intros H. apply match_here_Some in H as (post & [=] & _).
  - destruct (last_post r) as [d'|] eqn:E.
    + intros [= <-]. destruct (IH eq_refl) as (mid & post & -> & Hd & Hm & Hp).
      exists (String c mid), post. split_and!; try done.
      simpl. by rewrite bool_decide_eq_false_2.
    + intros H. apply match_here_Some in H as (post & Hs & Hd & Hp).
      exists "", post. done.
Qed.

Lemma take_digits_nonempty d x :
  Str.isdigit d = true → Str.take_digits (d +:+ x) ≠ "".
Proof.
  destruct d as [|c d]; [done|]. simpl. intros [Hc _]%andb_true_iff.
  by rewrite Hc.
Qed.

Lemma drop_digits_app d x :
  Str.all_digits d = true → Str.drop_digits (d +:+ x) = Str.drop_digits x.
Proof.
  induction d as [|c d IH]; [done|]. simpl. intros [Hc Hd]%andb_true_iff.
  rewrite Hc. by apply IH.
Qed.

Lemma match_here_app key d post :
  Str.isdigit d = true → is_Some (match_here key (key +:+ d +:+ post)).
Proof.
  intros Hd. unfold match_here. rewrite strip_prefix_app.
  pose proof (take_digits_nonempty d post Hd) as Hne.
  destruct (Str.take_digits (d +:+ post)); [done|by eexists].
Qed.

Lemma last_post_complete mid d post :
  Str.has_char newline mid = false → Str.isdigit d = true →
  is_Some (last_post (mid +:+ "channel_post=" +:+ d +:+ post)).
Proof.
  intros Hm Hd. induction mid as [|c mid IH].
  - change ("" +:+ "channel_post=" +:+ d +:+ post)
      with (String "c" ("hannel_post=" +:+ d +:+ post)).
    cbn [last_post]. rewrite decide_False by done.
    destruct (last_post _); [by eexists|].
    apply (match_here_app "channel_post=" d post Hd).
  - simpl in Hm. apply orb_false_iff in Hm as [Hc Hm].
    apply bool_decide_eq_false in Hc.
    change (String c mid +:+ "channel_post=" +:+ d +:+ post)
      with (String c (mid +:+ "channel_post=" +:+ d +:+ post)).
    cbn [last_post]. rewrite decide_False by done.
    destruct (IH Hm) as [d' ->]. by eexists.
Qed.

Lemma drop_digits_mid mid x :
  Str.has_char newline mid = false →
  ∃ mid', Str.drop_digits (mid +:+ String "c" x) = mid' +:+ String "c" x
          ∧ Str.has_char newline mid' = false.
Proof.
  intros Hm. induction mid as [|a mid IH].
  - exists "". done.
  - simpl in Hm. apply orb_false_iff in Hm as [Ha Hm]. simpl.
    destruct (Str.is_digit a).
    + by apply IH.
    + exists (String a mid). split; [done|]. simpl. by rewrite Ha.
Qed.

Lemma url_here_sound s d1 d2 :
  url_here s = Some (d1, d2) →
  ∃ mid post, names_post s "" d1 mid d2 post
    ∧ Str.starts_with_digit mid = false ∧ Str.starts_with_digit post = false.
Proof.
  unfold url_here. destruct (Str.strip_prefix "channel_id=" s) as [rest|] eqn:Es; [|done].
  apply strip_prefix_spec in Es as ->.
  pose proof (take_drop_digits rest) as Hrest.
  pose proof (all_digits_take rest) as Hall.
  pose proof (starts_drop_digits rest) as Hstart.
  destruct (Str.take_digits rest) as [|c ds] eqn:Et; [done|].
  destruct (last_post (Str.drop_digits rest)) as [d|] eqn:El; [|done].
  intros [= <- <-]. apply last_post_sound in El as (mid & post & Hdrop & Hd & Hm & Hp).
  exists mid, post. unfold names_post. split_and!; try done.
  - rewrite Hrest at 1. by rewrite Hdrop.
  - rewrite Hdrop in Hstart. by destruct mid.
Qed.

Lemma url_here_complete d1 mid d2 post :
  Str.isdigit d1 = true → Str.isdigit d2 = true →
  Str.has_char newline mid = false →
  is_Some (url_here ("channel_id=" +:+ d1 +:+ mid +:+ "channel_post=" +:+ d2 +:+ post)).
Proof.
  intros H1 H2 Hm. unfold url_here. rewrite strip_prefix_app.
  pose proof (take_digits_nonempty d1 (mid +:+ "channel_post=" +:+ d2 +:+ post) H1) as Hne.
  destruct (Str.take_digits _) as [|c ds]; [done|].
  apply isdigit_all in H1 as [_ H1]. rewrite (drop_digits_app _ _ H1).
  change (mid +:+ "channel_post=" +:+ d2 +:+ post)
    with (mid +:+ String "c" ("hannel_post=" +:+ d2 +:+ post)).
  destruct (drop_digits_mid mid ("hannel_post=" +:+ d2 +:+ post) Hm) as (mid' & -> & Hm').
  change (mid' +:+ String "c" ("hannel_post=" +:+ d2 +:+ post))
    with (mid' +:+ "channel_post=" +:+ d2 +:+ post).
  destruct (last_post_complete mid' d2 post Hm' H2) as [d ->]. by eexists.
Qed.

Lemma search_url_unfold s :
  search_url s
  = match url_here s with
    | Some groups => Some groups
    | None => match s with
              | "" => None
              | String _ s' => search_url s'
              end
    end.
Proof. by destruct s. Qed.

Lemma search_url_sound s d1 d2 :
  search_url s = Some (d1, d2) →
  ∃ pre mid post, names_post s pre d1 mid d2 post
    ∧ Str.starts_with_digit mid = false ∧ Str.starts_with_digit post = false.
Proof.
  induction s as [|a s IH]; rewrite search_url_unfold.
  - destruct (url_here "") as [g|] eqn:E; [|done]. intros [= ->].
    destruct (url_here_sound _ _ _ E) as (mid & post & H & ? & ?). by exists "", mid, post.
  - destruct (url_here (String a s)) as [g|] eqn:E.
    + intros [= ->].
      destruct (url_here_sound _ _ _ E) as (mid & post & H & ? & ?). by exists "", mid, post.
    + intros H. destruct (IH H) as (pre & mid & post & (-> & ? & ? & ?) & ? & ?).
      exists (String a pre), mid, post. unfold names_post. done.
Qed.

Lemma search_url_complete s pre d1 mid d2 post :
  names_post s pre d1 mid d2 post → is_Some (search_url s).
Proof.
  intros (-> & H1 & H2 & Hm).
  pose proof (url_here_complete d1 mid d2 post H1 H2 Hm) as Hhere.
  revert Hhere.
  generalize ("channel_id=" +:+ d1 +:+ mid +:+ "channel_post=" +:+ d2 +:+ post).
  intros x [g Hx]. induction pre as [|a pre IH]; rewrite search_url_unfold.
  - change ("" +:+ x) with x. rewrite Hx. by eexists.
  - destruct (url_here (String a pre +:+ x)); [by eexists|]. exact IH.
Qed.

(** X13. [get_url_from_forwarded] gives a link exactly when the header text
    names a channel id and, later on the same line, a post id, each a run of
    digits after [channel_id=] and [channel_post=]; the link is
    [https://t.me/c/<channel id>/<post id>] with two such runs, taken whole.
    Without a header there is no link. *)
Theorem get_url_from_forwarded_spec (s : string) :
  get_url_from_forwarded None = None
  ∧ (is_Some (get_url_from_forwarded (Some s))
     ↔ ∃ pre d1 mid d2 post, names_post s pre d1 mid d2 post)
  ∧ ∀ url, get_url_from_forwarded (Some s) = Some url →
      ∃ pre d1 mid d2 post,
        names_post s pre d1 mid d2 post
        ∧ Str.starts_with_digit mid = false ∧ Str.starts_with_digit post = false
        ∧ url = "https://t.me/c/" +:+ d1 +:+ "/" +:+ d2.
Proof.
  split_and!; [done| |].
  - unfold get_url_from_forwarded. split.
    + destruct (search_url s) as [[d1 d2]|] eqn:E; [|by intros [? [=]]].
      intros _. destruct (search_url_sound _ _ _ E) as (pre & mid & post & H & _).
      by exists pre, d1, mid, d2, post.
    + intros (pre & d1 & mid & d2 & post & H).
      destruct (search_url_complete _ _ _ _ _ _ H) as [[a b] ->]. by eexists.
  - intros url. unfold get_url_from_forwarded.
    destruct (search_url s) as [[d1 d2]|] eqn:E; [|done]. intros [= <-].
    destruct (search_url_sound _ _ _ E) as (pre & mid & post & H & ? & ?).
    by exists pre, d1, mid, d2, post.
Qed.

End ForwardedLink.

Lemma get_url_from_forwarded_examples :
  get_url_from_forwarded
    (Some "MessageFwdHeader(from_id=PeerChannel(channel_id=1234), channel_post=56, post_author=None)")
  = Some "https://t.me/c/1234/56"
  ∧ get_url_from_forwarded
      (Some "channel_id=1, channel_post=2, saved_from_peer=PeerChannel(channel_id=3), channel_post=45")
    = Some "https://t.me/c/1/45"
  ∧ get_url_from_forwarded (Some "MessageFwdHeader(from_id=PeerUser(user_id=7))") = None
  ∧ get_url_from_forwarded (Some "channel_post=56, channel_id=1234") = None
  ∧ get_url_from_forwarded None = None.
Proof. vm_compute. done. Qed.

Lemma store_buttons_grid_witness :
  let c := Sample.photo_conn in
  let t := Sample.table_of "buttons" Sample.with_photo in
  ∃ c' t', store_buttons 5 21 0 Fixture.keyboard c = (c', Ok ())
    ∧ buttons_set c c' t' ∧ shape t' = shape t
    ∧ tbl_rows t' = tbl_rows t ++ keyboard_records 21 5 0 Fixture.keyboard.
Proof.
  apply (store_buttons_grid 5 21 Fixture.keyboard Sample.photo_conn
           (Sample.table_of "buttons" Sample.with_photo)).
  - vm_compute. reflexivity.
  - vm_compute. reflexivity.
  - intros i j (r & Hr & _).
    assert (tbl_rows (Sample.table_of "buttons" Sample.with_photo) = []) as E
      by (vm_compute; reflexivity).
    rewrite E in Hr. by apply elem_of_nil in Hr.
Defined.

(** The records of the sample keyboard. *)
Lemma store_buttons_example :
  (λ r : Row, (cell r "row", cell r "column", cell r "text", cell r "data",
               cell r "url"))
    <$> keyboard_records 21 5 0 Fixture.keyboard
  = [(SqlInt 0, SqlInt 0, SqlText "Open", SqlNull, SqlText "https://a.example");
     (SqlInt 0, SqlInt 1, SqlText "Vote", SqlText "b'v1'", SqlNull);
     (SqlInt 1, SqlInt 0, SqlText "More", SqlNull, SqlText "https://b.example")].
Proof. vm_compute. reflexivity. Qed.

Lemma store_links_witness :
  let c := Sample.photo_conn in
  let t := Sample.table_of "buttons" Sample.with_photo in
  let links := Sample.find_all_a Sample.two_links in
  ∃ c' t', store_links 5 21 links c = (c', Ok ())
    ∧ buttons_set c c' t' ∧ shape t' = shape t
    ∧ (has_button t 21 5 0 0 → t' = t)
    ∧ (¬ has_button t 21 5 0 0 →
       tbl_rows t' = tbl_rows t ++ (anchor_record 21 5 <$> take 1 links)).
Proof.
  apply (store_links_one_record 5 21 (Sample.find_all_a Sample.two_links)
           Sample.photo_conn (Sample.table_of "buttons" Sample.with_photo)).
  - vm_compute. reflexivity.
  - vm_compute. reflexivity.
  - vm_compute. each ltac:(by eexists).
Defined.

(** An update whose stream raises after the first new message. *)
Lemma update_never_escapes_witness :
  let u := Sample.update Sample.archived 5 false (Sample.throttled_stream 12 11)
             false Sample.now in
  u.2 = None ∧ is_Some (w_html u.1) ∧ w_slept u.1 = w_slept Sample.archived
  ∧ ∃ t', messages_of u.1 = Some t'
          ∧ shape t' = shape (Sample.table_of "messages" Sample.archived)
          ∧ tbl_rows (Sample.table_of "messages" Sample.archived) `prefix_of` tbl_rows t'
          ∧ (unique_keys (Sample.table_of "messages" Sample.archived) → unique_keys t').
Proof.
  apply (update_never_escapes Sample.get_entity Sample.find_all_a
           Sample.json_dumps_preview Sample.json_dumps_reactions
           Sample.fromisoformat Sample.relpath Sample.archived
           (Sample.store_of Sample.archived)
           (Sample.table_of "messages" Sample.archived) 5 false
           (Sample.throttled_stream 12 11) false Sample.now).
  - vm_compute. reflexivity.
  - unfold current_schema. split_and!;
      [exists (Sample.table_of "messages" Sample.archived)
      |exists (Sample.table_of "reactions" Sample.archived)
      |exists (Sample.table_of "replies" Sample.archived)
      |exists (Sample.table_of "buttons" Sample.archived)];
      (split; vm_compute; reflexivity).
  - vm_compute. reflexivity.
Defined.

(** A backfill whose stream loses the connection after one message. *)
Lemma backfill_stream_failure_witness :
  let w := Sample.archived in
  let pre := [Item (Sample.text_message 12 "2024-01-12T08:00:00+00:00" "newer")] in
  let rest := [Item (Sample.text_message 11 "2024-01-11T08:00:00+00:00" "older")] in
  let e := ClientError "connection reset" in
  let r0 := Sample.backfill w 5 false pre None false Sample.now in
  let r := Sample.backfill w 5 false (pre ++ Fault e :: rest) None false Sample.now in
  w_store r.1 = w_store r0.1 ∧ w_files r.1 = w_files r0.1
  ∧ (e = ChannelPrivateError →
     r.2 = None ∧ w_html r.1 = w_html r0.1 ∧ w_slept r.1 = w_slept w
     ∧ ∃ L, w_log r0.1 = L ++ [LogHtmlGenerated]
            ∧ w_log r.1 = L ++ [LogCannotAccess; LogHtmlGenerated])
  ∧ (benign e →
     r.2 = Some e ∧ w_html r.1 = w_html w ∧ w_slept r.1 = w_slept w
     ∧ w_log r0.1 = w_log r.1 ++ [LogHtmlGenerated]).
Proof.
  apply (backfill_stream_failure Sample.get_entity Sample.find_all_a
           Sample.json_dumps_preview Sample.json_dumps_reactions
           Sample.fromisoformat Sample.relpath Sample.archived 5
           [Item (Sample.text_message 12 "2024-01-12T08:00:00+00:00" "newer")]
           [Item (Sample.text_message 11 "2024-01-11T08:00:00+00:00" "older")]
           (ClientError "connection reset") false Sample.now).
  - each ltac:(exact I).
  - vm_compute. reflexivity.
Defined.

Lemma migration_idempotent_witness :
  migrate_messages (migrate_messages Sample.legacy_messages)
  = migrate_messages Sample.legacy_messages
  ∧ migration_log (migrate_messages Sample.legacy_messages) = []
  ∧ ∀ e, entity_id_after_migration (migrate_messages Sample.legacy_messages) e = e.
Proof.
  apply (migration_idempotent Sample.legacy_messages).
  intros c Hc. unfold migratable, flag_columns in Hc.
  repeat (apply elem_of_cons in Hc as [->|Hc]; [vm_compute; reflexivity|]).
  by apply elem_of_nil in Hc.
Defined.

(** The retry loop on a store locked twice, and on one that stays locked. *)
Lemma get_db_connection_examples :
  get_db_connection Fixture.locked_twice 3 = (Ok "connection", [5; 10])
  ∧ get_db_connection Fixture.locked_twice 2
    = (Raise (OperationalError "database is locked"), [5])
  ∧ get_db_connection Fixture.always_locked 3
    = (Raise (OperationalError "Database Is Locked"), [5; 10])
  ∧ get_db_connection Fixture.locked_twice 0
    = (Raise (OperationalError
                "Failed to connect to database after multiple attempts"), []).
Proof. vm_compute. done. Qed.

Lemma sanitize_filename_examples :
  sanitize_filename Fixture.ascii_word "-100123_News: a/b?.db" = "-100123_News_ a_b_.db"
  ∧ sanitized_name Fixture.ascii_word (-100123) "News/1"
    = sanitized_name Fixture.ascii_word (-100123) "News:1"
  ∧ sanitized_name Fixture.ascii_word 7 "Ann" ≠ sanitized_name Fixture.ascii_word 8 "Ann".
Proof. vm_compute. split_and!; done. Qed.

Lemma store_name_witness :
  sanitized_name Fixture.ascii_word 7 "Ann Lee" = sanitized_name Fixture.ascii_word 7 "Ann Lee"
  ↔ 7 = 7 ∧ sanitize_filename Fixture.ascii_word "Ann Lee"
            = sanitize_filename Fixture.ascii_word "Ann Lee".
Proof.
  apply (store_name_spec Fixture.ascii_word 7 7 "Ann Lee" "Ann Lee").
  intros c Hc. unfold Fixture.ascii_word. by rewrite Hc.
Defined.

Lemma get_message_by_id_witness :
  get_message_by_id Fixture.three_days_digest (Some 4)
  = Some (default (digest_row messages_table messages_table ∅)
            (Fixture.three_days_digest !! 2%nat)).
Proof.
  apply (get_message_by_id_found (Sample.store_of Sample.three_days)
           (Sample.table_of "messages" Sample.three_days) 5
           Fixture.three_days_digest).
  - vm_compute. reflexivity.
  - vm_compute. reflexivity.
  - apply distinct_keys_sound. vm_compute. reflexivity.
  - vm_compute. reflexivity.
  - apply (list_elem_of_lookup_2 _ 2%nat). vm_compute. reflexivity.
  - vm_compute. reflexivity.
Defined.

(** Reply previews on the digest of three days: a short text, an id that is
    not in the digest, and no id. *)
Lemma get_reply_preview_examples :
  get_reply_preview Fixture.three_days_digest (Some 4) = Ok "Unknown: d"
  ∧ get_reply_preview Fixture.three_days_digest (Some 99) = Ok "Message not found"
  ∧ get_reply_preview Fixture.three_days_digest None = Ok "Message not found"
  ∧ take_chars 30 "The quick brown fox jumps over the lazy dog" +:+ "..."
    = "The quick brown fox jumps over...".
Proof. vm_compute. done. Qed.

(** One url button and two reactions: the button is listed twice. *)
Lemma digest_row_example :
  (λ x, (cell (dg_msg x) "id", dg_buttons x, dg_reactions x))
    <$> match select_digest (Sample.store_of Fixture.decorated) (Some (SqlInt 5)) with
        | Ok messages => messages
        | Raise _ => []
        end
  = [(SqlInt 30, SqlText "Open,https://a.example|Open,https://a.example",
      SqlText "+:2,!:1")].
Proof. vm_compute. reflexivity. Qed.

Lemma backfill_digest_witness :
  let r := Sample.backfill Sample.fresh 5 false Sample.resume_stream None false
             Sample.now in
  r.2 = None
  ∧ ∃ t groups,
      messages_of r.1 = Some t ∧ w_html r.1 = Some groups
      ∧ row_key <$> tbl_rows t
        = (λ m, (SqlInt (m_id m), SqlInt 5)) <$> items Sample.resume_stream
      ∧ digest_ids groups ≡ₚ (λ m, SqlInt (m_id m)) <$> items Sample.resume_stream.
Proof.
  apply (backfill_digest_complete Sample.get_entity Sample.find_all_a
           Sample.json_dumps_preview Sample.json_dumps_reactions
           Sample.fromisoformat Sample.relpath Sample.fresh 5
           Sample.resume_stream false Sample.now).
  - reflexivity.
  - each ltac:(exact I).
  - unfold newest_first. simpl.
    repeat first [apply SSorted_nil | apply SSorted_cons; [|each ltac:(simpl; lia)]].
  - simpl. each ltac:(intros _; vm_compute; constructor).
Defined.
